(** * Face-Recognition-System: the matching engine of [app.py]

    A shallow embedding of [SimpleFaceRecognizer] (scorer, duplicate guard,
    enrolment, recognition) and of the two routes that mutate the store
    ([register_multiple], [delete_face]), followed by the properties the
    specification states about them.

    Conventions.
    - A Python call either returns or raises: [result A].
    - numpy's arithmetic is kept behind the interface [Scalar]. The program
      computes at the instance [float64] (IEEE binary64, executable): what is
      stated of [app.py] is stated at [float64], or for every instance under
      laws that are proved of [float64]. The real numbers ([exact]) are a
      second model of those laws, not the arithmetic of the program.
    - OpenCV (detector, crop/resize, image decoding) and the clock are
      external: they are variables of the sections below. *)

From Stdlib Require Import String Ascii DecimalString.
From Stdlib Require Import ZArith Bool List Lia.
From Stdlib Require Import PrimFloat Uint63 FloatOps FloatAxioms SpecFloat.
From Stdlib Require Import Reals Lra.
Import ListNotations.

Local Open Scope string_scope.
Local Open Scope list_scope.

(* ================================================================== *)
(** ** Python results *)
(* ================================================================== *)

(** The exceptions the modelled code can raise, each with the text [str(e)]
    gives. *)
Inductive exn : Type :=
| ValueError (msg : string)
| IndexError (msg : string)
| OtherError (msg : string).

Definition str_exn (e : exn) : string :=
  match e with
  | ValueError m | IndexError m | OtherError m => m
  end.

Inductive result (A : Type) : Type :=
| Ok (a : A)
| Raise (e : exn).
Arguments Ok {A} a.
Arguments Raise {A} e.

Definition bind {A B : Type} (m : result A) (k : A -> result B) : result B :=
  match m with
  | Ok a => k a
  | Raise e => Raise e
  end.

Declare Scope py_scope.
Delimit Scope py_scope with py.
Notation "x <- m ;; k" := (bind m (fun x => k))
  (at level 61, m at next level, right associativity) : py_scope.
Notation "' p <- m ;; k" := (bind m (fun x => let p := x in k))
  (at level 61, p pattern, m at next level, right associativity) : py_scope.
Local Open Scope py_scope.

(** [str(n)] of a non-negative integer, as an f-string prints it. *)
Definition str_nat (n : nat) : string :=
  NilZero.string_of_uint (Nat.to_uint n).

(* ================================================================== *)
(** ** The arithmetic of numpy scalars *)
(* ================================================================== *)

Class Scalar (F : Type) : Type := {
  of_Z   : Z -> F;            (* int -> float64 conversion *)
  add    : F -> F -> F;
  mul    : F -> F -> F;
  div    : F -> F -> F;
  sqrt   : F -> F;            (* np.sqrt *)
  ltb    : F -> F -> bool;    (* x < y *)
  round2 : F -> F             (* round(x, 2) *)
}.

Declare Scope scalar_scope.
Delimit Scope scalar_scope with sc.
Infix "+" := add : scalar_scope.
Infix "*" := mul : scalar_scope.
Infix "/" := div : scalar_scope.
Infix "<?" := ltb : scalar_scope.
Notation "x >? y" := (ltb y x) : scalar_scope.

Section Numpy.
Context {F : Type} `{Scalar F}.
Local Open Scope scalar_scope.

(** A decimal literal [n / d] of the source ([0.6], [0.75], ...). Division
    is correctly rounded and numerator and denominator are exact, so at
    [float64] this is the double Python parses the literal to (checked in
    [float64_literals] below). *)
Definition lit (n d : Z) : F := of_Z n / of_Z d.

Definition c0_6  : F := lit 6 10.
Definition c0_75 : F := lit 75 100.
Definition c0_8  : F := lit 8 10.
Definition c0_85 : F := lit 85 100.

(** Sum of the element-wise products, accumulated left to right from 0.
    (A BLAS kernel may add in another order, or fuse a product with the
    addition that follows it. The general theorems below do not depend on
    that; what is evaluated at float64 is this kernel, each product rounded
    and then added, on descriptors of two or three entries.) Both
    arguments have the same length here. *)
Fixpoint sum_products (acc : F) (u v : list F) : F :=
  match u, v with
  | x :: u', y :: v' => sum_products (acc + x * y) u' v'
  | _, _ => acc
  end.

Definition shapes_not_aligned (n m : nat) : exn :=
  ValueError ("shapes (" ++ str_nat n ++ ",) and (" ++ str_nat m
              ++ ",) not aligned: " ++ str_nat n ++ " (dim 0) != "
              ++ str_nat m ++ " (dim 0)")%string.

(** [np.dot] of two 1-D arrays: raises when the lengths differ. *)
Definition np_dot (u v : list F) : result F :=
  if Nat.eqb (length u) (length v)
  then Ok (sum_products (of_Z 0) u v)
  else Raise (shapes_not_aligned (length u) (length v)).

(** [np.linalg.norm] of a 1-D real array: [sqrt(x.dot(x))]. *)
Definition np_linalg_norm (v : list F) : F :=
  sqrt (sum_products (of_Z 0) v v).

(** [v / s] for an array [v] and a scalar [s]. Dividing by zero is not an
    error in numpy: it warns and yields inf or nan entries. *)
Definition np_divide (v : list F) (s : F) : list F :=
  map (fun x => x / s) v.

(** [SimpleFaceRecognizer.compare_faces] (app.py 70-82). *)
Definition compare_faces (features1 features2 : list F) (threshold : F)
  : result (bool * F) :=
  let features1 := np_divide features1 (np_linalg_norm features1) in
  let features2 := np_divide features2 (np_linalg_norm features2) in
  similarity <- np_dot features1 features2 ;;
  Ok (similarity >? threshold, similarity).

End Numpy.

(* ================================================================== *)
(** ** The two arithmetics *)
(* ================================================================== *)

(** IEEE binary64, round to nearest even: numpy's [float64]. *)
Module Float64.

(** Exact for [|z| < 2^53]; the program converts pixel intensities
    (0..255) and the small constants of its literals. *)
Definition of_Z (z : Z) : float :=
  match z with
  | Z0 => PrimFloat.zero
  | Zpos _ => PrimFloat.of_uint63 (Uint63.of_Z z)
  | Zneg _ => PrimFloat.opp (PrimFloat.of_uint63 (Uint63.of_Z (Z.opp z)))
  end.

Definition two52 : float := PrimFloat.of_uint63 4503599627370496%uint63.

(** [np.rint]: nearest integer, ties to even; values of magnitude [2^52]
    and above, infinities and nan are returned unchanged. *)
Definition rint (x : float) : float :=
  let a := PrimFloat.abs x in
  if PrimFloat.ltb a two52 then
    let r := PrimFloat.sub (PrimFloat.add a two52) two52 in
    if PrimFloat.get_sign x then PrimFloat.opp r else r
  else x.

(** [round(x, 2)] on a numpy float64:
    [np.true_divide(np.rint(x * 10**2), 10**2)]. *)
Definition round2 (x : float) : float :=
  PrimFloat.div (rint (PrimFloat.mul x (of_Z 100))) (of_Z 100).

End Float64.

#[export] Instance float64 : Scalar float := {|
  of_Z   := Float64.of_Z;
  add    := PrimFloat.add;
  mul    := PrimFloat.mul;
  div    := PrimFloat.div;
  sqrt   := PrimFloat.sqrt;
  ltb    := PrimFloat.ltb;
  round2 := Float64.round2
|}.

(** The real numbers: ideal arithmetic, without rounding, overflow or nan
    (and with Rocq's [x / 0 = 0]). numpy does not compute in it, so nothing
    proved at this instance alone is a statement about [app.py]; it is a
    second model of the order and commutation laws the general theorems
    assume. *)
Module Exact.

Definition ltb (x y : R) : bool :=
  if Rlt_dec x y then true else false.

Definition rint (x : R) : R :=
  let f := Int_part x in
  let d := (x - IZR f)%R in
  if Rlt_dec d (1 / 2)%R then IZR f
  else if Rlt_dec (1 / 2)%R d then IZR (f + 1)
       else IZR (if Z.even f then f else f + 1).

Definition round2 (x : R) : R := (rint (x * 100) / 100)%R.

End Exact.

#[export] Instance exact : Scalar R := {|
  of_Z   := IZR;
  add    := Rplus;
  mul    := Rmult;
  div    := Rdiv;
  sqrt   := R_sqrt.sqrt;
  ltb    := Exact.ltb;
  round2 := Exact.round2
|}.

(* ================================================================== *)
(** ** Python dictionaries *)
(* ================================================================== *)

(** A [dict] with string keys iterates in insertion order, so it is kept as
    an association list; the operations below keep the keys distinct. *)
Section Dict.
Variable V : Type.

Definition dict : Type := list (string * V).

(** [k in d] *)
Definition dict_contains (d : dict) (k : string) : bool :=
  existsb (fun kv => String.eqb (fst kv) k) d.

(** [d[k] = v]: an existing key keeps its place, a new key goes last. *)
Fixpoint dict_set (d : dict) (k : string) (v : V) : dict :=
  match d with
  | [] => [(k, v)]
  | (k', v') :: d' =>
      if String.eqb k' k then (k, v) :: d' else (k', v') :: dict_set d' k v
  end.

(** [del d[k]] for a key that is present. *)
Definition dict_del (d : dict) (k : string) : dict :=
  filter (fun kv => negb (String.eqb (fst kv) k)) d.

(** [list(d.keys())] *)
Definition dict_keys (d : dict) : list string := map fst d.

End Dict.

Arguments dict_contains {V} d k.
Arguments dict_set {V} d k v.
Arguments dict_del {V} d k.
Arguments dict_keys {V} d.

(* ================================================================== *)
(** ** SimpleFaceRecognizer *)
(* ================================================================== *)

(** A face rectangle [(x, y, w, h)] as the detector returns it. *)
Definition face_coords : Type := (Z * Z * Z * Z)%type.

Section Recognizer.
Context {F : Type} `{Scalar F}.
Local Open Scope scalar_scope.

(** The value one name is mapped to. The code tests
    ['all_features' in face_data], so the key may be missing. *)
Record face_data : Type := {
  features      : list F;
  all_features  : option (list (list F));
  registered_at : string;
  image_count   : nat
}.

(** [face_data.json]: missing, unreadable, or the dumped mapping.
    [json.dump] followed by [json.load] gives the mapping back. *)
Inductive file_state : Type :=
| FileAbsent
| FileCorrupt
| FileJson (d : dict face_data).

(** The recognizer's mapping and the file that mirrors it. *)
Record world : Type := {
  known_faces    : dict face_data;
  face_data_file : file_state
}.

(** [load_known_faces] (app.py 31-39) *)
Definition load_known_faces (f : file_state) : dict face_data :=
  match f with
  | FileJson d => d
  | FileAbsent | FileCorrupt => []
  end.

(** [save_known_faces] (app.py 41-44); the write itself is taken to
    succeed. *)
Definition save_known_faces (w : world) : world :=
  {| known_faces := known_faces w;
     face_data_file := FileJson (known_faces w) |}.

(** OpenCV and the clock. *)
Context {image : Type}.
Variable detect_faces : image -> list face_coords.
Variable extract_face_features : image -> face_coords -> list F.
Variable now_isoformat : string.

(* ---------------------------------------------------------------- *)
(** *** check_face_similarity (app.py 84-102) *)

(** The inner loop over [face_data['all_features']]: [true] when the
    function returns from inside it. *)
Fixpoint check_individual (feats : list F) (individual : list (list F))
         (similarity_threshold : F) : result bool :=
  match individual with
  | [] => Ok false
  | individual_features :: rest =>
      '(is_similar, _) <-
        compare_faces feats individual_features similarity_threshold ;;
      if (is_similar : bool) then Ok true
      else check_individual feats rest similarity_threshold
  end.

Fixpoint check_face_similarity (kf : dict face_data) (feats : list F)
         (similarity_threshold : F) : result (option string) :=
  match kf with
  | [] => Ok None
  | (registered_name, fd) :: rest =>
      '(is_similar, _) <-
        compare_faces feats (features fd) similarity_threshold ;;
      if (is_similar : bool) then Ok (Some registered_name)
      else
        match all_features fd with
        | Some individual =>
            found <- check_individual feats individual similarity_threshold ;;
            if (found : bool) then Ok (Some registered_name)
            else check_face_similarity rest feats similarity_threshold
        | None => check_face_similarity rest feats similarity_threshold
        end
  end.

(* ---------------------------------------------------------------- *)
(** *** register_face (app.py 105-163) *)

(** Truth value of an [Optional[str]]: [None] and [''] are false. *)
Definition truthy (o : option string) : bool :=
  match o with
  | Some s => negb (String.eqb s "")
  | None => false
  end.

Definition msg_three_required : string :=
  "Exactly 3 images are required".

Definition msg_name_registered (name : string) : string :=
  ("Person with name '" ++ name ++
   "' is already registered. Please use a different name or delete the existing registration first.")%string.

Definition msg_no_face (i : nat) : string :=
  ("No face detected in image " ++ str_nat (i + 1))%string.

Definition msg_multiple_faces (i : nat) : string :=
  ("Multiple faces detected in image " ++ str_nat (i + 1) ++
   ". Please ensure only one face per image")%string.

Definition msg_face_registered (duplicate_name : string) : string :=
  ("This face appears to be already registered under the name '"
   ++ duplicate_name ++ "'. Each person can only be registered once.")%string.

Definition msg_registered (n : nat) : string :=
  ("Face registered successfully with " ++ str_nat n ++
   " high-quality photos!")%string.

(** The loop of lines 117-135 from image [i] on: [inl message] when it
    returns [False, message], [inr all_features] when it runs to its end. *)
Fixpoint register_loop (kf : dict face_data) (images : list image)
         (i : nat) (all_feats : list (list F))
  : result (string + list (list F)) :=
  match images with
  | [] => Ok (inr all_feats)
  | img :: rest =>
      match detect_faces img with
      | [] => Ok (inl (msg_no_face i))
      | _ :: _ :: _ => Ok (inl (msg_multiple_faces i))
      | [coords] =>
          let feats := extract_face_features img coords in
          duplicate_name <- check_face_similarity kf feats c0_85 ;;
          if truthy duplicate_name then
            Ok (inl (msg_face_registered
                       (match duplicate_name with Some s => s | None => "" end)))
          else register_loop kf rest (i + 1) (all_feats ++ [feats])
      end
  end.

Definition inhomogeneous_shape : exn :=
  ValueError "setting an array element with a sequence. The requested array has an inhomogeneous shape after 1 dimensions.".

(** [np.mean(rows, axis=0)]: the rows are added in order, entry by entry,
    and divided by their number; rows of different lengths do not form an
    array. ([register_face] calls it with three rows.) *)
Fixpoint add_rows (acc row : list F) : list F :=
  match acc, row with
  | x :: acc', y :: row' => (x + y) :: add_rows acc' row'
  | _, _ => []
  end.

Definition np_mean_axis0 (rows : list (list F)) : result (list F) :=
  match rows with
  | [] => Ok []
  | r0 :: rest =>
      if forallb (fun r => Nat.eqb (length r) (length r0)) rest
      then Ok (np_divide (fold_left add_rows rest r0)
                         (of_Z (Z.of_nat (length rows))))
      else Raise inhomogeneous_shape
  end.

(** The method returns [(success, message)] or raises, and leaves a
    world behind. *)
Definition register_face (images : list image) (name : string) (w : world)
  : result (bool * string) * world :=
  if negb (Nat.eqb (length images) 3) then
    (Ok (false, msg_three_required), w)
  else if dict_contains (known_faces w) name then
    (Ok (false, msg_name_registered name), w)
  else
    match register_loop (known_faces w) images 0 [] with
    | Raise e => (Raise e, w)
    | Ok (inl message) => (Ok (false, message), w)
    | Ok (inr all_feats) =>
        match np_mean_axis0 all_feats with
        | Raise e => (Raise e, w)
        | Ok avg_features =>
            let record :=
              {| features := avg_features;
                 all_features := Some all_feats;
                 registered_at := now_isoformat;
                 image_count := length images |} in
            let w1 :=
              {| known_faces := dict_set (known_faces w) name record;
                 face_data_file := face_data_file w |} in
            (Ok (true, msg_registered (length images)), save_known_faces w1)
        end
    end.

(* ---------------------------------------------------------------- *)
(** *** recognize_face (app.py 165-214) *)

(** [best_similarity] starts as the Python int [0] and becomes a numpy
    float once a similarity exceeds it. *)
Inductive number : Type :=
| PyInt (z : Z)
| PyFloat (x : F).

(** The float a number is compared as. *)
Definition to_float (n : number) : F :=
  match n with
  | PyInt z => of_Z z
  | PyFloat x => x
  end.

(** [n * 100] *)
Definition times_100 (n : number) : number :=
  match n with
  | PyInt z => PyInt (z * 100)
  | PyFloat x => PyFloat (x * of_Z 100)
  end.

(** [round(n, 2)]: an int is returned as it is. *)
Definition py_round2 (n : number) : number :=
  match n with
  | PyInt z => PyInt z
  | PyFloat x => PyFloat (round2 x)
  end.

(** [max(a, b)]: [b] only when [b > a]. *)
Definition py_max (a b : F) : F :=
  if b >? a then b else a.

(** Lines 189-192: the running maximum over the individual samples. *)
Fixpoint best_individual (feats : list F) (individual : list (list F))
         (best_individual_similarity : F) : result F :=
  match individual with
  | [] => Ok best_individual_similarity
  | individual_features :: rest =>
      '(_, individual_similarity) <-
        compare_faces feats individual_features c0_6 ;;
      best_individual feats rest
        (py_max best_individual_similarity individual_similarity)
  end.

(** Lines 183-195: the verdict and similarity of one record. *)
Definition compare_record (feats : list F) (fd : face_data)
  : result (bool * F) :=
  '(is_match, similarity) <- compare_faces feats (features fd) c0_6 ;;
  match all_features fd with
  | Some individual =>
      if similarity <? c0_8 then
        similarity <- best_individual feats individual similarity ;;
        Ok (similarity >? c0_75, similarity)
      else Ok (is_match, similarity)
  | None => Ok (is_match, similarity)
  end.

(** Lines 181-200: the loop over the store. *)
Fixpoint best_over (kf : dict face_data) (feats : list F)
         (best_match : option string) (best_similarity : number)
  : result (option string * number) :=
  match kf with
  | [] => Ok (best_match, best_similarity)
  | (name, fd) :: rest =>
      '(is_match, similarity) <- compare_record feats fd ;;
      if similarity >? to_float best_similarity then
        best_over rest feats
          (if (is_match : bool) then Some name else best_match)
          (PyFloat similarity)
      else best_over rest feats best_match best_similarity
  end.

Record face_result : Type := {
  r_name        : string;
  r_confidence  : number;
  r_coordinates : face_coords
}.

(** [best_match or 'Unknown'] *)
Definition or_unknown (best_match : option string) : string :=
  if truthy best_match
  then match best_match with Some s => s | None => "" end
  else "Unknown".

(** Lines 175-212: one pass of the loop over the detected faces. *)
Definition recognize_one (kf : dict face_data) (img : image)
           (coords : face_coords) : result face_result :=
  let feats := extract_face_features img coords in
  '(best_match, best_similarity) <- best_over kf feats None (PyInt 0) ;;
  Ok {| r_name := or_unknown best_match;
        r_confidence := py_round2 (times_100 best_similarity);
        r_coordinates := coords |}.

Fixpoint recognize_all (kf : dict face_data) (img : image)
         (faces : list face_coords) : result (list face_result) :=
  match faces with
  | [] => Ok []
  | coords :: rest =>
      r <- recognize_one kf img coords ;;
      rs <- recognize_all kf img rest ;;
      Ok (r :: rs)
  end.

Definition recognize_face (kf : dict face_data) (img : image)
  : result (list face_result * string) :=
  let faces := detect_faces img in
  if Nat.eqb (length faces) 0 then Ok ([], "No face detected")
  else
    results <- recognize_all kf img faces ;;
    Ok (results, "Recognition completed").

(* ---------------------------------------------------------------- *)
(** *** Start-up and the routes that change the store *)

(** [recognizer = SimpleFaceRecognizer()] (app.py 26-29, 217): what a
    fresh process holds, given the file it finds. *)
Definition startup (f : file_state) : world :=
  {| known_faces := load_known_faces f; face_data_file := f |}.

(** [jsonify({'success': ..., 'message': ...})] *)
Record response : Type := {
  success : bool;
  message : string
}.

(** A Python [str] is held as the bytes of its UTF-8 encoding (the text of
    a request is well-formed Unicode). [str.isspace], by which [str.strip]
    goes, holds of 29 characters. Ten have one byte: TAB to CR (9-13), FS
    to US (28-31) and the space (32). *)
Definition py_isspace (c : ascii) : bool :=
  let n := nat_of_ascii c in
  (Nat.leb 9 n && Nat.leb n 13) || (Nat.leb 28 n && Nat.leb n 32).

(** Two have two bytes: U+0085 (C2 85) and U+00A0 (C2 A0). *)
Definition py_isspace2 (c1 c2 : ascii) : bool :=
  let n1 := nat_of_ascii c1 in
  let n2 := nat_of_ascii c2 in
  Nat.eqb n1 194 && (Nat.eqb n2 133 || Nat.eqb n2 160).

(** Seventeen have three bytes: U+1680 (E1 9A 80), U+2000 to U+200A
    (E2 80 80 to E2 80 8A), U+2028, U+2029 and U+202F (E2 80 A8, A9, AF),
    U+205F (E2 81 9F) and U+3000 (E3 80 80). *)
Definition py_isspace3 (c1 c2 c3 : ascii) : bool :=
  let n1 := nat_of_ascii c1 in
  let n2 := nat_of_ascii c2 in
  let n3 := nat_of_ascii c3 in
  (Nat.eqb n1 225 && Nat.eqb n2 154 && Nat.eqb n3 128)
  || (Nat.eqb n1 226 && Nat.eqb n2 128
      && ((Nat.leb 128 n3 && Nat.leb n3 138)
          || Nat.eqb n3 168 || Nat.eqb n3 169 || Nat.eqb n3 175))
  || (Nat.eqb n1 226 && Nat.eqb n2 129 && Nat.eqb n3 159)
  || (Nat.eqb n1 227 && Nat.eqb n2 128 && Nat.eqb n3 128).

(** [s.lstrip()]: the leading white-space characters go, of one, two or
    three bytes. *)
Fixpoint py_lstrip (s : string) : string :=
  match s with
  | EmptyString => EmptyString
  | String c1 s1 =>
      if py_isspace c1 then py_lstrip s1
      else
        match s1 with
        | EmptyString => s
        | String c2 s2 =>
            if py_isspace2 c1 c2 then py_lstrip s2
            else
              match s2 with
              | EmptyString => s
              | String c3 s3 =>
                  if py_isspace3 c1 c2 c3 then py_lstrip s3 else s
              end
        end
  end.

(** [s.rstrip()]: the text is cut where what follows is white space only.
    A white-space character starts with a byte below 33 or with a lead
    byte, so no cut falls inside a character. *)
Fixpoint py_rstrip (s : string) : string :=
  match s with
  | EmptyString => EmptyString
  | String c s' =>
      match py_lstrip s with
      | EmptyString => EmptyString
      | _ => String c (py_rstrip s')
      end
  end.

(** [s.strip()] *)
Definition py_strip (s : string) : string := py_rstrip (py_lstrip s).

(** [s.split(',')] *)
Fixpoint split_comma (s : string) : list string :=
  match s with
  | EmptyString => [EmptyString]
  | String c s' =>
      if Ascii.eqb c ","%char then EmptyString :: split_comma s'
      else match split_comma s' with
           | p :: ps => String c p :: ps
           | [] => [String c EmptyString]
           end
  end.

(** [l[i]] *)
Definition py_index (l : list string) (i : nat) : result string :=
  match nth_error l i with
  | Some x => Ok x
  | None => Raise (IndexError "list index out of range")
  end.

(** [base64.b64decode], [np.frombuffer] and [cv2.imdecode] in a row: the
    call raises, or gives [None] or an image. *)
Variable decode_image : string -> result (option image).

Definition msg_invalid_photo (i : nat) : string :=
  ("Invalid image format in photo " ++ str_nat (i + 1))%string.

Definition msg_one_face_photo (i : nat) : string :=
  ("Photo " ++ str_nat (i + 1) ++ " must contain exactly one face")%string.

Definition msg_error_photo (i : nat) (e : exn) : string :=
  ("Error processing photo " ++ str_nat (i + 1) ++ ": " ++ str_exn e)%string.

(** The loop of lines 398-419: [inl response] when it returns one. *)
Fixpoint process_images (images_data : list string) (i : nat)
         (processed_images : list image) : response + list image :=
  match images_data with
  | [] => inr processed_images
  | image_data :: rest =>
      match (payload <- py_index (split_comma image_data) 1 ;;
             decode_image payload) with
      | Raise e =>
          inl {| success := false; message := msg_error_photo i e |}
      | Ok None =>
          inl {| success := false; message := msg_invalid_photo i |}
      | Ok (Some img) =>
          if negb (Nat.eqb (length (detect_faces img)) 1) then
            inl {| success := false; message := msg_one_face_photo i |}
          else process_images rest (i + 1) (processed_images ++ [img])
      end
  end.

(** [register_multiple] (app.py 382-427) on a JSON body with the string
    [name_field] under ['name'] and the strings [images_data] under
    ['images']. *)
Definition register_multiple (name_field : string)
           (images_data : list string) (w : world) : response * world :=
  let name := py_strip name_field in
  if String.eqb name "" then
    ({| success := false; message := "Name is required" |}, w)
  else if negb (Nat.eqb (length images_data) 3) then
    ({| success := false; message := msg_three_required |}, w)
  else
    match process_images images_data 0 [] with
    | inl resp => (resp, w)
    | inr processed_images =>
        match register_face processed_images name w with
        | (Ok (ok, msg), w') => ({| success := ok; message := msg |}, w')
        | (Raise e, w') =>
            ({| success := false;
                message := ("Error: " ++ str_exn e)%string |}, w')
        end
    end.

(** [register_face_old] (app.py 225-270): the same code under another
    route. *)
Definition register_face_old (name_field : string)
           (images_data : list string) (w : world) : response * world :=
  register_multiple name_field images_data w.

(** [delete_face] (app.py 434-447) *)
Definition delete_face (name : string) (w : world) : response * world :=
  if dict_contains (known_faces w) name then
    let w1 := {| known_faces := dict_del (known_faces w) name;
                 face_data_file := face_data_file w |} in
    ({| success := true;
        message := ("Face for " ++ name ++ " deleted successfully")%string |},
     save_known_faces w1)
  else ({| success := false; message := "Face not found" |}, w).

(** [list(recognizer.known_faces.keys())] (app.py 222) *)
Definition list_names (w : world) : list string :=
  dict_keys (known_faces w).

End Recognizer.

Arguments face_data F : clear implicits.
Arguments file_state F : clear implicits.
Arguments world F : clear implicits.
Arguments number F : clear implicits.
Arguments face_result F : clear implicits.

(* ================================================================== *)
(** ** Vocabulary of the statements *)
(* ================================================================== *)

Section Vocabulary.
Context {F : Type} `{Scalar F}.
Local Open Scope scalar_scope.

(** The similarity [compare_faces] computes when the lengths agree. *)
Definition cosine (u v : list F) : F :=
  sum_products (of_Z 0) (np_divide u (np_linalg_norm u))
                        (np_divide v (np_linalg_norm v)).

(** Every descriptor of the record has length [L] (section 3 of the
    specification: all descriptors have one length). *)
Definition record_lengths (L : nat) (fd : face_data F) : Prop :=
  length (features fd) = L /\
  forall l, all_features fd = Some l -> Forall (fun d => length d = L) l.

Definition store_lengths (L : nat) (kf : dict (face_data F)) : Prop :=
  Forall (fun kv => record_lengths L (snd kv)) kf.

(** The sample descriptors of a record, none when the key is missing. *)
Definition samples (fd : face_data F) : list (list F) :=
  match all_features fd with
  | Some l => l
  | None => []
  end.

(** [compare_faces] returns a match for the pair at the threshold. *)
Definition similar (feats d : list F) (t : F) : Prop :=
  exists s, compare_faces feats d t = Ok (true, s).

(** The primary descriptor or one of the samples is similar. *)
Definition record_similar (feats : list F) (t : F) (fd : face_data F) : Prop :=
  similar feats (features fd) t \/
  exists d, In d (samples fd) /\ similar feats d t.

(** The same, computed; it agrees with [record_similar] when the lengths
    do (lemma [record_similar_iff]). *)
Definition record_similarb (feats : list F) (t : F) (fd : face_data F) : bool :=
  (cosine feats (features fd) >? t)
  || existsb (fun d => cosine feats d >? t) (samples fd).

(** [y] takes part in the order: whatever lies strictly on both sides of
    an interval is separated by it. Every real number does; a float does
    unless it is nan. *)
Definition comparable (y : F) : Prop :=
  forall x z, ltb x z = true -> ltb x y = true \/ ltb y z = true.

(** No similarity between the query and a descriptor of the store is nan. *)
Definition cosines_comparable (feats : list F) (kf : dict (face_data F)) : Prop :=
  Forall (fun kv =>
            comparable (cosine feats (features (snd kv))) /\
            Forall (fun d => comparable (cosine feats d)) (samples (snd kv)))
         kf.

(** The verdict and similarity of the store's records for a query, as
    [compare_record] returns them. *)
Definition scored (kf : dict (face_data F)) (feats : list F)
           (name : string) (is_match : bool) (similarity : F) : Prop :=
  exists fd, In (name, fd) kf /\
             compare_record feats fd = Ok (is_match, similarity).

(** What C1 says of one reported face: [best] is what the accumulator
    [best_similarity] ends at. *)
Definition reports_best (kf : dict (face_data F)) (feats : list F)
           (r : face_result F) : Prop :=
  exists best : number F,
    r_confidence r = py_round2 (times_100 best) /\
    (* no record scores above it *)
    (forall name m s, scored kf feats name m s -> ltb (to_float best) s = false) /\
    (* it is the score of a record, or the 0 it started at *)
    (best = PyInt 0 \/ exists name m s, scored kf feats name m s /\ best = PyFloat s) /\
    (* with records, and no score below 0, it ties with the score of a
       record: neither is below the other *)
    (kf <> [] ->
     (forall name m s, scored kf feats name m s -> ltb s (of_Z 0) = false) ->
     exists name m s, scored kf feats name m s /\
                      ltb s (to_float best) = false /\
                      ltb (to_float best) s = false) /\
    (* no record matches: Unknown *)
    ((forall name m s, scored kf feats name m s -> m = false) ->
     r_name r = "Unknown") /\
    (* some record matches: the name of a matching record with that score *)
    ((exists name s, scored kf feats name true s) ->
     exists s, scored kf feats (r_name r) true s /\ best = PyFloat s).

(** What the loop of [recognize_face] has established after the records
    [seen]: the invariant of [best_over]. *)
Definition best_so_far (feats : list F) (seen : dict (face_data F))
           (best_match : option string) (best : number F) : Prop :=
  comparable (to_float best) /\
  (forall name m s, scored seen feats name m s -> ltb (to_float best) s = false) /\
  (best = PyInt 0 \/ exists name m s, scored seen feats name m s /\ best = PyFloat s) /\
  (ltb c0_75 (to_float best) = false -> best_match = None) /\
  (ltb c0_75 (to_float best) = true ->
   exists name s, best_match = Some name /\ name <> "" /\
                  scored seen feats name true s /\ best = PyFloat s).

(** What [recognize_face] reports for a face it cannot place. *)
Definition unknown_result (coords : face_coords) : face_result F :=
  {| r_name := "Unknown"; r_confidence := PyInt 0; r_coordinates := coords |}.

(** The record carries its samples, under a non-empty name (section 3). *)
Definition enrolled_shape (kv : string * face_data F) : Prop :=
  fst kv <> "" /\ all_features (snd kv) <> None.

(** An image passes both per-image checks of [register_face]. *)
Definition passes_checks {image : Type}
           (detect_faces : image -> list face_coords)
           (extract_face_features : image -> face_coords -> list F)
           (kf : dict (face_data F)) (img : image) : Prop :=
  exists coords duplicate_name,
    detect_faces img = [coords] /\
    check_face_similarity kf (extract_face_features img coords) c0_85
      = Ok duplicate_name /\
    truthy duplicate_name = false.

End Vocabulary.

(** [<] is a strict order. This holds at both instances, nan included:
    every comparison with nan is false. *)
Class ScalarStrict (F : Type) `{Scalar F} : Prop := {
  ltb_irrefl : forall x : F, ltb x x = false;
  ltb_trans  : forall x y z : F,
      ltb x y = true -> ltb y z = true -> ltb x z = true
}.

(** The thresholds of [recognize_face] are in their decimal order, above 0,
    and 0 takes part in the order. *)
Class ThresholdOrder (F : Type) `{Scalar F} : Prop := {
  zero_lt_c0_75   : ltb (of_Z 0) c0_75 = true;
  c0_6_lt_c0_75   : ltb c0_6 c0_75 = true;
  c0_75_lt_c0_8   : ltb c0_75 c0_8 = true;
  zero_comparable : comparable (of_Z 0)
}.

(* ================================================================== *)
(** ** A stand-in for OpenCV *)
(* ================================================================== *)

(** For the executable examples an image is what the detector and the
    extractor make of it: its face rectangles, each with its descriptor. *)
Module TestImage.
Section TestImage.
Context {F : Type}.

Definition image : Type := list (face_coords * list F).

Definition coords_eqb (a b : face_coords) : bool :=
  let '(x1, y1, w1, h1) := a in
  let '(x2, y2, w2, h2) := b in
  (Z.eqb x1 x2 && Z.eqb y1 y2 && Z.eqb w1 w2 && Z.eqb h1 h2)%bool.

Definition detect_faces (img : image) : list face_coords := map fst img.

Definition extract_face_features (img : image) (c : face_coords) : list F :=
  match find (fun p => coords_eqb (fst p) c) img with
  | Some p => snd p
  | None => []
  end.

(** One face at the origin with the given descriptor. *)
Definition one_face (d : list F) : image := [((0, 0, 100, 100)%Z, d)].

(** The decoder of the examples: the payload names the image. *)
Definition decode_image (imgs : list (string * image)) (payload : string)
  : result (option image) :=
  match find (fun p => String.eqb (fst p) payload) imgs with
  | Some p => Ok (Some (snd p))
  | None => Ok None
  end.

End TestImage.
End TestImage.

(* ================================================================== *)
(** ** The specification's reading of the refinement *)
(* ================================================================== *)

(** These two definitions follow the words of the specification (4.5,
    steps 2 to 4), not the source: one pass over the primary descriptors
    alone; then, only when the best similarity of that pass is below 0.8,
    the samples of that one best record are compared. They are there to
    be set beside [recognize_one]. *)
Section SpecReading.
Context {F : Type} `{Scalar F}.
Local Open Scope scalar_scope.

(** Step 2: the best matching [(name, similarity)] and, independently, the
    record of best similarity. *)
Fixpoint spec_primary_pass (kf : dict (face_data F)) (feats : list F)
         (best_matched : option (string * F))
         (best_raw : option (string * face_data F * F))
  : result (option (string * F) * option (string * face_data F * F)) :=
  match kf with
  | [] => Ok (best_matched, best_raw)
  | (name, fd) :: rest =>
      '(is_match, similarity) <- compare_faces feats (features fd) c0_6 ;;
      let best_matched' :=
        if (is_match : bool) then
          match best_matched with
          | Some (_, s) =>
              if similarity >? s then Some (name, similarity) else best_matched
          | None => Some (name, similarity)
          end
        else best_matched in
      let best_raw' :=
        match best_raw with
        | Some (_, _, s) =>
            if similarity >? s then Some (name, fd, similarity) else best_raw
        | None => Some (name, fd, similarity)
        end in
      spec_primary_pass rest feats best_matched' best_raw'
  end.

(** Step 3: the maximum over the samples of one record. *)
Fixpoint spec_sample_max (feats : list F) (individual : list (list F))
         (best : option F) : result (option F) :=
  match individual with
  | [] => Ok best
  | d :: rest =>
      '(_, s) <- compare_faces feats d c0_6 ;;
      spec_sample_max feats rest
        (match best with
         | Some b => Some (if s >? b then s else b)
         | None => Some s
         end)
  end.

(** Steps 3 and 4 for one face: name and confidence. *)
Definition spec_recognize_one (kf : dict (face_data F)) (feats : list F)
  : result (string * number F) :=
  '(best_matched, best_raw) <- spec_primary_pass kf feats None None ;;
  match best_raw with
  | None => Ok ("Unknown", PyInt 0)
  | Some (name, fd, s) =>
      if s <? c0_8 then
        refined <- spec_sample_max feats (samples fd) None ;;
        let s' := match refined with Some x => x | None => s end in
        Ok (if s' >? c0_75 then name else "Unknown",
            py_round2 (times_100 (PyFloat s')))
      else
        Ok (match best_matched with Some (n, _) => n | None => "Unknown" end,
            py_round2 (times_100 (PyFloat s)))
  end.

End SpecReading.

(* ================================================================== *)
(** ** Small stores and images for the examples *)
(* ================================================================== *)

(** Descriptors of length 2 keep the examples readable; with two products
    the order of summation does not matter either. *)
Module Demo.

(** A name as a form may send it, padded with white space of one, two and
    three bytes: a space, U+00A0, [zoe], U+2003, a space. *)
Definition padded_zoe : string :=
  String " " (String (ascii_of_nat 194) (String (ascii_of_nat 160)
    (String "z" (String "o" (String "e"
       (String (ascii_of_nat 226) (String (ascii_of_nat 128)
          (String (ascii_of_nat 131) (String " " EmptyString))))))))).

Section Demo.
Context {F : Type} `{Scalar F}.

Definition vec (x y : Z) : list F := [of_Z x; of_Z y].

Definition clock : string := "2024-06-01T08:30:00".

Definition record (primary : list F) (individual : list (list F))
  : face_data F :=
  {| features := primary;
     all_features := Some individual;
     registered_at := clock;
     image_count := 3 |}.

(** A record written before the samples were kept. *)
Definition legacy_record (primary : list F) : face_data F :=
  {| features := primary;
     all_features := None;
     registered_at := "2023-01-01T09:00:00";
     image_count := 1 |}.

Definition bob : face_data F :=
  record (vec 3 4) [vec 3 4; vec 3 4; vec 3 4].

Definition ann : face_data F :=
  record (vec 1 0) [vec 1 0; vec 1 0; vec 1 0].

Definition store_bob : dict (face_data F) := [("bob", bob)].

Definition store_ann_bob : dict (face_data F) := [("ann", ann); ("bob", bob)].

(** Two people as [register_face] stores them: carol from three equal
    samples, dave from one sample in one pose and two in another, his
    primary descriptor being their mean. *)
Definition carol : face_data F :=
  record (vec 2 3) [vec 2 3; vec 2 3; vec 2 3].

Definition dave : face_data F :=
  record [div (of_Z 20) (of_Z 3); div (of_Z 10) (of_Z 3)]
         [vec 0 10; vec 10 0; vec 10 0].

Definition store_carol_dave : dict (face_data F) :=
  [("carol", carol); ("dave", dave)].

Definition world_of (kf : dict (face_data F)) : world F :=
  {| known_faces := kf; face_data_file := FileJson kf |}.

Definition face (x y : Z) : TestImage.image (F := F) :=
  TestImage.one_face (vec x y).

Definition no_face : TestImage.image (F := F) := [].

Definition two_faces : TestImage.image (F := F) :=
  [((0, 0, 100, 100)%Z, vec 0 1); ((200, 0, 100, 100)%Z, vec 1 0)].

End Demo.
End Demo.

(* ================================================================== *)
(** ** The routes that only read the store *)
(* ================================================================== *)

Section ReadingRoutes.
Context {F : Type} `{Scalar F} {image : Type}.
Variable detect_faces : image -> list face_coords.
Variable extract_face_features : image -> face_coords -> list F.
Variable decode_image : string -> result (option image).

(** The literal [0.80] of the live preview (app.py 306). *)
Definition c0_80 : F := lit 80 100.

(** One entry of ['faces'] in the answer of [/detect_faces]. *)
Record preview_face : Type := {
  p_coordinates    : face_coords;
  p_is_duplicate   : bool;
  p_duplicate_name : option string
}.

(** [jsonify] of [/detect_faces]: the early exits leave
    ['duplicate_detected'] out. *)
Record preview_response : Type := {
  pv_success            : bool;
  pv_message            : string;
  pv_faces              : list preview_face;
  pv_duplicate_detected : option bool
}.

(** [", ".join(names)] *)
Fixpoint join_comma (names : list string) : string :=
  match names with
  | [] => ""
  | [n] => n
  | n :: rest => (n ++ ", " ++ join_comma rest)%string
  end.

(** Lines 296-314: the loop over the detected faces. *)
Fixpoint preview_faces (kf : dict (face_data F)) (img : image)
         (faces : list face_coords) : result (list preview_face) :=
  match faces with
  | [] => Ok []
  | coords :: rest =>
      let feats := extract_face_features img coords in
      duplicate_name <- check_face_similarity kf feats c0_80 ;;
      face_results <- preview_faces kf img rest ;;
      Ok ({| p_coordinates := coords;
             p_is_duplicate :=
               match duplicate_name with Some _ => true | None => false end;
             p_duplicate_name := duplicate_name |} :: face_results)
  end.

Definition msg_already_registered_as (duplicate_names : list string) : string :=
  ("This face is already registered as: " ++ join_comma duplicate_names)%string.

Definition msg_detected (n : nat) : string :=
  ("Detected " ++ str_nat n ++ " face(s) - ready for registration")%string.

(** The names of the entries flagged as duplicates (line 320). *)
Definition duplicate_names_of (face_results : list preview_face) : list string :=
  map (fun f => match p_duplicate_name f with Some n => n | None => "" end)
      (filter p_is_duplicate face_results).

(** [detect_faces_endpoint] (app.py 272-336) on a JSON body whose ['image']
    is [image_field] ([None] when the key is missing). *)
Definition detect_faces_endpoint (image_field : option string) (w : world F)
  : preview_response :=
  let failure (msg : string) :=
    {| pv_success := false; pv_message := msg; pv_faces := [];
       pv_duplicate_detected := None |} in
  match image_field with
  | None | Some EmptyString => failure "No image data provided"
  | Some image_data =>
      match (payload <- py_index (split_comma image_data) 1 ;;
             decode_image payload) with
      | Raise e => failure ("Error: " ++ str_exn e)%string
      | Ok None => failure "Invalid image format"
      | Ok (Some img) =>
          let faces := detect_faces img in
          match preview_faces (known_faces w) img faces with
          | Raise e => failure ("Error: " ++ str_exn e)%string
          | Ok face_results =>
              if existsb p_is_duplicate face_results then
                {| pv_success := false;
                   pv_message :=
                     msg_already_registered_as (duplicate_names_of face_results);
                   pv_faces := face_results;
                   pv_duplicate_detected := Some true |}
              else
                {| pv_success := true;
                   pv_message := msg_detected (length faces);
                   pv_faces := face_results;
                   pv_duplicate_detected := Some false |}
          end
      end
  end.

(** [jsonify] of [/recognize]. *)
Record recognize_response : Type := {
  rc_success : bool;
  rc_message : string;
  rc_faces   : list (face_result F)
}.

(** The route [recognize_face] (app.py 338-374); the method of the same
    name is [recognize_face] above. *)
Definition recognize_face_route (image_field : option string) (w : world F)
  : recognize_response :=
  let failure (msg : string) :=
    {| rc_success := false; rc_message := msg; rc_faces := [] |} in
  match image_field with
  | None | Some EmptyString => failure "No image data provided"
  | Some image_data =>
      match (payload <- py_index (split_comma image_data) 1 ;;
             decode_image payload) with
      | Raise e => failure ("Error: " ++ str_exn e)%string
      | Ok None => failure "Invalid image format"
      | Ok (Some img) =>
          match recognize_face detect_faces extract_face_features
                               (known_faces w) img with
          | Raise e => failure ("Error: " ++ str_exn e)%string
          | Ok (results, msg) =>
              {| rc_success := true; rc_message := msg; rc_faces := results |}
          end
      end
  end.

End ReadingRoutes.

Arguments preview_face : clear implicits.
Arguments preview_response : clear implicits.
Arguments recognize_response F : clear implicits.

(* ================================================================== *)
(** ** Vocabulary of the further statements *)
(* ================================================================== *)

Section MoreVocabulary.
Context {F : Type} `{Scalar F}.

(** A process started now would load the mapping this one holds. *)
Definition persisted (w : world F) : Prop :=
  load_known_faces (face_data_file w) = known_faces w.

(** The record [register_face] writes for three descriptors. *)
Definition enrolled_record (now_isoformat : string) (avg : list F)
           (d1 d2 d3 : list F) : face_data F :=
  {| features := avg;
     all_features := Some [d1; d2; d3];
     registered_at := now_isoformat;
     image_count := 3 |}.

(** The image shows exactly one face, with descriptor [d]. *)
Definition shows {image : Type}
           (detect_faces : image -> list face_coords)
           (extract_face_features : image -> face_coords -> list F)
           (img : image) (d : list F) : Prop :=
  exists coords, detect_faces img = [coords] /\
                 extract_face_features img coords = d.

(** The Duplicate Guard at 0.85 finds nothing it would act on. *)
Definition no_duplicate (kf : dict (face_data F)) (d : list F) : Prop :=
  exists duplicate_name,
    check_face_similarity kf d c0_85 = Ok duplicate_name /\
    truthy duplicate_name = false.

(** The position of a record in the store, with what comes before and
    after it. *)
Definition at_position (kf pre : dict (face_data F)) (name : string)
           (fd : face_data F) (post : dict (face_data F)) : Prop :=
  kf = pre ++ (name, fd) :: post.

(** The request entry decodes to the image, which shows exactly one
    face: the photo passes the loop of [register_multiple]. *)
Definition photo_ok {image : Type}
           (detect_faces : image -> list face_coords)
           (decode_image : string -> result (option image))
           (image_data : string) (img : image) : Prop :=
  exists payload,
    py_index (split_comma image_data) 1 = Ok payload /\
    decode_image payload = Ok (Some img) /\
    length (detect_faces img) = 1.

(** [',' in s] *)
Fixpoint has_comma (s : string) : bool :=
  match s with
  | EmptyString => false
  | String c s' => Ascii.eqb c ","%char || has_comma s'
  end.

(** The invariant of [best_over] that keeps track of where the reported
    record stands: every record before it scores strictly below it, none
    after it scores above. *)
Definition first_best (feats : list F) (seen : dict (face_data F))
           (best_match : option string) (best : number F) : Prop :=
  comparable (to_float best) /\
  (forall name m s, scored seen feats name m s ->
                    comparable s /\ ltb (to_float best) s = false) /\
  (ltb c0_75 (to_float best) = false -> best_match = None) /\
  (ltb c0_75 (to_float best) = true ->
   exists pre name fd post s,
     seen = pre ++ (name, fd) :: post /\
     best_match = Some name /\
     compare_record feats fd = Ok (true, s) /\
     best = PyFloat s /\
     (forall n' m' s', scored pre feats n' m' s' -> ltb s' s = true) /\
     (forall n' m' s', scored post feats n' m' s' -> ltb s s' = false)).

End MoreVocabulary.

(** Multiplication commutes, as it does at both instances. *)
Class ScalarCommutative (F : Type) `{Scalar F} : Prop := {
  mul_comm : forall x y : F, mul x y = mul y x
}.

(** The preview's threshold lies below the one of enrolment. *)
Class PreviewOrder (F : Type) `{Scalar F} : Prop := {
  c0_80_lt_c0_85 : ltb c0_80 c0_85 = true
}.

(* ================================================================== *)
(** ** The descriptors of two pixel intensities at float64 *)
(* ================================================================== *)





(* ================================================================== *)
(** ** The Similarity Scorer *)
(* ================================================================== *)

Section ScorerFacts.
Context {F : Type} `{Scalar F}.

Lemma np_divide_length (v : list F) (s : F) :
  length (np_divide v s) = length v.
Proof. unfold np_divide. apply length_map. Qed.

(** With equal lengths the scorer returns, and what it returns is the
    cosine and its comparison with the threshold. *)
Lemma compare_faces_ok (u v : list F) (t : F) :
  length u = length v ->
  compare_faces u v t = Ok (ltb t (cosine u v), cosine u v).
Proof.
  intros Hlen. unfold compare_faces, np_dot.
  rewrite !np_divide_length, Hlen, Nat.eqb_refl. reflexivity.
Qed.

(** With different lengths [np.dot] raises, and so does the scorer. *)
Lemma compare_faces_raise (u v : list F) (t : F) :
  length u <> length v ->
  compare_faces u v t = Raise (shapes_not_aligned (length u) (length v)).
Proof.
  intros Hlen. unfold compare_faces, np_dot.
  rewrite !np_divide_length.
  destruct (Nat.eqb_spec (length u) (length v)); [contradiction | reflexivity].
Qed.

Lemma similar_iff (u v : list F) (t : F) :
  length u = length v ->
  (similar u v t <-> ltb t (cosine u v) = true).
Proof.
  intros Hlen. unfold similar. rewrite (compare_faces_ok u v t Hlen). split.
  - intros [s Hs]. congruence.
  - intros Hlt. exists (cosine u v). rewrite Hlt. reflexivity.
Qed.

End ScorerFacts.

(** The literals of the source, read at [float64], are the doubles Python
    parses them to. *)
Lemma float64_literals :
  (@c0_6 float _, @c0_75 float _, @c0_8 float _, @c0_85 float _)
  = (0x1.3333333333333p-1, 0.75, 0x1.999999999999ap-1, 0x1.b333333333333p-1)%float.
Proof. vm_compute. reflexivity. Qed.

(* ------------------------------------------------------------------ *)
(** *** nan at [float64] *)

Module Float64Facts.

Lemma mul_nan_l (y : float) : PrimFloat.mul nan y = nan.
Proof.
  apply Prim2SF_inj. rewrite mul_spec.
  change (Prim2SF nan) with S754_nan. reflexivity.
Qed.

Lemma mul_nan_r (x : float) : PrimFloat.mul x nan = nan.
Proof.
  apply Prim2SF_inj. rewrite mul_spec.
  change (Prim2SF nan) with S754_nan.
  destruct (Prim2SF x); reflexivity.
Qed.

Lemma add_nan_r (x : float) : PrimFloat.add x nan = nan.
Proof.
  apply Prim2SF_inj. rewrite add_spec.
  change (Prim2SF nan) with S754_nan.
  destruct (Prim2SF x); reflexivity.
Qed.

Lemma ltb_nan_r (t : float) : PrimFloat.ltb t nan = false.
Proof.
  rewrite ltb_spec. change (Prim2SF nan) with S754_nan.
  destruct (Prim2SF t) as [ [|] | [|] | | [|] m e ]; reflexivity.
Qed.

(** Once a product with nan enters the sum, the sum is nan. *)
Lemma sum_products_nan (v : list float) :
  forall (n : nat) (acc : float),
    length v = S n ->
    sum_products acc (repeat nan (S n)) v = nan.
Proof.
  induction v as [|y v IH]; intros n acc Hlen; [discriminate|].
  destruct n as [|n]; simpl in *.
  - destruct v; [|discriminate]. simpl.
    rewrite mul_nan_l. apply add_nan_r.
  - apply IH. congruence.
Qed.

Lemma sum_products_nan_r (v : list float) :
  forall (n : nat) (acc : float),
    length v = S n ->
    sum_products acc v (repeat nan (S n)) = nan.
Proof.
  induction v as [|y v IH]; intros n acc Hlen; [discriminate|].
  destruct n as [|n]; simpl in *.
  - destruct v; [|discriminate]. simpl.
    rewrite mul_nan_r. apply add_nan_r.
  - apply IH. congruence.
Qed.

(** The zero vector has norm 0, and dividing it by its norm gives nan
    in every entry. *)
Lemma normalise_zero (n : nat) :
  np_divide (repeat (of_Z 0) n) (np_linalg_norm (repeat (of_Z 0) n))
  = repeat nan n.
Proof.
  assert (Hsum : forall k, sum_products (of_Z 0) (repeat (of_Z 0) k)
                                       (repeat (of_Z 0) k) = PrimFloat.zero).
  { induction k as [|k IH]; [reflexivity|]. simpl. exact IH. }
  unfold np_linalg_norm. rewrite Hsum.
  induction n as [|n IH]; [reflexivity|].
  simpl. f_equal. exact IH.
Qed.

End Float64Facts.

(** C6, as the claim states it, fails: the scorer at [float64] returns
    normally on the all-zero descriptor, with a nan similarity. *)
Lemma compare_faces_zero_vector_returns :
  compare_faces (F := float) [of_Z 0; of_Z 0] [of_Z 3; of_Z 4] c0_6
  = Ok (false, nan)
  /\ ~ (exists e, compare_faces (F := float) [of_Z 0; of_Z 0] [of_Z 3; of_Z 4] c0_6
                  = Raise e).
Proof.
  split.
  - vm_compute. reflexivity.
  - intros [e He]. vm_compute in He. discriminate.
Qed.

(** C6 (amended): at [float64], for every threshold and every descriptor
    [b] of the same positive length as the zero vector, [compare_faces]
    with the zero vector on either side raises nothing: it returns no match
    and the similarity nan. (With a [b] of another length it is [np.dot]
    that raises.) *)
Theorem compare_faces_zero_vector_nan (n : nat) (b : list float) (t : float) :
  length b = S n ->
  compare_faces (repeat (of_Z 0) (S n)) b t = Ok (false, nan) /\
  compare_faces b (repeat (of_Z 0) (S n)) t = Ok (false, nan).
Proof.
  intros Hlen. split.
  - rewrite compare_faces_ok by (rewrite repeat_length; congruence).
    unfold cosine. rewrite Float64Facts.normalise_zero.
    rewrite (@Float64Facts.sum_products_nan _ n)
      by (rewrite np_divide_length; exact Hlen).
    simpl. rewrite Float64Facts.ltb_nan_r. reflexivity.
  - rewrite compare_faces_ok by (rewrite repeat_length; congruence).
    unfold cosine. rewrite Float64Facts.normalise_zero.
    rewrite (@Float64Facts.sum_products_nan_r _ n)
      by (rewrite np_divide_length; exact Hlen).
    simpl. rewrite Float64Facts.ltb_nan_r. reflexivity.
Qed.

Lemma compare_faces_zero_vector_nan_witness :
  length [PrimFloat.of_uint63 3; PrimFloat.of_uint63 4] = 2%nat /\
  compare_faces (repeat (of_Z 0) 2)
                [PrimFloat.of_uint63 3; PrimFloat.of_uint63 4] c0_85
  = Ok (false, nan).
Proof.
  split; [reflexivity|].
  apply (proj1 (@compare_faces_zero_vector_nan
                  1 [PrimFloat.of_uint63 3; PrimFloat.of_uint63 4] c0_85
                  eq_refl)).
Defined.

(* ------------------------------------------------------------------ *)
(** *** The order of the real numbers *)

Module ExactFacts.
Local Open Scope R_scope.

Lemma ltb_true (x y : R) : Exact.ltb x y = true <-> x < y.
Proof. unfold Exact.ltb. destruct (Rlt_dec x y); split; intros; easy. Qed.

Lemma ltb_false (x y : R) : Exact.ltb x y = false <-> y <= x.
Proof.
  unfold Exact.ltb. destruct (Rlt_dec x y); split; intros; try easy; lra.
Qed.

End ExactFacts.

(* ================================================================== *)
(** ** The Duplicate Guard *)
(* ================================================================== *)

Section GuardFacts.
Context {F : Type} `{Scalar F}.
Variable feats : list F.
Variable t : F.

Local Abbreviation L := (length feats).

(** The inner loop returns, and finds a sample exactly when one is similar. *)
Lemma check_individual_ok (l : list (list F)) :
  Forall (fun d => length d = L) l ->
  check_individual feats l t = Ok (existsb (fun d => ltb t (cosine feats d)) l).
Proof.
  induction 1 as [|d l Hd _ IH]; [reflexivity|].
  simpl. rewrite (compare_faces_ok feats d t (eq_sym Hd)). simpl.
  destruct (ltb t (cosine feats d)); [reflexivity | exact IH].
Qed.

(** One turn of the outer loop. *)
Lemma check_face_similarity_cons (name : string) (fd : face_data F)
      (rest : dict (face_data F)) :
  record_lengths L fd ->
  check_face_similarity ((name, fd) :: rest) feats t
  = if record_similarb feats t fd then Ok (Some name)
    else check_face_similarity rest feats t.
Proof.
  intros [Hprim Hsamp]. unfold record_similarb, samples. simpl.
  rewrite (compare_faces_ok feats (features fd) t (eq_sym Hprim)). simpl.
  destruct (ltb t (cosine feats (features fd))); [reflexivity|].
  destruct (all_features fd) as [l|] eqn:Hall; [|reflexivity].
  rewrite (check_individual_ok l (Hsamp l eq_refl)). simpl.
  destruct (existsb _ l); reflexivity.
Qed.

Lemma record_similar_iff (fd : face_data F) :
  record_lengths L fd ->
  (record_similar feats t fd <-> record_similarb feats t fd = true).
Proof.
  intros [Hprim Hsamp]. unfold record_similar, record_similarb.
  rewrite orb_true_iff, existsb_exists.
  rewrite (similar_iff feats (features fd) t (eq_sym Hprim)).
  assert (Hlen : forall d, In d (samples fd) -> length feats = length d).
  { intros d Hd. unfold samples in Hd.
    destruct (all_features fd) as [l|]; [|contradiction].
    symmetry. exact (proj1 (Forall_forall _ l) (Hsamp l eq_refl) d Hd). }
  split; (intros [Hp | [d [Hd Hs]]]; [left; exact Hp | right; exists d; split; [exact Hd|]]).
  - apply (similar_iff feats d t (Hlen d Hd)). exact Hs.
  - apply (similar_iff feats d t (Hlen d Hd)). exact Hs.
Qed.

Lemma record_not_similar_iff (fd : face_data F) :
  record_lengths L fd ->
  (~ record_similar feats t fd <-> record_similarb feats t fd = false).
Proof.
  intros Hlen. rewrite (record_similar_iff fd Hlen).
  destruct (record_similarb feats t fd); split; congruence.
Qed.

(** The guard stops at the first similar record: what follows it in the
    store is not looked at (it may even hold descriptors of another
    length, on which the scorer would raise). *)
Lemma check_face_similarity_stops (pre : dict (face_data F)) :
  forall (name : string) (fd : face_data F) (post : dict (face_data F)),
    store_lengths L pre ->
    record_lengths L fd ->
    Forall (fun kv => ~ record_similar feats t (snd kv)) pre ->
    record_similar feats t fd ->
    check_face_similarity (pre ++ (name, fd) :: post) feats t = Ok (Some name).
Proof.
  induction pre as [|[n0 fd0] pre IH]; intros name fd post Hpre Hfd Hnone Hsim.
  - simpl app. rewrite (check_face_similarity_cons name fd post Hfd).
    rewrite (proj1 (record_similar_iff fd Hfd) Hsim). reflexivity.
  - inversion Hpre as [|? ? Hfd0 Hpre']; subst.
    inversion Hnone as [|? ? Hn0 Hnone']; subst.
    simpl app. rewrite (check_face_similarity_cons n0 fd0 _ Hfd0).
    rewrite (proj1 (record_not_similar_iff fd0 Hfd0) Hn0).
    apply IH; assumption.
Qed.

(** Whatever the guard returns on a store of one descriptor length, it
    returns for this reason. *)
Lemma check_face_similarity_inv (kf : dict (face_data F)) :
  store_lengths L kf ->
  (check_face_similarity kf feats t = Ok None /\
   Forall (fun kv => ~ record_similar feats t (snd kv)) kf)
  \/
  (exists pre name fd post,
      kf = pre ++ (name, fd) :: post /\
      Forall (fun kv => ~ record_similar feats t (snd kv)) pre /\
      record_similar feats t fd /\
      check_face_similarity kf feats t = Ok (Some name)).
Proof.
  induction 1 as [|[n0 fd0] kf Hfd0 Hkf IH].
  - left. split; [reflexivity | constructor].
  - simpl in Hfd0. rewrite (check_face_similarity_cons n0 fd0 kf Hfd0).
    destruct (record_similarb feats t fd0) eqn:Hb.
    + right. exists [], n0, fd0, kf. repeat split.
      * constructor.
      * apply (record_similar_iff fd0 Hfd0). exact Hb.
    + apply (record_not_similar_iff fd0 Hfd0) in Hb.
      destruct IH as [[Hnone Hall] | [pre [name [fd [post [Heq [Hpre [Hsim Hres]]]]]]]].
      * left. split; [exact Hnone | constructor; assumption].
      * right. exists ((n0, fd0) :: pre), name, fd, post. subst kf.
        repeat split; try assumption. constructor; assumption.
Qed.

End GuardFacts.

(** C5: on a store whose descriptors have the length of the query, the
    Duplicate Guard returns the name of the first record, in iteration
    order, whose primary descriptor or one of whose sample descriptors is
    similar to the query at the threshold; it stops there (the records after
    it play no part); it returns [None] exactly when no record is similar;
    and a returned name is a key of the store. *)
Theorem check_face_similarity_first_match
        {F : Type} `{Scalar F} (feats : list F) (t : F) :
  (forall pre name fd post,
      store_lengths (length feats) pre ->
      record_lengths (length feats) fd ->
      Forall (fun kv => ~ record_similar feats t (snd kv)) pre ->
      record_similar feats t fd ->
      check_face_similarity (pre ++ (name, fd) :: post) feats t
      = Ok (Some name)) /\
  (forall kf,
      store_lengths (length feats) kf ->
      (exists r, check_face_similarity kf feats t = Ok r) /\
      (check_face_similarity kf feats t = Ok None <->
       Forall (fun kv => ~ record_similar feats t (snd kv)) kf) /\
      (forall name,
          check_face_similarity kf feats t = Ok (Some name) ->
          In name (dict_keys kf) /\
          exists pre fd post,
            kf = pre ++ (name, fd) :: post /\
            Forall (fun kv => ~ record_similar feats t (snd kv)) pre /\
            record_similar feats t fd)).
Proof.
  split.
  - intros pre name fd post. apply check_face_similarity_stops.
  - intros kf Hkf.
    destruct (check_face_similarity_inv feats t kf Hkf)
      as [[Hnone Hall] | [pre [name [fd [post [Heq [Hpre [Hsim Hres]]]]]]]].
    + split; [eexists; exact Hnone|]. split.
      * split; intros _; assumption.
      * intros name Hsome. congruence.
    + split; [eexists; exact Hres|]. split.
      * split.
        -- intros Hnone. congruence.
        -- intros Hall. exfalso. subst kf.
           apply Forall_app in Hall. destruct Hall as [_ Hall].
           inversion Hall as [|? ? Hn _]; subst. exact (Hn Hsim).
      * intros name' Hsome. assert (name' = name) by congruence. subst name'.
        split.
        -- subst kf. unfold dict_keys. rewrite map_app. apply in_or_app.
           right. left. reflexivity.
        -- exists pre, fd, post. repeat split; assumption.
Qed.

Lemma check_face_similarity_first_match_witness :
  check_face_similarity (F := float)
    ([("ann", Demo.ann)] ++ ("bob", Demo.bob) :: [("eve", Demo.legacy_record [of_Z 1])])
    (Demo.vec 3 4) c0_85
  = Ok (Some "bob").
Proof.
  apply (proj1 (check_face_similarity_first_match (Demo.vec 3 4) c0_85)).
  - repeat constructor. intros l Hl. injection Hl as <-. repeat constructor.
  - split; [reflexivity|]. intros l Hl. injection Hl as <-. repeat constructor.
  - constructor; [|constructor].
    apply record_not_similar_iff; [|vm_compute; reflexivity].
    split; [reflexivity|]. intros l Hl. injection Hl as <-. repeat constructor.
  - left. exists (Float64.of_Z 1). vm_compute. reflexivity.
Defined.

(* ================================================================== *)
(** ** Python dictionaries: membership, deletion *)
(* ================================================================== *)

Section DictFacts.
Variable V : Type.

Lemma dict_contains_In (d : dict V) (k : string) :
  dict_contains d k = true <-> In k (dict_keys d).
Proof.
  unfold dict_contains, dict_keys. rewrite existsb_exists, in_map_iff.
  split; intros [kv [H1 H2]]; exists kv.
  - apply String.eqb_eq in H2. split; assumption.
  - subst k. split; [exact H2 | apply String.eqb_refl].
Qed.

Lemma dict_contains_not_In (d : dict V) (k : string) :
  dict_contains d k = false <-> ~ In k (dict_keys d).
Proof.
  rewrite <- dict_contains_In. destruct (dict_contains d k); split; congruence.
Qed.

Lemma dict_del_In (d : dict V) (k : string) (kv : string * V) :
  In kv (dict_del d k) <-> In kv d /\ fst kv <> k.
Proof.
  unfold dict_del. rewrite filter_In, negb_true_iff.
  split; intros [H1 H2]; (split; [exact H1|]).
  - intros Heq. rewrite Heq, String.eqb_refl in H2. discriminate.
  - apply String.eqb_neq. exact H2.
Qed.

Lemma dict_del_keys (d : dict V) (k : string) :
  ~ In k (dict_keys (dict_del d k)).
Proof.
  unfold dict_keys. rewrite in_map_iff. intros [kv [Hk Hin]].
  apply dict_del_In in Hin. destruct Hin as [_ Hne]. exact (Hne Hk).
Qed.

End DictFacts.

(* ================================================================== *)
(** ** Deletion *)
(* ================================================================== *)

(** C8: deleting an enrolled name answers success, removes exactly the
    records under that name from the mapping (so from the list of names),
    and rewrites the file so that a process started on it holds the new
    mapping, without the name; deleting a name that is not enrolled answers
    'Face not found' and leaves mapping and file as they were. *)
Theorem delete_face_spec {F : Type} (name : string) (w : world F) :
  (In name (list_names w) ->
   success (fst (delete_face name w)) = true /\
   ~ In name (list_names (snd (delete_face name w))) /\
   (forall kv, In kv (known_faces (snd (delete_face name w)))
               <-> In kv (known_faces w) /\ fst kv <> name) /\
   known_faces (startup (face_data_file (snd (delete_face name w))))
   = known_faces (snd (delete_face name w)) /\
   ~ In name (list_names (startup (face_data_file (snd (delete_face name w))))))
  /\
  (~ In name (list_names w) ->
   delete_face name w = ({| success := false; message := "Face not found" |}, w)).
Proof.
  unfold list_names, delete_face. split.
  - intros Hin. apply dict_contains_In in Hin. rewrite Hin. simpl.
    split; [reflexivity|]. split; [apply dict_del_keys|].
    split; [intros kv; apply dict_del_In|].
    split; [reflexivity | apply dict_del_keys].
  - intros Hnot. apply dict_contains_not_In in Hnot. rewrite Hnot. reflexivity.
Qed.

Lemma delete_face_spec_witness :
  In "bob" (list_names (Demo.world_of (F := float) Demo.store_ann_bob)) /\
  list_names (snd (delete_face "bob" (Demo.world_of (F := float) Demo.store_ann_bob)))
  = ["ann"] /\
  ~ In "bob" (list_names (snd (delete_face "bob"
                                 (Demo.world_of (F := float) Demo.store_ann_bob)))).
Proof.
  assert (Hin : In "bob" (list_names (Demo.world_of (F := float) Demo.store_ann_bob))).
  { right. left. reflexivity. }
  split; [exact Hin|]. split; [reflexivity|].
  exact (proj1 (proj2 (proj1 (delete_face_spec "bob" _) Hin))).
Defined.

(* ================================================================== *)
(** ** Recognition on an empty store *)
(* ================================================================== *)

Section RecognizeEmpty.
Context {F : Type} `{Scalar F}.
Context {image : Type}.
Variable detect_faces : image -> list face_coords.
Variable extract_face_features : image -> face_coords -> list F.

Lemma recognize_all_empty_store (img : image) (faces : list face_coords) :
  recognize_all extract_face_features [] img faces
  = Ok (map unknown_result faces).
Proof.
  induction faces as [|c faces IH]; [reflexivity|].
  simpl. rewrite IH. reflexivity.
Qed.

End RecognizeEmpty.

(** C10: with no enrolled record, an image in which the detector finds at
    least one face gets one result per face, in the detector's order, each
    with the name 'Unknown' and the confidence 0 (the Python int the
    accumulator starts at, which is the number 0.0). *)
Theorem recognize_face_empty_store
        {F : Type} `{Scalar F} {image : Type}
        (detect_faces : image -> list face_coords)
        (extract_face_features : image -> face_coords -> list F)
        (img : image) :
  detect_faces img <> [] ->
  recognize_face detect_faces extract_face_features [] img
  = Ok (map unknown_result (detect_faces img), "Recognition completed")
  /\ to_float (r_confidence (unknown_result (F := F) (0, 0, 0, 0)%Z)) = of_Z 0.
Proof.
  intros Hfaces. split; [|reflexivity].
  unfold recognize_face.
  destruct (detect_faces img) as [|c faces] eqn:Hd; [contradiction|].
  cbn [length Nat.eqb].
  rewrite recognize_all_empty_store. reflexivity.
Qed.

Lemma recognize_face_empty_store_witness :
  TestImage.detect_faces (Demo.two_faces (F := float)) <> [] /\
  recognize_face TestImage.detect_faces TestImage.extract_face_features
                 [] (Demo.two_faces (F := float))
  = Ok ([unknown_result (0, 0, 100, 100)%Z; unknown_result (200, 0, 100, 100)%Z],
        "Recognition completed").
Proof.
  assert (Hne : TestImage.detect_faces (Demo.two_faces (F := float)) <> [])
    by discriminate.
  split; [exact Hne|].
  exact (proj1 (recognize_face_empty_store TestImage.detect_faces
                  TestImage.extract_face_features Demo.two_faces Hne)).
Defined.

(* ================================================================== *)
(** ** Enrolment *)
(* ================================================================== *)

Section EnrolFacts.
Context {F : Type} `{Scalar F} {image : Type}.
Variable detect_faces : image -> list face_coords.
Variable extract_face_features : image -> face_coords -> list F.
Variable now_isoformat : string.
Variable decode_image : string -> result (option image).

Local Abbreviation register_face' :=
  (register_face detect_faces extract_face_features now_isoformat).
Local Abbreviation register_multiple' :=
  (register_multiple detect_faces extract_face_features now_isoformat
                     decode_image).

(** Every exit of the method but the last one hands the world back
    untouched. *)
Lemma register_face_unchanged (images : list image) (name : string)
      (w : world F) :
  (forall msg, fst (register_face' images name w) <> Ok (true, msg)) ->
  snd (register_face' images name w) = w.
Proof.
  unfold register_face. intros Hfail.
  destruct (negb (Nat.eqb (length images) 3)); [reflexivity|].
  destruct (dict_contains (known_faces w) name); [reflexivity|].
  destruct (register_loop _ _ _ _ _ _) as [[message | all_feats] | e];
    [reflexivity | | reflexivity].
  destruct (np_mean_axis0 all_feats) as [avg | e]; [|reflexivity].
  exfalso. exact (Hfail _ eq_refl).
Qed.

(** The same for the route: an answer with [success = False] comes with
    the world it was called in. *)
Lemma register_multiple_unchanged (name_field : string)
      (images_data : list string) (w : world F) :
  success (fst (register_multiple' name_field images_data w)) = false ->
  snd (register_multiple' name_field images_data w) = w.
Proof.
  unfold register_multiple.
  destruct (String.eqb (py_strip name_field) ""); [reflexivity|].
  destruct (negb (Nat.eqb (length images_data) 3)); [reflexivity|].
  destruct (process_images _ _ _ _ _) as [resp | processed]; [reflexivity|].
  pose proof (register_face_unchanged processed (py_strip name_field) w) as Hm.
  destruct (register_face' processed (py_strip name_field) w) as [[[ok msg] | e] w'];
    simpl in *.
  - intros ->. apply Hm. intros m. discriminate.
  - intros _. apply Hm. intros m. discriminate.
Qed.

(** The images before the first failing one leave the loop where it
    was, one index further each. *)
Lemma register_loop_passes (kf : dict (face_data F)) (pre : list image) :
  forall (rest : list image) (i : nat) (acc : list (list F)),
    Forall (passes_checks detect_faces extract_face_features kf) pre ->
    exists acc',
      register_loop detect_faces extract_face_features kf (pre ++ rest) i acc
      = register_loop detect_faces extract_face_features kf rest
                      (i + length pre) acc'.
Proof.
  induction pre as [|img pre IH]; intros rest i acc Hpre.
  - exists acc. simpl. rewrite Nat.add_0_r. reflexivity.
  - inversion Hpre as [|? ? [coords [dup [Hdet [Hchk Hfalsy]]]] Hpre']; subst.
    destruct (IH rest (i + 1) (acc ++ [extract_face_features img coords]) Hpre')
      as [acc' Hacc'].
    exists acc'. simpl. rewrite Hdet, Hchk. simpl. rewrite Hfalsy.
    rewrite Hacc'. f_equal. lia.
Qed.

End EnrolFacts.

(** C3: when [register_face] does not return success (it returns
    [False] with a message, or raises), the world it leaves is the world it
    was called in: the mapping and the file are both unchanged; and
    the route [register_multiple] answers [success = False] only with the
    world unchanged. (The write of [save_known_faces] is taken to succeed.) *)
Theorem register_face_all_or_nothing
        {F : Type} `{Scalar F} {image : Type}
        (detect_faces : image -> list face_coords)
        (extract_face_features : image -> face_coords -> list F)
        (now_isoformat : string)
        (decode_image : string -> result (option image))
        (w : world F) :
  (forall images name,
      (forall msg,
          fst (register_face detect_faces extract_face_features now_isoformat
                             images name w) <> Ok (true, msg)) ->
      snd (register_face detect_faces extract_face_features now_isoformat
                         images name w) = w) /\
  (forall name_field images_data,
      success (fst (register_multiple detect_faces extract_face_features
                      now_isoformat decode_image name_field images_data w))
      = false ->
      snd (register_multiple detect_faces extract_face_features
             now_isoformat decode_image name_field images_data w) = w).
Proof.
  split.
  - intros images name. apply register_face_unchanged.
  - intros name_field images_data. apply register_multiple_unchanged.
Qed.

Lemma register_face_all_or_nothing_witness :
  fst (register_face TestImage.detect_faces TestImage.extract_face_features
         Demo.clock [Demo.face 1 0; Demo.face 1 0; Demo.face 1 0] "bob"
         (Demo.world_of (F := float) Demo.store_bob))
  = Ok (false, msg_name_registered "bob") /\
  snd (register_face TestImage.detect_faces TestImage.extract_face_features
         Demo.clock [Demo.face 1 0; Demo.face 1 0; Demo.face 1 0] "bob"
         (Demo.world_of (F := float) Demo.store_bob))
  = Demo.world_of Demo.store_bob.
Proof.
  split; [reflexivity|].
  apply (proj1 (register_face_all_or_nothing
                  TestImage.detect_faces TestImage.extract_face_features
                  Demo.clock (TestImage.decode_image [])
                  (Demo.world_of (F := float) Demo.store_bob))).
  intros msg. discriminate.
Defined.

(** C7: the route answers an empty name, and any name that is empty once
    stripped, with 'Name is required' before it looks at the images, and
    the world is unchanged: no record is written. (The check is the
    route's; [register_face] itself has none, see
    [register_face_empty_name_accepted].) *)
Theorem register_multiple_empty_name
        {F : Type} `{Scalar F} {image : Type}
        (detect_faces : image -> list face_coords)
        (extract_face_features : image -> face_coords -> list F)
        (now_isoformat : string)
        (decode_image : string -> result (option image))
        (images_data : list string) (w : world F) :
  register_multiple detect_faces extract_face_features now_isoformat
                    decode_image "" images_data w
  = ({| success := false; message := "Name is required" |}, w) /\
  (forall name_field,
      py_strip name_field = "" ->
      register_multiple detect_faces extract_face_features now_isoformat
                        decode_image name_field images_data w
      = ({| success := false; message := "Name is required" |}, w)).
Proof.
  split; [reflexivity|].
  intros name_field Hstrip. unfold register_multiple. rewrite Hstrip.
  reflexivity.
Qed.

Lemma register_multiple_empty_name_witness :
  py_strip "   " = "" /\
  register_multiple TestImage.detect_faces TestImage.extract_face_features
                    Demo.clock (TestImage.decode_image [])
                    "   " ["data:image/jpeg;base64,AAAA"]
                    (Demo.world_of (F := float) Demo.store_bob)
  = ({| success := false; message := "Name is required" |},
     Demo.world_of Demo.store_bob).
Proof.
  split; [reflexivity|].
  apply (proj2 (register_multiple_empty_name
                  TestImage.detect_faces TestImage.extract_face_features
                  Demo.clock (TestImage.decode_image [])
                  ["data:image/jpeg;base64,AAAA"]
                  (Demo.world_of (F := float) Demo.store_bob))).
  reflexivity.
Defined.

(** The white space stripped is Python's, beyond ASCII too: a name of
    U+00A0 and U+3000 strips to nothing, a padded name to the bare name. *)
Remark py_strip_unicode :
  py_strip (String (ascii_of_nat 194) (String (ascii_of_nat 160)
             (String (ascii_of_nat 227) (String (ascii_of_nat 128)
                (String (ascii_of_nat 128) EmptyString))))) = "" /\
  py_strip Demo.padded_zoe = "zoe".
Proof. split; vm_compute; reflexivity. Qed.

(** The method alone takes the empty name: the check lives in the routes. *)
Remark register_face_empty_name_accepted :
  fst (register_face TestImage.detect_faces TestImage.extract_face_features
         Demo.clock [Demo.face 1 0; Demo.face 1 0; Demo.face 1 0] ""
         (Demo.world_of (F := float) []))
  = Ok (true, "Face registered successfully with 3 high-quality photos!") /\
  list_names
    (snd (register_face TestImage.detect_faces TestImage.extract_face_features
            Demo.clock [Demo.face 1 0; Demo.face 1 0; Demo.face 1 0] ""
            (Demo.world_of (F := float) [])))
  = [""].
Proof. split; vm_compute; reflexivity. Qed.

(** C4, as the claim states it, fails: the second image has no face, the
    first one shows a face enrolled as bob, and [register_face] reports the
    duplicate face, not the missing face. *)
Lemma register_face_duplicate_before_no_face :
  TestImage.detect_faces (Demo.no_face (F := float)) = [] /\
  register_face TestImage.detect_faces TestImage.extract_face_features
    Demo.clock [Demo.face 3 4; Demo.no_face; Demo.face 1 0] "alice"
    (Demo.world_of (F := float) Demo.store_bob)
  = (Ok (false,
         "This face appears to be already registered under the name 'bob'. Each person can only be registered once."),
     Demo.world_of Demo.store_bob).
Proof. split; vm_compute; reflexivity. Qed.

(** C4 (amended): [register_face] checks, in this order and stopping at the
    first failure, (1) that there are exactly 3 images, (2) that the name is
    not enrolled, and then image by image, in submission order, (3) that the
    detector finds exactly one face in the image and (4) that the Duplicate
    Guard at 0.85, run on the store as it is, finds no name for the
    descriptor of that image. The first image failing (3) or (4) decides
    the answer; within one image (3) comes before (4). The images after it
    are not examined. *)
Theorem register_face_check_order
        {F : Type} `{Scalar F} {image : Type}
        (detect_faces : image -> list face_coords)
        (extract_face_features : image -> face_coords -> list F)
        (now_isoformat : string)
        (images : list image) (name : string) (w : world F) :
  (length images <> 3 ->
   register_face detect_faces extract_face_features now_isoformat images name w
   = (Ok (false, "Exactly 3 images are required"), w)) /\
  (length images = 3 -> In name (list_names w) ->
   register_face detect_faces extract_face_features now_isoformat images name w
   = (Ok (false, msg_name_registered name), w)) /\
  (length images = 3 -> ~ In name (list_names w) ->
   forall pre img post,
     images = pre ++ img :: post ->
     Forall (passes_checks detect_faces extract_face_features (known_faces w)) pre ->
     (detect_faces img = [] ->
      register_face detect_faces extract_face_features now_isoformat images name w
      = (Ok (false, msg_no_face (length pre)), w)) /\
     (2 <= length (detect_faces img) ->
      register_face detect_faces extract_face_features now_isoformat images name w
      = (Ok (false, msg_multiple_faces (length pre)), w)) /\
     (forall coords duplicate_name,
         detect_faces img = [coords] ->
         check_face_similarity (known_faces w)
                               (extract_face_features img coords) c0_85
         = Ok (Some duplicate_name) ->
         duplicate_name <> "" ->
         register_face detect_faces extract_face_features now_isoformat images name w
         = (Ok (false, msg_face_registered duplicate_name), w))).
Proof.
  unfold register_face, list_names. split; [|split].
  - intros Hlen. apply Nat.eqb_neq in Hlen. rewrite Hlen. reflexivity.
  - intros Hlen Hin. rewrite Hlen. simpl.
    apply dict_contains_In in Hin. rewrite Hin. reflexivity.
  - intros Hlen Hnot pre img post Himages Hpre. rewrite Hlen. simpl.
    apply dict_contains_not_In in Hnot. rewrite Hnot.
    destruct (register_loop_passes detect_faces extract_face_features
                (known_faces w) pre (img :: post) 0 [] Hpre) as [acc Hacc].
    rewrite Himages, Hacc. simpl. split; [|split].
    + intros Hdet. rewrite Hdet. reflexivity.
    + intros Hdet.
      destruct (detect_faces img) as [|c1 [|c2 more]]; simpl in Hdet; try lia.
      reflexivity.
    + intros coords dup Hdet Hchk Hdup. rewrite Hdet, Hchk. simpl.
      apply String.eqb_neq in Hdup. rewrite Hdup. reflexivity.
Qed.

Lemma register_face_check_order_witness :
  length [Demo.face (F := float) 1 0; Demo.face 3 4; Demo.no_face] = 3%nat /\
  ~ In "alice" (list_names (Demo.world_of (F := float) Demo.store_bob)) /\
  register_face TestImage.detect_faces TestImage.extract_face_features
    Demo.clock [Demo.face 1 0; Demo.face 3 4; Demo.no_face] "alice"
    (Demo.world_of (F := float) Demo.store_bob)
  = (Ok (false, msg_face_registered "bob"), Demo.world_of Demo.store_bob).
Proof.
  assert (Hnot : ~ In "alice" (list_names (Demo.world_of (F := float) Demo.store_bob))).
  { intros [Hb | []]. discriminate. }
  split; [reflexivity|]. split; [exact Hnot|].
  refine (proj2 (proj2
            (proj2 (proj2
                      (register_face_check_order
                         TestImage.detect_faces TestImage.extract_face_features
                         Demo.clock [Demo.face 1 0; Demo.face 3 4; Demo.no_face]
                         "alice" (Demo.world_of (F := float) Demo.store_bob)))
                   eq_refl Hnot [Demo.face 1 0] (Demo.face 3 4) [Demo.no_face]
                   eq_refl _))
            (0, 0, 100, 100)%Z "bob" eq_refl _ _).
  - constructor; [|constructor].
    exists (0, 0, 100, 100)%Z, None. repeat split; vm_compute; reflexivity.
  - vm_compute. reflexivity.
  - discriminate.
Defined.

(* ================================================================== *)
(** ** The order at the two instances *)
(* ================================================================== *)

Module OrderFacts.

Lemma SFltb_irrefl (a : spec_float) : SFltb a a = false.
Proof.
  unfold SFltb, SFcompare.
  destruct a as [s|s| |s m e]; try destruct s; try reflexivity.
  all: rewrite Z.compare_refl; fold (Pos.compare m m);
    rewrite Pos.compare_refl; reflexivity.
Qed.

Lemma SFltb_trans (a b c : spec_float) :
  SFltb a b = true -> SFltb b c = true -> SFltb a c = true.
Proof.
  unfold SFltb, SFcompare.
  destruct a as [sa|sa| |sa ma ea]; destruct b as [sb|sb| |sb mb eb];
    destruct c as [sc|sc| |sc mc ec];
    try destruct sa; try destruct sb; try destruct sc;
    try discriminate; try reflexivity.
  all: fold (Pos.compare ma mb); fold (Pos.compare mb mc);
    fold (Pos.compare ma mc).
  all: destruct (Z.compare_spec ea eb); destruct (Z.compare_spec eb ec);
    destruct (Z.compare_spec ea ec);
    try discriminate; try reflexivity; try lia.
  all: destruct (Pos.compare_spec ma mb); destruct (Pos.compare_spec mb mc);
    destruct (Pos.compare_spec ma mc);
    simpl; try discriminate; try reflexivity; try lia.
Qed.

(** A float that is not nan separates the two ends of an interval. *)
Lemma SFltb_cotrans (a b c : spec_float) :
  b <> S754_nan ->
  SFltb a c = true -> SFltb a b = true \/ SFltb b c = true.
Proof.
  unfold SFltb, SFcompare. intros Hb.
  destruct a as [sa|sa| |sa ma ea]; destruct b as [sb|sb| |sb mb eb];
    destruct c as [sc|sc| |sc mc ec];
    try destruct sa; try destruct sb; try destruct sc;
    try discriminate; try congruence; auto.
  all: fold (Pos.compare ma mb); fold (Pos.compare mb mc);
    fold (Pos.compare ma mc).
  all: destruct (Z.compare_spec ea eb); destruct (Z.compare_spec eb ec);
    destruct (Z.compare_spec ea ec);
    try discriminate; auto; try lia.
  all: destruct (Pos.compare_spec ma mb); destruct (Pos.compare_spec mb mc);
    destruct (Pos.compare_spec ma mc);
    simpl; try discriminate; auto; try lia.
Qed.

Lemma float_comparable (y : float) :
  PrimFloat.eqb y y = true -> comparable (F := float) y.
Proof.
  intros Hy x z. cbn [ltb float64]. rewrite !ltb_spec.
  apply SFltb_cotrans. intros Hnan.
  rewrite eqb_spec, Hnan in Hy. discriminate.
Qed.

Lemma real_comparable (y : R) : comparable (F := R) y.
Proof.
  intros x z. cbn [ltb exact]. rewrite !ExactFacts.ltb_true.
  intros Hxz. destruct (Rlt_dec x y); [left; assumption | right; lra].
Qed.

End OrderFacts.

#[export] Instance float64_strict : ScalarStrict float.
Proof.
  split.
  - intros x. cbn [ltb float64]. rewrite ltb_spec.
    apply OrderFacts.SFltb_irrefl.
  - intros x y z. cbn [ltb float64]. rewrite !ltb_spec.
    apply OrderFacts.SFltb_trans.
Qed.

#[export] Instance float64_thresholds : ThresholdOrder float.
Proof.
  split; try (vm_compute; reflexivity).
  apply OrderFacts.float_comparable. reflexivity.
Qed.

#[export] Instance exact_strict : ScalarStrict R.
Proof.
  split.
  - intros x. apply ExactFacts.ltb_false. lra.
  - intros x y z. cbn [ltb exact]. rewrite !ExactFacts.ltb_true. lra.
Qed.

#[export] Instance exact_thresholds : ThresholdOrder R.
Proof.
  split; try (apply ExactFacts.ltb_true; unfold c0_6, c0_75, c0_8, lit;
              cbn [of_Z div exact]; lra).
  apply OrderFacts.real_comparable.
Qed.

(* ================================================================== *)
(** ** Recognition: the score of one record *)
(* ================================================================== *)

Section RecordScore.
Context {F : Type} `{ScalarStrict F}.
Variable feats : list F.

(** The running maximum: started at a value that bounds what was seen, it
    ends at a value that bounds what was seen and the samples, and is one
    of them. *)
Lemma best_individual_inv (l : list (list F)) :
  forall (seen : list F) (cur : F),
    Forall (fun d => length d = length feats) l ->
    In cur seen ->
    (forall x, In x seen -> ltb cur x = false) ->
    exists s,
      best_individual feats l cur = Ok s /\
      In s (seen ++ map (cosine feats) l) /\
      (forall x, In x (seen ++ map (cosine feats) l) -> ltb s x = false).
Proof.
  induction l as [|d l IH]; intros seen cur Hlen Hin Hbound.
  - exists cur. simpl. rewrite app_nil_r. auto.
  - inversion Hlen as [|? ? Hd Hl]; subst.
    simpl. rewrite (compare_faces_ok feats d c0_6 (eq_sym Hd)). simpl.
    set (c := cosine feats d).
    destruct (IH (seen ++ [c]) (py_max cur c) Hl) as [s [Hs [Hmem Hmax]]].
    + unfold py_max. apply in_or_app.
      destruct (ltb cur c); [right; left; reflexivity | left; exact Hin].
    + intros x Hx. unfold py_max. apply in_app_or in Hx.
      destruct (ltb cur c) eqn:Hlt.
      * destruct Hx as [Hx | [<- | []]]; [|apply ltb_irrefl].
        destruct (ltb c x) eqn:Hcx; [|reflexivity].
        pose proof (Hbound x Hx) as Hb.
        rewrite (ltb_trans _ _ _ Hlt Hcx) in Hb. discriminate.
      * destruct Hx as [Hx | [<- | []]]; [exact (Hbound x Hx) | exact Hlt].
    + exists s. rewrite <- app_assoc in Hmem, Hmax. simpl in Hmem, Hmax. auto.
Qed.

(** A record whose primary similarity is not below 0.8, or that has no
    samples, is scored by its primary descriptor alone. *)
Lemma compare_record_primary (fd : face_data F) :
  length (features fd) = length feats ->
  all_features fd = None \/ ltb (cosine feats (features fd)) c0_8 = false ->
  compare_record feats fd
  = Ok (ltb c0_6 (cosine feats (features fd)), cosine feats (features fd)).
Proof.
  intros Hlen Hcase. unfold compare_record.
  rewrite (compare_faces_ok feats (features fd) c0_6 (eq_sym Hlen)). simpl.
  destruct (all_features fd) as [l|]; [|reflexivity].
  destruct Hcase as [Hnone | Hge]; [discriminate|].
  rewrite Hge. reflexivity.
Qed.

(** A record with samples whose primary similarity is below 0.8 is scored
    by the largest of the primary and the sample similarities, matched
    against 0.75. *)
Lemma compare_record_refined (fd : face_data F) (l : list (list F)) :
  length (features fd) = length feats ->
  all_features fd = Some l ->
  Forall (fun d => length d = length feats) l ->
  ltb (cosine feats (features fd)) c0_8 = true ->
  exists s,
    compare_record feats fd = Ok (ltb c0_75 s, s) /\
    In s (cosine feats (features fd) :: map (cosine feats) l) /\
    (forall x, In x (cosine feats (features fd) :: map (cosine feats) l) ->
               ltb s x = false).
Proof.
  intros Hlen Hall Hl Hlt. unfold compare_record.
  rewrite (compare_faces_ok feats (features fd) c0_6 (eq_sym Hlen)). simpl.
  rewrite Hall, Hlt.
  destruct (best_individual_inv l [cosine feats (features fd)]
              (cosine feats (features fd)) Hl (or_introl eq_refl))
    as [s [Hs [Hmem Hmax]]].
  - intros x [<- | []]. apply ltb_irrefl.
  - exists s. rewrite Hs. simpl. auto.
Qed.

End RecordScore.

(** C2, as the claim states it, fails. carol and dave are enrolled as
    [register_face] stores them. For a face like dave's first sample the
    best similarity over the primary descriptors is carol's, 0.832, not
    below 0.8, so in the claim's reading no sample is compared and carol is
    reported with 83.21. The code compares dave's samples all the same,
    because dave's own primary similarity is below 0.8, and reports dave
    with 100. *)
Lemma recognize_refines_each_record :
  (exists s fd, spec_primary_pass Demo.store_carol_dave (Demo.vec (F := float) 0 1)
                                  None None
                = Ok (Some ("carol", s), Some ("carol", fd, s)) /\
                ltb s c0_8 = false) /\
  spec_recognize_one Demo.store_carol_dave (Demo.vec (F := float) 0 1)
  = Ok ("carol", PyFloat 0x1.4cd70a3d70a3dp+6%float) /\
  recognize_one TestImage.extract_face_features Demo.store_carol_dave
                (Demo.face (F := float) 0 1) (0, 0, 100, 100)%Z
  = Ok {| r_name := "dave"; r_confidence := PyFloat 100%float;
          r_coordinates := (0, 0, 100, 100)%Z |} /\
  known_faces
    (snd (register_face TestImage.detect_faces TestImage.extract_face_features
            Demo.clock [Demo.face 0 10; Demo.face 10 0; Demo.face 10 0] "dave"
            (snd (register_face TestImage.detect_faces
                    TestImage.extract_face_features Demo.clock
                    [Demo.face 2 3; Demo.face 2 3; Demo.face 2 3] "carol"
                    (Demo.world_of (F := float) [])))))
  = Demo.store_carol_dave.
Proof.
  split; [|split; [|split]].
  - eexists. eexists. split; vm_compute; reflexivity.
  - vm_compute. reflexivity.
  - vm_compute. reflexivity.
  - vm_compute. reflexivity.
Qed.

(** C2 (amended): the refinement is made record by record. A record is
    scored by its primary descriptor alone (match above 0.6) when its own
    primary similarity is not below 0.8 or it carries no samples; then its
    samples are not compared. Otherwise the query is compared with every
    sample of that record, the record's similarity is the largest of its
    primary and sample similarities, and it matches when that is above
    0.75. *)
Theorem compare_record_refinement
        {F : Type} `{ScalarStrict F} (feats : list F) (fd : face_data F) :
  length (features fd) = length feats ->
  (all_features fd = None \/ ltb (cosine feats (features fd)) c0_8 = false ->
   compare_record feats fd
   = Ok (ltb c0_6 (cosine feats (features fd)), cosine feats (features fd)))
  /\
  (forall l,
      all_features fd = Some l ->
      Forall (fun d => length d = length feats) l ->
      ltb (cosine feats (features fd)) c0_8 = true ->
      exists s,
        compare_record feats fd = Ok (ltb c0_75 s, s) /\
        In s (cosine feats (features fd) :: map (cosine feats) l) /\
        (forall x, In x (cosine feats (features fd) :: map (cosine feats) l) ->
                   ltb s x = false)).
Proof.
  intros Hlen. split.
  - apply compare_record_primary. exact Hlen.
  - intros l Hall Hl Hlt. apply compare_record_refined; assumption.
Qed.

Lemma compare_record_refinement_witness :
  length (features (Demo.dave (F := float))) = length (Demo.vec (F := float) 0 1) /\
  ltb (cosine (Demo.vec (F := float) 0 1) (features Demo.dave)) c0_8 = true /\
  exists s,
    compare_record (Demo.vec (F := float) 0 1) Demo.dave = Ok (ltb c0_75 s, s).
Proof.
  split; [reflexivity|]. split; [vm_compute; reflexivity|].
  destruct (proj2 (compare_record_refinement
                     (Demo.vec (F := float) 0 1) Demo.dave eq_refl)
                  [Demo.vec 0 10; Demo.vec 10 0; Demo.vec 10 0] eq_refl)
    as [s [Hs _]].
  - repeat constructor.
  - vm_compute. reflexivity.
  - exists s. exact Hs.
Defined.

(* ================================================================== *)
(** ** Recognition: the best match over the store *)
(* ================================================================== *)

Section BestMatch.
Context {F : Type} {SF : Scalar F} {SS : ScalarStrict F} {TO : ThresholdOrder F}.
Variable feats : list F.

Lemma c0_75_not_below_zero : ltb c0_75 (of_Z 0) = false.
Proof.
  destruct (ltb c0_75 (of_Z 0)) eqn:Hlt; [|reflexivity].
  pose proof (ltb_trans _ _ _ zero_lt_c0_75 Hlt) as Habs.
  rewrite ltb_irrefl in Habs. discriminate.
Qed.

(** On a record that carries its samples the verdict is the comparison of
    the final similarity with 0.75, whichever way it was reached. *)
Lemma compare_record_verdict (fd : face_data F) :
  record_lengths (length feats) fd ->
  all_features fd <> None ->
  comparable (cosine feats (features fd)) ->
  Forall (fun d => comparable (cosine feats d)) (samples fd) ->
  exists s, compare_record feats fd = Ok (ltb c0_75 s, s) /\ comparable s.
Proof.
  intros [Hprim Hsamp] Hsome Hcp Hcs.
  destruct (all_features fd) as [l|] eqn:Hall; [|contradiction].
  destruct (ltb (cosine feats (features fd)) c0_8) eqn:Hlt.
  - destruct (compare_record_refined feats fd l Hprim Hall (Hsamp l eq_refl) Hlt)
      as [s [Hs [Hmem _]]].
    exists s. split; [exact Hs|].
    destruct Hmem as [<- | Hmem]; [exact Hcp|].
    apply in_map_iff in Hmem. destruct Hmem as [d [<- Hd]].
    unfold samples in Hcs. rewrite Hall in Hcs.
    exact (proj1 (Forall_forall _ l) Hcs d Hd).
  - exists (cosine feats (features fd)). split; [|exact Hcp].
    rewrite (compare_record_primary feats fd Hprim (or_intror Hlt)).
    destruct (Hcp _ _ c0_75_lt_c0_8) as [Habove | Hbelow];
      [|rewrite Hbelow in Hlt; discriminate].
    rewrite Habove, (ltb_trans _ _ _ c0_6_lt_c0_75 Habove). reflexivity.
Qed.

Lemma scored_app_l (seen rest : dict (face_data F)) name m s :
  scored seen feats name m s -> scored (seen ++ rest) feats name m s.
Proof.
  intros [fd [Hin Hc]]. exists fd. split; [|exact Hc].
  apply in_or_app. left. exact Hin.
Qed.

Lemma scored_snoc (seen : dict (face_data F)) n fd name m s :
  scored (seen ++ [(n, fd)]) feats name m s ->
  scored seen feats name m s \/
  (name = n /\ compare_record feats fd = Ok (m, s)).
Proof.
  intros [fd' [Hin Hc]]. apply in_app_or in Hin.
  destruct Hin as [Hin | [Heq | []]].
  - left. exists fd'. auto.
  - right. injection Heq as <- <-. auto.
Qed.

Lemma best_so_far_start : best_so_far feats [] None (PyInt 0).
Proof.
  unfold best_so_far. simpl. split; [exact zero_comparable|].
  split; [intros name m s [fd [[] _]]|].
  split; [left; reflexivity|].
  split; [reflexivity|].
  intros Habs. rewrite c0_75_not_below_zero in Habs. discriminate.
Qed.

(** One turn of the loop keeps it. *)
Lemma best_so_far_step (seen : dict (face_data F)) (n : string)
      (fd : face_data F) (best_match : option string) (best : number F) (s : F) :
  n <> "" ->
  compare_record feats fd = Ok (ltb c0_75 s, s) ->
  comparable s ->
  best_so_far feats seen best_match best ->
  best_so_far feats (seen ++ [(n, fd)])
    (if ltb (to_float best) s
     then (if ltb c0_75 s then Some n else best_match) else best_match)
    (if ltb (to_float best) s then PyFloat s else best).
Proof.
  intros Hn Hscore Hcs [Hcb [Hbound [Hatt [Hnone Hsome]]]].
  assert (Hnew : scored (seen ++ [(n, fd)]) feats n (ltb c0_75 s) s).
  { exists fd. split; [apply in_or_app; right; left; reflexivity | exact Hscore]. }
  destruct (ltb (to_float best) s) eqn:Hlt; unfold best_so_far; simpl.
  - split; [exact Hcs|]. split; [|split; [|split]].
    + intros name m x Hx. apply scored_snoc in Hx.
      destruct Hx as [Hx | [_ Hx]].
      * destruct (ltb s x) eqn:Hsx; [|reflexivity].
        pose proof (Hbound name m x Hx) as Hb.
        rewrite (ltb_trans _ _ _ Hlt Hsx) in Hb. discriminate.
      * rewrite Hscore in Hx. injection Hx as _ <-. apply ltb_irrefl.
    + right. exists n, (ltb c0_75 s), s. auto.
    + intros Hlow. rewrite Hlow. apply Hnone.
      destruct (ltb c0_75 (to_float best)) eqn:Hb; [|reflexivity].
      rewrite (ltb_trans _ _ _ Hb Hlt) in Hlow. discriminate.
    + intros Hhigh. rewrite Hhigh. exists n, s.
      repeat split; [exact Hn | rewrite Hhigh in Hnew; exact Hnew].
  - split; [exact Hcb|]. split; [|split; [|split]].
    + intros name m x Hx. apply scored_snoc in Hx.
      destruct Hx as [Hx | [_ Hx]]; [exact (Hbound name m x Hx)|].
      rewrite Hscore in Hx. injection Hx as _ <-. exact Hlt.
    + destruct Hatt as [H0 | [name [m [x [Hx Hb]]]]]; [left; exact H0|].
      right. exists name, m, x. split; [apply scored_app_l; exact Hx | exact Hb].
    + exact Hnone.
    + intros Hhigh. destruct (Hsome Hhigh) as [name [x [Hbm [Hne [Hx Hb]]]]].
      exists name, x. repeat split; try assumption.
      apply scored_app_l. exact Hx.
Qed.

(** The loop returns, and what it returns is the best over the store. *)
Lemma best_over_inv (rest : dict (face_data F)) :
  forall (seen : dict (face_data F)) (best_match : option string)
         (best : number F),
    store_lengths (length feats) rest ->
    Forall enrolled_shape rest ->
    cosines_comparable feats rest ->
    best_so_far feats seen best_match best ->
    exists best_match' best',
      best_over rest feats best_match best = Ok (best_match', best') /\
      best_so_far feats (seen ++ rest) best_match' best'.
Proof.
  induction rest as [|[n fd] rest IH];
    intros seen best_match best Hlen Hshape Hcmp Hinv.
  - exists best_match, best. rewrite app_nil_r. split; [reflexivity | exact Hinv].
  - inversion Hlen as [|? ? Hfd Hlen']; subst.
    inversion Hshape as [|? ? [Hn Hall] Hshape']; subst.
    inversion Hcmp as [|? ? [Hcp Hcs] Hcmp']; subst.
    simpl in Hfd, Hn, Hall, Hcp, Hcs.
    destruct (compare_record_verdict fd Hfd Hall Hcp Hcs) as [s [Hscore Hs]].
    pose proof (best_so_far_step seen n fd best_match best s Hn Hscore Hs Hinv)
      as Hstep.
    simpl. rewrite Hscore. simpl.
    destruct (ltb (to_float best) s);
      (edestruct (IH (seen ++ [(n, fd)])) as [bm' [b' [Hrun Hend]]];
       [exact Hlen' | exact Hshape' | exact Hcmp' | exact Hstep |]);
      exists bm', b'; rewrite <- app_assoc in Hend; simpl in Hend; auto.
Qed.

(** One detected face: [recognize_one] returns, and reports the best. *)
Lemma recognize_one_best {image : Type}
      (extract_face_features : image -> face_coords -> list F)
      (kf : dict (face_data F)) (img : image) (coords : face_coords) :
  extract_face_features img coords = feats ->
  store_lengths (length feats) kf ->
  Forall enrolled_shape kf ->
  cosines_comparable feats kf ->
  exists r,
    recognize_one extract_face_features kf img coords = Ok r /\
    r_coordinates r = coords /\
    reports_best kf feats r.
Proof.
  intros Hfeats Hlen Hshape Hcmp.
  destruct (best_over_inv kf [] None (PyInt 0) Hlen Hshape Hcmp best_so_far_start)
    as [bm [best [Hrun [Hcb [Hbound [Hatt [Hnone Hsome]]]]]]].
  simpl in Hbound, Hatt, Hsome.
  unfold recognize_one. rewrite Hfeats, Hrun. simpl.
  eexists. split; [reflexivity|]. split; [reflexivity|].
  exists best. simpl. split; [reflexivity|].
  split; [exact Hbound|]. split; [exact Hatt|]. split; [|split].
  - (* ties with a record *)
    intros Hkf Hnonneg.
    destruct Hatt as [-> | [name [m [s [Hx ->]]]]].
    + destruct kf as [|[n fd] kf']; [contradiction|].
      pose proof (Forall_inv Hlen) as Hfd.
      pose proof (Forall_inv Hshape) as [_ Hall].
      pose proof (Forall_inv Hcmp) as [Hcp Hcs].
      destruct (compare_record_verdict fd Hfd Hall Hcp Hcs) as [s [Hscore _]].
      assert (Hx : scored ((n, fd) :: kf') feats n (ltb c0_75 s) s).
      { exists fd. split; [left; reflexivity | exact Hscore]. }
      exists n, (ltb c0_75 s), s. split; [exact Hx|]. split.
      * exact (Hnonneg _ _ _ Hx).
      * exact (Hbound _ _ _ Hx).
    + exists name, m, s. split; [exact Hx|]. simpl.
      split; apply ltb_irrefl.
  - (* no record matches *)
    intros Hno. rewrite Hnone; [reflexivity|].
    destruct (ltb c0_75 (to_float best)) eqn:Hhigh; [|reflexivity].
    destruct (Hsome eq_refl) as [name [s [_ [_ [Hx _]]]]].
    specialize (Hno name true s Hx). discriminate.
  - (* some record matches *)
    intros [name [s [fd [Hin Hscore]]]].
    assert (Hhigh : ltb c0_75 (to_float best) = true).
    { assert (Hs : ltb c0_75 s = true).
      { pose proof (proj1 (Forall_forall _ kf) Hlen _ Hin) as Hfd.
        pose proof (proj1 (Forall_forall _ kf) Hshape _ Hin) as [_ Hall].
        pose proof (proj1 (Forall_forall _ kf) Hcmp _ Hin) as [Hcp Hcs].
        destruct (compare_record_verdict fd Hfd Hall Hcp Hcs) as [s' [Hs' _]].
        simpl in Hs'. rewrite Hscore in Hs'. injection Hs' as Hv <-.
        symmetry. exact Hv. }
      destruct (Hcb _ _ Hs) as [Hb | Hb]; [exact Hb|].
      rewrite (Hbound name true s (ex_intro _ fd (conj Hin Hscore))) in Hb.
      discriminate. }
    destruct (Hsome Hhigh) as [n [x [Hbm [Hne [Hx Hb]]]]].
    exists x. subst bm. unfold or_unknown, truthy.
    apply String.eqb_neq in Hne. rewrite Hne. simpl. auto.
Qed.

End BestMatch.

Section RecognizeAll.
Context {F : Type} {SF : Scalar F} {SS : ScalarStrict F} {TO : ThresholdOrder F}.
Context {image : Type}.
Variable extract_face_features : image -> face_coords -> list F.
Variable kf : dict (face_data F).
Variable img : image.

Lemma recognize_all_best (faces : list face_coords) :
  Forall enrolled_shape kf ->
  (forall c, In c faces ->
             store_lengths (length (extract_face_features img c)) kf /\
             cosines_comparable (extract_face_features img c) kf) ->
  exists results,
    recognize_all extract_face_features kf img faces = Ok results /\
    map r_coordinates results = faces /\
    Forall (fun r => reports_best kf (extract_face_features img (r_coordinates r)) r)
           results.
Proof.
  intros Hshape. induction faces as [|c faces IH]; intros Hfaces.
  - exists []. repeat split. constructor.
  - destruct (Hfaces c (or_introl eq_refl)) as [Hlen Hcmp].
    destruct (recognize_one_best (extract_face_features img c)
                extract_face_features kf img c eq_refl Hlen Hshape Hcmp)
      as [r [Hr [Hc Hbest]]].
    destruct IH as [rs [Hrs [Hcs Hall]]].
    { intros c' Hc'. apply Hfaces. right. exact Hc'. }
    exists (r :: rs). simpl. rewrite Hr. simpl. rewrite Hrs. simpl.
    split; [reflexivity|]. split; [congruence|].
    constructor; [rewrite Hc; exact Hbest | exact Hall].
Qed.

End RecognizeAll.

(** C1: on a store of enrolled records (non-empty names, samples present,
    one descriptor length) and as long as no similarity is nan,
    [recognize_face] returns one result per detected face, in the detector's
    order, and each result reports the best: its confidence is
    [round(best * 100, 2)] where no record's similarity is above [best] and
    [best] is the similarity of a record, whether or not it is a match (or
    the 0 it starts at when none is above 0, which ties with the similarity
    of a record as soon as none is below 0, as for intensity descriptors);
    its name is 'Unknown' when no record matches, and otherwise the name of
    a matching record whose similarity is [best], the highest of all. A
    record's verdict and similarity are those of [compare_record], after
    its refinement. *)
Theorem recognize_face_best_match
        {F : Type} {SF : Scalar F} {SS : ScalarStrict F} {TO : ThresholdOrder F}
        {image : Type}
        (detect_faces : image -> list face_coords)
        (extract_face_features : image -> face_coords -> list F)
        (kf : dict (face_data F)) (img : image) :
  detect_faces img <> [] ->
  Forall enrolled_shape kf ->
  (forall c, In c (detect_faces img) ->
             store_lengths (length (extract_face_features img c)) kf /\
             cosines_comparable (extract_face_features img c) kf) ->
  exists results,
    recognize_face detect_faces extract_face_features kf img
    = Ok (results, "Recognition completed") /\
    map r_coordinates results = detect_faces img /\
    Forall (fun r => reports_best kf (extract_face_features img (r_coordinates r)) r)
           results.
Proof.
  intros Hne Hshape Hfaces.
  destruct (recognize_all_best extract_face_features kf img (detect_faces img)
              Hshape Hfaces) as [results [Hrun [Hcoords Hall]]].
  exists results. unfold recognize_face.
  destruct (detect_faces img) as [|c faces] eqn:Hd; [contradiction|].
  cbn [length Nat.eqb]. rewrite Hrun. simpl. auto.
Qed.

Lemma recognize_face_best_match_witness :
  TestImage.detect_faces (Demo.face (F := float) 0 1) <> [] /\
  Forall enrolled_shape (Demo.store_carol_dave (F := float)) /\
  exists results,
    recognize_face TestImage.detect_faces TestImage.extract_face_features
                   Demo.store_carol_dave (Demo.face (F := float) 0 1)
    = Ok (results, "Recognition completed") /\
    Forall (fun r => reports_best Demo.store_carol_dave
                       (TestImage.extract_face_features (Demo.face 0 1)
                                                        (r_coordinates r)) r)
           results.
Proof.
  assert (Hne : TestImage.detect_faces (Demo.face (F := float) 0 1) <> [])
    by discriminate.
  assert (Hshape : Forall enrolled_shape (Demo.store_carol_dave (F := float))).
  { repeat constructor; discriminate. }
  split; [exact Hne|]. split; [exact Hshape|].
  destruct (recognize_face_best_match
              TestImage.detect_faces TestImage.extract_face_features
              Demo.store_carol_dave (Demo.face (F := float) 0 1) Hne Hshape)
    as [results [Hrun [_ Hall]]].
  - intros c [<- | []]. split.
    + repeat constructor; intros l Hl; injection Hl as <-; repeat constructor.
    + cbv [cosines_comparable Demo.store_carol_dave Demo.carol Demo.dave
             Demo.record samples all_features features snd].
      repeat match goal with
             | |- Forall _ [] => apply Forall_nil
             | |- Forall _ (_ :: _) => apply Forall_cons
             | |- _ /\ _ => split
             | |- comparable _ =>
                 apply OrderFacts.float_comparable; vm_compute; reflexivity
             end.
  - exists results. split; assumption.
Defined.

(** Why C1 asks for enrolled records. A record without the key
    ['all_features'] matches above 0.6, one with it above 0.75; when the
    second scores higher without matching, the first is forgotten. And a
    record under the empty name is reported as 'Unknown'. Neither record can
    come from the routes, which require a name and always store the
    samples. *)
Remark recognize_outside_enrolled_shape :
  (exists c,
      recognize_one TestImage.extract_face_features
        [("eve", Demo.record (Demo.vec 3 3) [Demo.vec 3 3]);
         ("old", Demo.legacy_record (Demo.vec 4 5))]
        (Demo.face (F := float) 1 0) (0, 0, 100, 100)%Z
      = Ok {| r_name := "Unknown"; r_confidence := c;
              r_coordinates := (0, 0, 100, 100)%Z |}) /\
  (exists s,
      compare_record (Demo.vec (F := float) 1 0)
                     (Demo.legacy_record (Demo.vec 4 5))
      = Ok (true, s)) /\
  recognize_one TestImage.extract_face_features
    [("", Demo.carol)] (Demo.face (F := float) 2 3) (0, 0, 100, 100)%Z
  = Ok {| r_name := "Unknown"; r_confidence := PyFloat 100%float;
          r_coordinates := (0, 0, 100, 100)%Z |}.
Proof.
  split; [|split].
  - eexists. vm_compute. reflexivity.
  - eexists. vm_compute. reflexivity.
  - vm_compute. reflexivity.
Qed.

(* ================================================================== *)
(** ** A descriptor against itself *)
(* ================================================================== *)

Module SelfFacts.





End SelfFacts.


(** The rounding goes either way: for [[1, 1, 1]] the similarity is the
    next double above 1. *)
Remark compare_faces_self_float64 :
  compare_faces (F := float) [of_Z 1; of_Z 1; of_Z 1] [of_Z 1; of_Z 1; of_Z 1] c0_6
  = Ok (true, 0x1.0000000000001p+0%float).
Proof. vm_compute. reflexivity. Qed.



(* ------------------------------------------------------------------ *)
(** *** Where the similarity of a record comes from *)

(** The similarity of a record is one of the cosines of the query with
    its descriptors. *)
Lemma compare_record_is_cosine
      {F : Type} `{ScalarStrict F} (feats : list F) (fd : face_data F)
      (m : bool) (s : F) :
  record_lengths (length feats) fd ->
  compare_record feats fd = Ok (m, s) ->
  In s (cosine feats (features fd) :: map (cosine feats) (samples fd)).
Proof.
  intros [Hprim Hsamp] Hscore. unfold samples.
  destruct (all_features fd) as [l|] eqn:Hall.
  - destruct (ltb (cosine feats (features fd)) c0_8) eqn:Hlt.
    + destruct (compare_record_refined feats fd l Hprim Hall (Hsamp l eq_refl) Hlt)
        as [s' [Hs' [Hmem _]]].
      rewrite Hscore in Hs'. injection Hs' as _ ->. exact Hmem.
    + rewrite (compare_record_primary feats fd Hprim (or_intror Hlt)) in Hscore.
      injection Hscore as _ <-. left. reflexivity.
  - rewrite (compare_record_primary feats fd Hprim (or_introl Hall)) in Hscore.
    injection Hscore as _ <-. left. reflexivity.
Qed.

(* ================================================================== *)
(** ** Enrolment: what success takes and what it leaves *)
(* ================================================================== *)

Lemma dict_set_absent {V : Type} (d : dict V) (k : string) (v : V) :
  dict_contains d k = false -> dict_set d k v = d ++ [(k, v)].
Proof.
  induction d as [|[k' v'] d IH]; intros Habs; [reflexivity|].
  simpl in *. apply orb_false_iff in Habs. destruct Habs as [Hk Hd].
  rewrite Hk, (IH Hd). reflexivity.
Qed.

Section MeanFacts.
Context {F : Type} `{Scalar F}.

Lemma add_rows_length (a b : list F) :
  length b = length a -> length (add_rows a b) = length a.
Proof.
  revert b. induction a as [|x a IH]; intros [|y b] Hlen; simpl in *;
    try reflexivity; try discriminate.
  f_equal. apply IH. congruence.
Qed.

(** [np.mean] of three rows returns exactly when they have one length,
    and then the mean has that length. *)
Lemma np_mean_three (d1 d2 d3 : list F) :
  (length d2 = length d1 /\ length d3 = length d1 ->
   np_mean_axis0 [d1; d2; d3]
   = Ok (np_divide (add_rows (add_rows d1 d2) d3) (of_Z 3))) /\
  (forall avg, np_mean_axis0 [d1; d2; d3] = Ok avg ->
               length d2 = length d1 /\ length d3 = length d1 /\
               length avg = length d1).
Proof.
  unfold np_mean_axis0. simpl. split.
  - intros [H2 H3]. rewrite H2, H3, Nat.eqb_refl. reflexivity.
  - intros avg.
    destruct (Nat.eqb_spec (length d2) (length d1)) as [H2|]; [|discriminate].
    destruct (Nat.eqb_spec (length d3) (length d1)) as [H3|]; [|discriminate].
    simpl. intros Havg. injection Havg as <-.
    rewrite np_divide_length, !add_rows_length; auto.
    rewrite add_rows_length; assumption.
Qed.

End MeanFacts.

Section EnrolEffect.
Context {F : Type} `{Scalar F} {image : Type}.
Variable detect_faces : image -> list face_coords.
Variable extract_face_features : image -> face_coords -> list F.
Variable now_isoformat : string.

Local Abbreviation shows' := (shows detect_faces extract_face_features).
Local Abbreviation loop := (register_loop detect_faces extract_face_features).

(** The loop runs to its end exactly on images that each show one face the
    guard does not act on, and then it has collected their descriptors in
    order. *)
Lemma register_loop_inr (kf : dict (face_data F)) (images : list image) :
  forall (i : nat) (acc all_feats : list (list F)),
    loop kf images i acc = Ok (inr all_feats) <->
    exists ds,
      all_feats = acc ++ ds /\
      Forall2 (fun img d => shows' img d /\ no_duplicate kf d) images ds.
Proof.
  induction images as [|img images IH]; intros i acc all_feats; simpl.
  - split.
    + intros Hrun. injection Hrun as <-. exists []. rewrite app_nil_r.
      split; [reflexivity | constructor].
    + intros [ds [-> Hall]]. inversion Hall; subst. rewrite app_nil_r.
      reflexivity.
  - split.
    + intros Hrun.
      destruct (detect_faces img) as [|coords [|c2 more]] eqn:Hdet;
        try discriminate.
      destruct (check_face_similarity kf (extract_face_features img coords) c0_85)
        as [dup|e] eqn:Hchk; [|discriminate].
      simpl in Hrun. destruct (truthy dup) eqn:Hdup; [discriminate|].
      apply IH in Hrun. destruct Hrun as [ds [-> Hall]].
      exists (extract_face_features img coords :: ds).
      rewrite <- app_assoc. split; [reflexivity|].
      constructor; [|exact Hall]. split.
      * exists coords. auto.
      * exists dup. auto.
    + intros [ds [-> Hall]].
      inversion Hall as [|? d ? ds' Hhead Hrest]; subst.
      destruct Hhead as [Hshow [dup [Hchk Hdup]]].
      destruct Hshow as [coords [Hdet <-]].
      rewrite Hdet, Hchk. simpl. rewrite Hdup.
      apply IH. exists ds'. rewrite <- app_assoc. split; [reflexivity | exact Hrest].
Qed.

End EnrolEffect.

(** X1: [register_face] returns success exactly when it is given three
    images, the name is not enrolled, each image shows exactly one face on
    whose descriptor the guard at 0.85 does not act, and the three
    descriptors have one length; in particular the three samples are never
    compared with each other. *)
Theorem register_face_succeeds_iff
        {F : Type} `{Scalar F} {image : Type}
        (detect_faces : image -> list face_coords)
        (extract_face_features : image -> face_coords -> list F)
        (now_isoformat : string)
        (images : list image) (name : string) (w : world F) :
  (exists msg,
      fst (register_face detect_faces extract_face_features now_isoformat
                         images name w) = Ok (true, msg))
  <->
  (~ In name (list_names w) /\
   exists i1 i2 i3 d1 d2 d3,
     images = [i1; i2; i3] /\
     shows detect_faces extract_face_features i1 d1 /\
     shows detect_faces extract_face_features i2 d2 /\
     shows detect_faces extract_face_features i3 d3 /\
     no_duplicate (known_faces w) d1 /\
     no_duplicate (known_faces w) d2 /\
     no_duplicate (known_faces w) d3 /\
     length d2 = length d1 /\ length d3 = length d1).
Proof.
  unfold register_face, list_names. split.
  - intros [msg Hrun].
    destruct (Nat.eqb_spec (length images) 3) as [Hlen|]; [|discriminate].
    simpl in Hrun.
    destruct (dict_contains (known_faces w) name) eqn:Hname; [discriminate|].
    apply dict_contains_not_In in Hname. split; [exact Hname|].
    destruct (register_loop _ _ _ _ _ _) as [[m | all_feats] | e] eqn:Hloop;
      try discriminate.
    apply register_loop_inr in Hloop. destruct Hloop as [ds [-> Hall]].
    destruct (np_mean_axis0 ([] ++ ds)) as [avg|e] eqn:Hmean; [|discriminate].
    destruct images as [|i1 [|i2 [|i3 [|]]]]; try discriminate.
    inversion Hall as [|? d1 ? ? Hh1 Hall1]; subst.
    inversion Hall1 as [|? d2 ? ? Hh2 Hall2]; subst.
    inversion Hall2 as [|? d3 ? ? Hh3 Hall3]; subst.
    inversion Hall3; subst.
    destruct Hh1 as [Hs1 Hn1]. destruct Hh2 as [Hs2 Hn2].
    destruct Hh3 as [Hs3 Hn3].
    apply (proj2 (np_mean_three d1 d2 d3)) in Hmean.
    destruct Hmean as [H2 [H3 _]].
    exists i1, i2, i3, d1, d2, d3. repeat split; assumption.
  - intros (Hname & i1 & i2 & i3 & d1 & d2 & d3 & -> & Hs1 & Hs2 & Hs3
            & Hn1 & Hn2 & Hn3 & H2 & H3).
    apply dict_contains_not_In in Hname. cbn [length Nat.eqb negb].
    rewrite Hname.
    assert (Hloop : register_loop detect_faces extract_face_features
                      (known_faces w) [i1; i2; i3] 0 []
                    = Ok (inr ([] ++ [d1; d2; d3]))).
    { apply register_loop_inr. exists [d1; d2; d3]. split; [reflexivity|].
      repeat constructor; assumption. }
    rewrite Hloop. simpl app.
    rewrite (proj1 (np_mean_three d1 d2 d3) (conj H2 H3)).
    eexists. reflexivity.
Qed.

Lemma register_face_succeeds_iff_witness :
  exists msg,
    fst (register_face TestImage.detect_faces TestImage.extract_face_features
           Demo.clock [Demo.face 0 10; Demo.face 10 0; Demo.face 10 0] "dave"
           (Demo.world_of (F := float) [("carol", Demo.carol)]))
    = Ok (true, msg).
Proof.
  apply (proj2 (register_face_succeeds_iff
                  TestImage.detect_faces TestImage.extract_face_features
                  Demo.clock [Demo.face 0 10; Demo.face 10 0; Demo.face 10 0]
                  "dave" (Demo.world_of (F := float) [("carol", Demo.carol)]))).
  split.
  - intros [Hc | []]. discriminate.
  - exists (Demo.face 0 10), (Demo.face 10 0), (Demo.face 10 0),
      (Demo.vec 0 10), (Demo.vec 10 0), (Demo.vec 10 0).
    repeat split;
      try (exists (0, 0, 100, 100)%Z; split; reflexivity);
      try (exists None; split; vm_compute; reflexivity).
Defined.

(** What a successful [register_face] leaves behind. *)
Lemma register_face_success
        {F : Type} `{Scalar F} {image : Type}
        (detect_faces : image -> list face_coords)
        (extract_face_features : image -> face_coords -> list F)
        (now_isoformat : string)
        (images : list image) (name : string) (w w' : world F) (msg : string) :
  register_face detect_faces extract_face_features now_isoformat images name w
  = (Ok (true, msg), w') ->
  msg = "Face registered successfully with 3 high-quality photos!" /\
  exists d1 d2 d3,
    Forall2 (shows detect_faces extract_face_features) images [d1; d2; d3] /\
    length (np_divide (add_rows (add_rows d1 d2) d3) (of_Z 3)) = length d1 /\
    known_faces w'
    = known_faces w
      ++ [(name, enrolled_record now_isoformat
                   (np_divide (add_rows (add_rows d1 d2) d3) (of_Z 3))
                   d1 d2 d3)] /\
    list_names w' = list_names w ++ [name] /\
    face_data_file w' = FileJson (known_faces w').
Proof.
  unfold register_face, list_names. intros Hrun.
  destruct (Nat.eqb_spec (length images) 3) as [Hlen|]; [|discriminate].
  cbn [negb] in Hrun.
  destruct (dict_contains (known_faces w) name) eqn:Hname; [discriminate|].
  destruct (register_loop _ _ _ _ _ _) as [[m | all_feats] | e] eqn:Hloop;
    try discriminate.
  apply register_loop_inr in Hloop. destruct Hloop as [ds [-> Hall]].
  simpl app in Hrun.
  destruct (np_mean_axis0 ds) as [avg|e] eqn:Hmean; [|discriminate].
  destruct images as [|i1 [|i2 [|i3 [|]]]]; try discriminate.
  inversion Hall as [|? d1 ? ? Hh1 Hall1]; subst.
  inversion Hall1 as [|? d2 ? ? Hh2 Hall2]; subst.
  inversion Hall2 as [|? d3 ? ? Hh3 Hall3]; subst.
  inversion Hall3; subst.
  destruct (proj2 (np_mean_three d1 d2 d3) avg Hmean) as [H2 [H3 Havg]].
  rewrite (proj1 (np_mean_three d1 d2 d3) (conj H2 H3)) in Hmean.
  injection Hmean as <-.
  injection Hrun as <- <-. split; [reflexivity|].
  exists d1, d2, d3. cbn [save_known_faces known_faces face_data_file].
  rewrite (dict_set_absent _ _ _ Hname).
  split; [repeat constructor; [apply Hh1 | apply Hh2 | apply Hh3]|].
  split; [exact Havg|]. split; [reflexivity|].
  split; [|reflexivity].
  unfold dict_keys. rewrite map_app. reflexivity.
Qed.

(** X2: when [register_face] returns success, the message counts 3
    photos, and the world it leaves holds the old records in their order
    followed by one new record under the name: its samples are the three
    descriptors in submission order, its primary descriptor is their
    entry-wise mean [((a + b) + c) / 3], of the same length, its count is 3
    and its time stamp the clock's; and the file holds that same mapping. *)
Theorem register_face_success_effect
        {F : Type} `{Scalar F} {image : Type}
        (detect_faces : image -> list face_coords)
        (extract_face_features : image -> face_coords -> list F)
        (now_isoformat : string)
        (images : list image) (name : string) (w w' : world F) (msg : string) :
  register_face detect_faces extract_face_features now_isoformat images name w
  = (Ok (true, msg), w') ->
  msg = "Face registered successfully with 3 high-quality photos!" /\
  exists d1 d2 d3,
    Forall2 (shows detect_faces extract_face_features) images [d1; d2; d3] /\
    length (np_divide (add_rows (add_rows d1 d2) d3) (of_Z 3)) = length d1 /\
    known_faces w'
    = known_faces w
      ++ [(name, enrolled_record now_isoformat
                   (np_divide (add_rows (add_rows d1 d2) d3) (of_Z 3))
                   d1 d2 d3)] /\
    list_names w' = list_names w ++ [name] /\
    face_data_file w' = FileJson (known_faces w').
Proof.
  apply register_face_success.
Qed.

Lemma register_face_success_effect_witness :
  exists w',
    register_face TestImage.detect_faces TestImage.extract_face_features
      Demo.clock [Demo.face 0 10; Demo.face 10 0; Demo.face 10 0] "dave"
      (Demo.world_of (F := float) [("carol", Demo.carol)])
    = (Ok (true, "Face registered successfully with 3 high-quality photos!"), w')
    /\ exists d1 d2 d3, list_names w' = ["carol"; "dave"] /\
                        known_faces w'
                        = [("carol", Demo.carol)]
                          ++ [("dave", enrolled_record Demo.clock
                                (np_divide (add_rows (add_rows d1 d2) d3) (of_Z 3))
                                d1 d2 d3)].
Proof.
  set (run := register_face TestImage.detect_faces
                TestImage.extract_face_features Demo.clock
                [Demo.face 0 10; Demo.face 10 0; Demo.face 10 0] "dave"
                (Demo.world_of (F := float) [("carol", Demo.carol)])).
  assert (Hrun : run
                 = (Ok (true, "Face registered successfully with 3 high-quality photos!"),
                    snd run)) by (vm_compute; reflexivity).
  exists (snd run). split; [exact Hrun|].
  destruct (register_face_success_effect _ _ _ _ _ _ _ _ Hrun)
    as [_ [d1 [d2 [d3 [_ [_ [Hkf [Hnames _]]]]]]]].
  exists d1, d2, d3. split; [exact Hnames | exact Hkf].
Defined.

(* ================================================================== *)
(** ** What the mutating operations keep *)
(* ================================================================== *)

Section Outcomes.
Context {F : Type} `{Scalar F} {image : Type}.
Variable detect_faces : image -> list face_coords.
Variable extract_face_features : image -> face_coords -> list F.
Variable now_isoformat : string.
Variable decode_image : string -> result (option image).

(** A call of the method either changes nothing or succeeds. *)
Lemma register_face_outcome (images : list image) (name : string) (w : world F) :
  snd (register_face detect_faces extract_face_features now_isoformat
                     images name w) = w \/
  exists msg,
    register_face detect_faces extract_face_features now_isoformat images name w
    = (Ok (true, msg),
       snd (register_face detect_faces extract_face_features now_isoformat
                          images name w)).
Proof.
  pose proof (register_face_unchanged detect_faces extract_face_features
                now_isoformat images name w) as Hun.
  destruct (register_face detect_faces extract_face_features now_isoformat
                          images name w) as [[[[|] msg] | e] w'] eqn:Hrun;
    simpl in *.
  - right. exists msg. reflexivity.
  - left. apply Hun. intros m. discriminate.
  - left. apply Hun. intros m. discriminate.
Qed.

(** The images the route hands to the method were decoded from the
    request, one per entry, and each shows exactly one face. *)
Lemma process_images_inr (images_data : list string) :
  forall (i : nat) (acc processed : list image),
    process_images detect_faces decode_image images_data i acc = inr processed ->
    exists imgs,
      processed = acc ++ imgs /\
      length imgs = length images_data /\
      Forall (fun img => length (detect_faces img) = 1) imgs.
Proof.
  induction images_data as [|image_data rest IH]; intros i acc processed; simpl.
  - intros Hrun. injection Hrun as <-. exists []. rewrite app_nil_r.
    repeat split. constructor.
  - destruct (bind _ _) as [[img|] | e]; try discriminate.
    destruct (Nat.eqb_spec (length (detect_faces img)) 1) as [Hone|];
      [|discriminate].
    simpl. intros Hrun. apply IH in Hrun.
    destruct Hrun as [imgs [-> [Hlen Hall]]].
    exists (img :: imgs). rewrite <- app_assoc. simpl.
    repeat split; [congruence | constructor; assumption].
Qed.

(** The world the route leaves is the one it was called in, or the one a
    successful call of the method leaves, made under the stripped name,
    which is not empty. *)
Lemma register_multiple_world (name_field : string)
      (images_data : list string) (w : world F) :
  snd (register_multiple detect_faces extract_face_features now_isoformat
                         decode_image name_field images_data w) = w \/
  (py_strip name_field <> "" /\
   exists processed msg,
     Forall (fun img => length (detect_faces img) = 1) processed /\
     register_face detect_faces extract_face_features now_isoformat
                   processed (py_strip name_field) w
     = (Ok (true, msg),
        snd (register_multiple detect_faces extract_face_features
               now_isoformat decode_image name_field images_data w))).
Proof.
  unfold register_multiple.
  destruct (String.eqb_spec (py_strip name_field) "") as [|Hname];
    [left; reflexivity|].
  destruct (negb (Nat.eqb (length images_data) 3)); [left; reflexivity|].
  destruct (process_images _ _ _ _ _) as [resp | processed] eqn:Hproc;
    [left; reflexivity|].
  apply process_images_inr in Hproc. destruct Hproc as [imgs [-> [_ Hone]]].
  simpl app.
  destruct (register_face_outcome imgs (py_strip name_field) w)
    as [Hsame | [msg Hok]].
  - left.
    destruct (register_face _ _ _ imgs _ w) as [[[ok m] | e] w'];
      simpl in *; exact Hsame.
  - right. split; [exact Hname|]. exists imgs, msg. split; [exact Hone|].
    rewrite Hok at 1. rewrite Hok. reflexivity.
Qed.

End Outcomes.

Lemma dict_del_keys_NoDup {V : Type} (d : dict V) (k : string) :
  NoDup (dict_keys d) -> NoDup (dict_keys (dict_del d k)).
Proof.
  unfold dict_keys, dict_del. induction d as [|[k' v] d IH]; simpl; intros Hnd.
  - constructor.
  - inversion Hnd as [|? ? Hnot Hnd']; subst.
    destruct (negb (String.eqb k' k)); simpl; [|exact (IH Hnd')].
    constructor; [|exact (IH Hnd')].
    intros Hin. apply Hnot. apply in_map_iff in Hin.
    destruct Hin as [kv [Hk Hin]]. apply filter_In in Hin.
    apply in_map_iff. exists kv. tauto.
Qed.

Lemma dict_del_Forall {V : Type} (P : string * V -> Prop)
      (d : dict V) (k : string) :
  Forall P d -> Forall P (dict_del d k).
Proof.
  intros Hall. apply Forall_forall. intros kv Hin.
  apply dict_del_In in Hin. exact (proj1 (Forall_forall P d) Hall kv (proj1 Hin)).
Qed.

Section Invariants.
Context {F : Type} `{Scalar F} {image : Type}.
Variable detect_faces : image -> list face_coords.
Variable extract_face_features : image -> face_coords -> list F.
Variable now_isoformat : string.
Variable decode_image : string -> result (option image).

Lemma register_face_success_fresh (images : list image) (name msg : string)
      (w w' : world F) :
  register_face detect_faces extract_face_features now_isoformat images name w
  = (Ok (true, msg), w') ->
  ~ In name (list_names w).
Proof.
  unfold register_face, list_names. intros Hrun.
  destruct (negb (Nat.eqb (length images) 3)); [discriminate|].
  destruct (dict_contains (known_faces w) name) eqn:Hname; [discriminate|].
  apply dict_contains_not_In. exact Hname.
Qed.

(** A property of the mapping that deleting keeps and that admits the
    record of a successful enrolment is kept by every operation. *)
Lemma kept_by_register_face (P : dict (face_data F) -> Prop)
      (images : list image) (name : string) (w : world F) :
  (forall d1 d2 d3,
      Forall2 (shows detect_faces extract_face_features) images [d1; d2; d3] ->
      length (np_divide (add_rows (add_rows d1 d2) d3) (of_Z 3)) = length d1 ->
      ~ In name (list_names w) ->
      P (known_faces w) ->
      P (known_faces w
         ++ [(name, enrolled_record now_isoformat
                      (np_divide (add_rows (add_rows d1 d2) d3) (of_Z 3))
                      d1 d2 d3)])) ->
  P (known_faces w) ->
  P (known_faces (snd (register_face detect_faces extract_face_features
                         now_isoformat images name w))).
Proof.
  intros Hadd HP.
  destruct (register_face_outcome detect_faces extract_face_features
              now_isoformat images name w) as [-> | [msg Hok]]; [exact HP|].
  pose proof (register_face_success_fresh _ _ _ _ _ Hok) as Hfresh.
  destruct (register_face_success _ _ _ _ _ _ _ _ Hok)
    as [_ [d1 [d2 [d3 [Hshow [Hlen [-> _]]]]]]].
  apply Hadd; assumption.
Qed.

End Invariants.

(** X3: a process started on any file holds what the file holds (nothing
    when it is missing or unreadable), and [register_face],
    [register_multiple] and [delete_face] keep the file equal to the
    mapping in memory: a restart at any moment loads the mapping the
    process held. *)
Theorem store_stays_persisted
        {F : Type} `{Scalar F} {image : Type}
        (detect_faces : image -> list face_coords)
        (extract_face_features : image -> face_coords -> list F)
        (now_isoformat : string)
        (decode_image : string -> result (option image)) :
  (forall f : file_state F, persisted (startup f)) /\
  (forall images name w,
      persisted w ->
      persisted (snd (register_face detect_faces extract_face_features
                        now_isoformat images name w))) /\
  (forall name_field images_data w,
      persisted w ->
      persisted (snd (register_multiple detect_faces extract_face_features
                        now_isoformat decode_image name_field images_data w))) /\
  (forall name (w : world F),
      persisted w -> persisted (snd (delete_face name w))).
Proof.
  assert (Hreg : forall images name w,
             persisted w ->
             persisted (snd (register_face detect_faces extract_face_features
                               now_isoformat images name w))).
  { intros images name w Hw.
    destruct (register_face_outcome detect_faces extract_face_features
                now_isoformat images name w) as [-> | [msg Hok]]; [exact Hw|].
    destruct (register_face_success _ _ _ _ _ _ _ _ Hok)
      as [_ [d1 [d2 [d3 [_ [_ [_ [_ Hfile]]]]]]]].
    unfold persisted. rewrite Hfile. reflexivity. }
  split; [intros f; reflexivity|]. split; [exact Hreg|]. split.
  - intros name_field images_data w Hw.
    destruct (register_multiple_world detect_faces extract_face_features
                now_isoformat decode_image name_field images_data w)
      as [-> | [_ [processed [msg [_ Hok]]]]]; [exact Hw|].
    pose proof (Hreg processed (py_strip name_field) w Hw) as Hp.
    rewrite Hok in Hp. exact Hp.
  - intros name w Hw. unfold delete_face.
    destruct (dict_contains (known_faces w) name); [reflexivity | exact Hw].
Qed.

Lemma store_stays_persisted_witness :
  persisted (Demo.world_of (F := float) Demo.store_ann_bob) /\
  persisted (snd (delete_face "bob" (Demo.world_of (F := float) Demo.store_ann_bob))).
Proof.
  assert (Hw : persisted (Demo.world_of (F := float) Demo.store_ann_bob))
    by reflexivity.
  split; [exact Hw|].
  exact (proj2 (proj2 (proj2
           (store_stays_persisted TestImage.detect_faces
              TestImage.extract_face_features Demo.clock
              (TestImage.decode_image []))))
           "bob" (Demo.world_of Demo.store_ann_bob) Hw).
Defined.

(** X4: the names of the mapping stay distinct: if they are, they are
    after [register_face], after [register_multiple] and after
    [delete_face]; a successful enrolment puts its name last. *)
Theorem names_stay_distinct
        {F : Type} `{Scalar F} {image : Type}
        (detect_faces : image -> list face_coords)
        (extract_face_features : image -> face_coords -> list F)
        (now_isoformat : string)
        (decode_image : string -> result (option image))
        (w : world F) :
  NoDup (list_names w) ->
  (forall images name,
      NoDup (list_names (snd (register_face detect_faces extract_face_features
                                now_isoformat images name w)))) /\
  (forall name_field images_data,
      NoDup (list_names (snd (register_multiple detect_faces
                                extract_face_features now_isoformat
                                decode_image name_field images_data w)))) /\
  (forall name, NoDup (list_names (snd (delete_face name w)))).
Proof.
  intros Hnd.
  assert (Hreg : forall images name,
             NoDup (list_names (snd (register_face detect_faces
                                       extract_face_features now_isoformat
                                       images name w)))).
  { intros images name. unfold list_names.
    apply (kept_by_register_face detect_faces extract_face_features
             now_isoformat (fun kf => NoDup (dict_keys kf))); [|exact Hnd].
    intros d1 d2 d3 _ _ Hfresh Hkf. unfold dict_keys. rewrite map_app. simpl.
    apply NoDup_app; [exact Hkf | repeat constructor; intros [] | ].
    intros x Hx [<- | []]. exact (Hfresh Hx). }
  split; [exact Hreg|]. split.
  - intros name_field images_data.
    destruct (register_multiple_world detect_faces extract_face_features
                now_isoformat decode_image name_field images_data w)
      as [-> | [_ [processed [msg [_ Hok]]]]]; [exact Hnd|].
    pose proof (Hreg processed (py_strip name_field)) as Hp.
    rewrite Hok in Hp. exact Hp.
  - intros name. unfold delete_face, list_names.
    destruct (dict_contains (known_faces w) name); [|exact Hnd].
    apply dict_del_keys_NoDup. exact Hnd.
Qed.

Lemma names_stay_distinct_witness :
  NoDup (list_names (Demo.world_of (F := float) Demo.store_ann_bob)) /\
  NoDup (list_names
           (snd (register_face TestImage.detect_faces
                   TestImage.extract_face_features Demo.clock
                   [Demo.face 0 1; Demo.face 0 1; Demo.face 0 1] "zoe"
                   (Demo.world_of (F := float) Demo.store_ann_bob)))).
Proof.
  assert (Hnd : NoDup (list_names (Demo.world_of (F := float) Demo.store_ann_bob))).
  { repeat constructor; simpl; intuition discriminate. }
  split; [exact Hnd|].
  exact (proj1 (names_stay_distinct TestImage.detect_faces
                  TestImage.extract_face_features Demo.clock
                  (TestImage.decode_image [])
                  (Demo.world_of Demo.store_ann_bob) Hnd)
           [Demo.face 0 1; Demo.face 0 1; Demo.face 0 1] "zoe").
Defined.

Section RouteSuccess.
Context {F : Type} `{Scalar F} {image : Type}.
Variable detect_faces : image -> list face_coords.
Variable extract_face_features : image -> face_coords -> list F.
Variable now_isoformat : string.
Variable decode_image : string -> result (option image).

(** When the loop over the photos answers itself, it answers a failure. *)
Lemma process_images_inl (images_data : list string) :
  forall (i : nat) (acc : list image) (resp : response),
    process_images detect_faces decode_image images_data i acc = inl resp ->
    success resp = false.
Proof.
  induction images_data as [|d ds IH]; intros i acc resp; simpl; [discriminate|].
  destruct (bind _ _) as [[img|] | e].
  - destruct (negb (Nat.eqb (length (detect_faces img)) 1)).
    + intros Hr. injection Hr as <-. reflexivity.
    + apply IH.
  - intros Hr. injection Hr as <-. reflexivity.
  - intros Hr. injection Hr as <-. reflexivity.
Qed.

(** The route answers success only with the success of the method, called
    under the stripped name. *)
Lemma register_multiple_success (name_field : string)
      (images_data : list string) (w : world F) :
  success (fst (register_multiple detect_faces extract_face_features
                  now_isoformat decode_image name_field images_data w)) = true ->
  py_strip name_field <> "" /\
  exists processed,
    register_face detect_faces extract_face_features now_isoformat
                  processed (py_strip name_field) w
    = (Ok (true, message (fst (register_multiple detect_faces
                                 extract_face_features now_isoformat
                                 decode_image name_field images_data w))),
       snd (register_multiple detect_faces extract_face_features
              now_isoformat decode_image name_field images_data w)).
Proof.
  unfold register_multiple.
  destruct (String.eqb_spec (py_strip name_field) "") as [|Hname];
    [discriminate|].
  destruct (negb (Nat.eqb (length images_data) 3)); [discriminate|].
  destruct (process_images _ _ _ _ _) as [resp | processed] eqn:Hproc.
  - simpl. intros Hok. rewrite (process_images_inl _ _ _ _ Hproc) in Hok.
    discriminate.
  - destruct (register_face _ _ _ processed _ w) as [[[ok m] | e] w'] eqn:Hrun;
      simpl; intros Hok; [|discriminate].
    subst ok. split; [exact Hname|]. exists processed. exact Hrun.
Qed.

End RouteSuccess.

(** X5: through the routes the mapping only ever holds records of the
    data model: if every record has a non-empty name and carries its
    samples, this is still so after [register_multiple] (and
    [register_face_old], the same code) and after [delete_face]; and a
    successful [register_multiple] has put the stripped, non-empty name
    last. *)
Theorem routes_keep_enrolled_shape
        {F : Type} `{Scalar F} {image : Type}
        (detect_faces : image -> list face_coords)
        (extract_face_features : image -> face_coords -> list F)
        (now_isoformat : string)
        (decode_image : string -> result (option image))
        (w : world F) :
  Forall enrolled_shape (known_faces w) ->
  (forall name_field images_data,
      Forall enrolled_shape
             (known_faces (snd (register_multiple detect_faces
                                  extract_face_features now_isoformat
                                  decode_image name_field images_data w))) /\
      Forall enrolled_shape
             (known_faces (snd (register_face_old detect_faces
                                  extract_face_features now_isoformat
                                  decode_image name_field images_data w))) /\
      (success (fst (register_multiple detect_faces extract_face_features
                       now_isoformat decode_image name_field images_data w))
       = true ->
       py_strip name_field <> "" /\
       list_names (snd (register_multiple detect_faces extract_face_features
                          now_isoformat decode_image name_field images_data w))
       = list_names w ++ [py_strip name_field])) /\
  (forall name,
      Forall enrolled_shape (known_faces (snd (delete_face name w)))).
Proof.
  intros Hshape. split.
  - intros name_field images_data.
    assert (Hroute : Forall enrolled_shape
                       (known_faces (snd (register_multiple detect_faces
                                            extract_face_features now_isoformat
                                            decode_image name_field images_data w)))).
    { destruct (register_multiple_world detect_faces extract_face_features
                  now_isoformat decode_image name_field images_data w)
        as [-> | [Hname [processed [msg [_ Hok]]]]]; [exact Hshape|].
      destruct (register_face_success _ _ _ _ _ _ _ _ Hok)
        as [_ [d1 [d2 [d3 [_ [_ [-> _]]]]]]].
      apply Forall_app. split; [exact Hshape|].
      constructor; [|constructor]. split; [exact Hname | discriminate]. }
    split; [exact Hroute|]. split; [exact Hroute|].
    intros Hok.
    destruct (register_multiple_success detect_faces extract_face_features
                now_isoformat decode_image name_field images_data w Hok)
      as [Hname [processed Hrun]].
    split; [exact Hname|].
    destruct (register_face_success _ _ _ _ _ _ _ _ Hrun)
      as [_ [d1 [d2 [d3 [_ [_ [_ [Hnames _]]]]]]]].
    exact Hnames.
  - intros name. unfold delete_face.
    destruct (dict_contains (known_faces w) name); [|exact Hshape].
    apply dict_del_Forall. exact Hshape.
Qed.

Lemma routes_keep_enrolled_shape_witness :
  Forall enrolled_shape (Demo.store_bob (F := float)) /\
  (exists w',
      register_multiple TestImage.detect_faces TestImage.extract_face_features
        Demo.clock (TestImage.decode_image [("one", Demo.face 1 0)])
        Demo.padded_zoe ["data:,one"; "data:,one"; "data:,one"]
        (Demo.world_of (F := float) Demo.store_bob)
      = ({| success := true; message := msg_registered 3 |}, w') /\
      list_names w' = ["bob"; "zoe"] /\
      Forall enrolled_shape (known_faces w')) /\
  Forall enrolled_shape
    (known_faces (snd (delete_face "bob"
                         (Demo.world_of (F := float) Demo.store_bob)))).
Proof.
  assert (Hshape : Forall enrolled_shape (Demo.store_bob (F := float))).
  { repeat constructor; discriminate. }
  set (run := register_multiple TestImage.detect_faces
                TestImage.extract_face_features Demo.clock
                (TestImage.decode_image [("one", Demo.face 1 0)])
                Demo.padded_zoe ["data:,one"; "data:,one"; "data:,one"]
                (Demo.world_of (F := float) Demo.store_bob)).
  assert (Hrun : run = ({| success := true; message := msg_registered 3 |},
                        snd run))
    by (vm_compute; reflexivity).
  assert (Hok : success (fst run) = true) by (vm_compute; reflexivity).
  destruct (routes_keep_enrolled_shape TestImage.detect_faces
              TestImage.extract_face_features Demo.clock
              (TestImage.decode_image [("one", Demo.face 1 0)])
              (Demo.world_of Demo.store_bob) Hshape) as [Hreg Hdel].
  destruct (Hreg Demo.padded_zoe ["data:,one"; "data:,one"; "data:,one"])
    as [Hkeep [_ Hsucc]].
  destruct (Hsucc Hok) as [_ Hnames].
  split; [exact Hshape|]. split; [|exact (Hdel "bob")].
  exists (snd run). split; [exact Hrun|]. split; [exact Hnames | exact Hkeep].
Defined.

(** X6: the descriptors of the mapping keep one length: if they have
    length [L] and the extractor returns [L] numbers for the faces of the
    submitted images, they have length [L] after [register_face], the mean
    included, and after [delete_face]. *)
Theorem descriptor_lengths_kept
        {F : Type} `{Scalar F} {image : Type}
        (detect_faces : image -> list face_coords)
        (extract_face_features : image -> face_coords -> list F)
        (now_isoformat : string)
        (L : nat) (w : world F) :
  store_lengths L (known_faces w) ->
  (forall images name,
      Forall (fun img => forall c, In c (detect_faces img) ->
                                   length (extract_face_features img c) = L)
             images ->
      store_lengths L
        (known_faces (snd (register_face detect_faces extract_face_features
                             now_isoformat images name w)))) /\
  (forall name, store_lengths L (known_faces (snd (delete_face name w)))).
Proof.
  intros Hlen. split.
  - intros images name Hext.
    apply (kept_by_register_face detect_faces extract_face_features
             now_isoformat (store_lengths L)); [|exact Hlen].
    intros d1 d2 d3 Hshow Hmean _ Hkf.
    assert (Hd : Forall (fun d => length d = L) [d1; d2; d3]).
    { clear Hmean. revert Hext.
      induction Hshow as [|img d imgs ds [c [Hdet <-]] _ IH]; intros Hext;
        [constructor|].
      inversion Hext as [|? ? Himg Hrest]; subst.
      constructor; [|exact (IH Hrest)].
      apply Himg. rewrite Hdet. left. reflexivity. }
    unfold store_lengths. apply Forall_app. split; [exact Hkf|].
    constructor; [|constructor]. split; simpl.
    + rewrite Hmean. exact (Forall_inv Hd).
    + intros l Hl. injection Hl as <-. exact Hd.
  - intros name. unfold delete_face.
    destruct (dict_contains (known_faces w) name); [|exact Hlen].
    apply dict_del_Forall. exact Hlen.
Qed.

Lemma descriptor_lengths_kept_witness :
  store_lengths 2 (Demo.store_bob (F := float)) /\
  store_lengths 2
    (known_faces (snd (register_face TestImage.detect_faces
                         TestImage.extract_face_features Demo.clock
                         [Demo.face 1 0; Demo.face 1 0; Demo.face 1 0] "ann"
                         (Demo.world_of (F := float) Demo.store_bob)))).
Proof.
  assert (Hlen : store_lengths 2 (Demo.store_bob (F := float))).
  { repeat constructor. intros l Hl. injection Hl as <-. repeat constructor. }
  split; [exact Hlen|].
  apply (proj1 (descriptor_lengths_kept TestImage.detect_faces
                  TestImage.extract_face_features Demo.clock 2
                  (Demo.world_of Demo.store_bob) Hlen)).
  repeat constructor; intros c [<- | []]; reflexivity.
Defined.

(** X7: after a successful enrolment the name is taken: every further
    call of [register_face] under that name with three images, whatever
    they show, answers that the person is already registered and changes
    nothing. *)
Theorem register_face_same_name_twice
        {F : Type} `{Scalar F} {image : Type}
        (detect_faces : image -> list face_coords)
        (extract_face_features : image -> face_coords -> list F)
        (now_isoformat : string)
        (images : list image) (name : string) (w w' : world F) (msg : string) :
  register_face detect_faces extract_face_features now_isoformat images name w
  = (Ok (true, msg), w') ->
  forall (later : string) (images' : list image),
    length images' = 3 ->
    register_face detect_faces extract_face_features later images' name w'
    = (Ok (false, msg_name_registered name), w').
Proof.
  intros Hok later images' Hlen.
  destruct (register_face_success _ _ _ _ _ _ _ _ Hok)
    as [_ [d1 [d2 [d3 [_ [_ [_ [Hnames _]]]]]]]].
  unfold register_face. rewrite Hlen. simpl.
  assert (Hin : dict_contains (known_faces w') name = true).
  { apply dict_contains_In. unfold list_names in Hnames. rewrite Hnames.
    apply in_or_app. right. left. reflexivity. }
  rewrite Hin. reflexivity.
Qed.

Lemma register_face_same_name_twice_witness :
  exists w',
    register_face TestImage.detect_faces TestImage.extract_face_features
      Demo.clock [Demo.face 1 0; Demo.face 1 0; Demo.face 1 0] "ann"
      (Demo.world_of (F := float) Demo.store_bob)
    = (Ok (true, msg_registered 3), w') /\
    register_face TestImage.detect_faces TestImage.extract_face_features
      Demo.clock [Demo.no_face; Demo.no_face; Demo.no_face] "ann" w'
    = (Ok (false, msg_name_registered "ann"), w').
Proof.
  set (run := register_face TestImage.detect_faces
                TestImage.extract_face_features Demo.clock
                [Demo.face 1 0; Demo.face 1 0; Demo.face 1 0] "ann"
                (Demo.world_of (F := float) Demo.store_bob)).
  assert (Hrun : run = (Ok (true, msg_registered 3), snd run))
    by (vm_compute; reflexivity).
  exists (snd run). split; [exact Hrun|].
  exact (register_face_same_name_twice _ _ _ _ _ _ _ _ Hrun Demo.clock
           [Demo.no_face; Demo.no_face; Demo.no_face] eq_refl).
Defined.

(* ================================================================== *)
(** ** More on the Similarity Scorer *)
(* ================================================================== *)

Module CommutativeFacts.

Lemma SFmul_comm (prec emax : Z) (a b : spec_float) :
  SFmul prec emax a b = SFmul prec emax b a.
Proof.
  destruct a as [sa|sa| |sa ma ea]; destruct b as [sb|sb| |sb mb eb]; simpl;
    try reflexivity; try (rewrite xorb_comm; reflexivity).
  rewrite xorb_comm, Pos.mul_comm, Z.add_comm. reflexivity.
Qed.

End CommutativeFacts.

#[export] Instance float64_commutative : ScalarCommutative float.
Proof.
  split. intros x y. cbn [mul float64]. apply Prim2SF_inj.
  rewrite !mul_spec. apply CommutativeFacts.SFmul_comm.
Qed.

#[export] Instance exact_commutative : ScalarCommutative R.
Proof. split. intros x y. cbn [mul exact]. apply Rmult_comm. Qed.

Lemma sum_products_sym {F : Type} `{ScalarCommutative F} (u : list F) :
  forall (v : list F) (acc : F), sum_products acc u v = sum_products acc v u.
Proof.
  induction u as [|x u IH]; intros [|y v] acc; simpl; try reflexivity.
  rewrite (mul_comm x y). apply IH.
Qed.

(** X8: the scorer is symmetric: for descriptors of one length,
    [compare_faces] gives the same verdict and the same similarity whichever
    descriptor comes first; at float64 to the last bit, since the products
    commute and are added in the same order. *)
Theorem compare_faces_symmetric
        {F : Type} `{ScalarCommutative F} (u v : list F) (t : F) :
  length u = length v ->
  compare_faces u v t = compare_faces v u t.
Proof.
  intros Hlen.
  rewrite (compare_faces_ok u v t Hlen), (compare_faces_ok v u t (eq_sym Hlen)).
  unfold cosine. rewrite sum_products_sym. reflexivity.
Qed.

Lemma compare_faces_symmetric_witness :
  compare_faces (Demo.vec (F := float) 2 3) (Demo.vec 0 10) c0_6
  = compare_faces (Demo.vec (F := float) 0 10) (Demo.vec 2 3) c0_6.
Proof. apply compare_faces_symmetric. reflexivity. Defined.

(* ------------------------------------------------------------------ *)
(** *** The all-zero descriptor at [float64] *)

Module ZeroFacts.

Lemma ltb_nan_l (t : float) : PrimFloat.ltb nan t = false.
Proof.
  rewrite ltb_spec. change (Prim2SF nan) with S754_nan. reflexivity.
Qed.

Lemma cosine_zero_nan (n : nat) (d : list float) :
  length d = S n -> cosine (repeat (of_Z 0) (S n)) d = nan.
Proof.
  intros Hlen. unfold cosine. rewrite Float64Facts.normalise_zero.
  apply (Float64Facts.sum_products_nan _ n).
  rewrite np_divide_length. exact Hlen.
Qed.

(** Against the zero query a record neither matches nor is refined. *)
Lemma compare_record_zero (n : nat) (fd : face_data float) :
  length (features fd) = S n ->
  compare_record (repeat (of_Z 0) (S n)) fd = Ok (false, nan).
Proof.
  intros Hlen. unfold compare_record.
  rewrite compare_faces_ok by (rewrite repeat_length; congruence).
  rewrite (cosine_zero_nan n _ Hlen). cbn [bind ltb float64].
  rewrite Float64Facts.ltb_nan_r, ltb_nan_l.
  destruct (all_features fd); reflexivity.
Qed.

Lemma best_over_zero (n : nat) (kf : dict (face_data float)) :
  Forall (fun kv => length (features (snd kv)) = S n) kf ->
  forall best_match best,
    best_over kf (repeat (of_Z 0) (S n)) best_match best
    = Ok (best_match, best).
Proof.
  induction 1 as [|[name fd] kf Hfd _ IH]; intros best_match best;
    [reflexivity|].
  simpl in Hfd. cbn [best_over]. rewrite (compare_record_zero n fd Hfd).
  cbn [bind ltb float64]. rewrite Float64Facts.ltb_nan_r. apply IH.
Qed.

Lemma record_similarb_zero (n : nat) (t : float) (fd : face_data float) :
  record_lengths (S n) fd ->
  record_similarb (repeat (of_Z 0) (S n)) t fd = false.
Proof.
  intros [Hprim Hsamp]. unfold record_similarb.
  rewrite (cosine_zero_nan n _ Hprim). cbn [ltb float64].
  rewrite Float64Facts.ltb_nan_r. cbn [orb].
  unfold samples. destruct (all_features fd) as [l|]; [|reflexivity].
  specialize (Hsamp l eq_refl).
  induction Hsamp as [|d l Hd _ IH]; [reflexivity|].
  cbn [existsb]. rewrite (cosine_zero_nan n d Hd).
  cbn [ltb float64]. rewrite Float64Facts.ltb_nan_r. exact IH.
Qed.

Lemma check_face_similarity_zero (n : nat) (t : float)
      (kf : dict (face_data float)) :
  store_lengths (S n) kf ->
  check_face_similarity kf (repeat (of_Z 0) (S n)) t = Ok None.
Proof.
  induction 1 as [|[name fd] kf Hfd _ IH]; [reflexivity|].
  simpl in Hfd.
  rewrite check_face_similarity_cons by (rewrite repeat_length; exact Hfd).
  rewrite (record_similarb_zero n t fd Hfd). exact IH.
Qed.

End ZeroFacts.

(** X11: at [float64] an all-zero descriptor (a black crop) is nobody and
    nobody's duplicate. Whatever the store of matching descriptor length
    holds, even a record with that very descriptor, [recognize_face]
    reports the face as 'Unknown' with the confidence 0 it starts at, and
    the Duplicate Guard returns [None] at every threshold: every comparison
    yields nan. *)
Theorem zero_descriptor_is_nobody
        {image : Type}
        (extract_face_features : image -> face_coords -> list float)
        (n : nat) (kf : dict (face_data float))
        (img : image) (coords : face_coords) :
  extract_face_features img coords = repeat (of_Z 0) (S n) ->
  store_lengths (S n) kf ->
  recognize_one extract_face_features kf img coords = Ok (unknown_result coords)
  /\ forall t, check_face_similarity kf (extract_face_features img coords) t
               = Ok None.
Proof.
  intros Hzero Hlen. split.
  - unfold recognize_one. rewrite Hzero.
    rewrite (ZeroFacts.best_over_zero n kf); [reflexivity|].
    apply Forall_forall. intros kv Hin.
    exact (proj1 (proj1 (Forall_forall _ kf) Hlen kv Hin)).
  - intros t. rewrite Hzero. apply ZeroFacts.check_face_similarity_zero.
    exact Hlen.
Qed.

Lemma zero_descriptor_is_nobody_witness :
  recognize_one TestImage.extract_face_features
    [("night", Demo.record (Demo.vec 0 0) [Demo.vec 0 0]); ("bob", Demo.bob)]
    (Demo.face (F := float) 0 0) (0, 0, 100, 100)%Z
  = Ok (unknown_result (0, 0, 100, 100)%Z).
Proof.
  apply (proj1 (zero_descriptor_is_nobody TestImage.extract_face_features 1
                  [("night", Demo.record (Demo.vec 0 0) [Demo.vec 0 0]);
                   ("bob", Demo.bob)]
                  (Demo.face 0 0) (0, 0, 100, 100)%Z eq_refl
                  ltac:(repeat constructor; intros l Hl; injection Hl as <-;
                        repeat constructor))).
Defined.

(* ================================================================== *)
(** ** The guard at two thresholds, and the live preview *)
(* ================================================================== *)

#[export] Instance float64_preview : PreviewOrder float.
Proof. split. vm_compute. reflexivity. Qed.

#[export] Instance exact_preview : PreviewOrder R.
Proof.
  split. apply ExactFacts.ltb_true. unfold c0_80, c0_85, lit.
  cbn [of_Z div exact]. lra.
Qed.

Section GuardThresholds.
Context {F : Type} {SF : Scalar F} {SS : ScalarStrict F}.
Variable feats : list F.

Lemma check_face_similarity_none_iff (t : F) (kf : dict (face_data F)) :
  store_lengths (length feats) kf ->
  (check_face_similarity kf feats t = Ok None <->
   Forall (fun kv => ~ record_similar feats t (snd kv)) kf).
Proof.
  intros Hlen.
  destruct (check_face_similarity_inv feats t kf Hlen)
    as [[Hnone Hall] | [pre [name [fd [post [Heq [_ [Hsim Hres]]]]]]]].
  - split; intros _; assumption.
  - split; [intros Hnone; congruence|].
    intros Hall. exfalso. subst kf.
    apply Forall_app in Hall. destruct Hall as [_ Hall].
    exact (Forall_inv Hall Hsim).
Qed.

Lemma check_face_similarity_some (t : F) (kf : dict (face_data F)) :
  store_lengths (length feats) kf ->
  Exists (fun kv => record_similar feats t (snd kv)) kf ->
  exists name, check_face_similarity kf feats t = Ok (Some name) /\
               In name (dict_keys kf).
Proof.
  intros Hlen Hex.
  destruct (check_face_similarity_inv feats t kf Hlen)
    as [[_ Hall] | [pre [name [fd [post [Heq [_ [_ Hres]]]]]]]].
  - exfalso. apply Exists_exists in Hex. destruct Hex as [kv [Hin Hsim]].
    exact (proj1 (Forall_forall _ kf) Hall kv Hin Hsim).
  - exists name. split; [exact Hres|]. subst kf. unfold dict_keys.
    rewrite map_app. apply in_or_app. right. left. reflexivity.
Qed.

(** What is similar at a threshold is similar at every lower one. *)
Lemma record_similar_lower (t t' : F) (fd : face_data F) :
  record_lengths (length feats) fd ->
  ltb t t' = true ->
  record_similar feats t' fd -> record_similar feats t fd.
Proof.
  intros [Hprim Hsamp] Hlt.
  assert (Hlow : forall d, length feats = length d ->
                           similar feats d t' -> similar feats d t).
  { intros d Hd Hs. apply (similar_iff feats d t Hd).
    apply (similar_iff feats d t' Hd) in Hs.
    exact (ltb_trans _ _ _ Hlt Hs). }
  intros [Hp | [d [Hd Hs]]].
  - left. apply Hlow; [symmetry; exact Hprim | exact Hp].
  - right. exists d. split; [exact Hd|]. apply Hlow; [|exact Hs].
    unfold samples in Hd. destruct (all_features fd) as [l|]; [|contradiction].
    symmetry. exact (proj1 (Forall_forall _ l) (Hsamp l eq_refl) d Hd).
Qed.

End GuardThresholds.

(** X12: lowering the threshold never lets a duplicate through: on a
    store of one descriptor length, when the Duplicate Guard names a record
    at a threshold it names a record of the mapping at every lower
    threshold; so whatever enrolment rejects as a duplicate at 0.85 the
    live preview flags at 0.80. *)
Theorem check_face_similarity_lower_threshold
        {F : Type} {SF : Scalar F} {SS : ScalarStrict F} {PO : PreviewOrder F}
        (kf : dict (face_data F)) (feats : list F) :
  store_lengths (length feats) kf ->
  (forall t t' name,
      ltb t t' = true ->
      check_face_similarity kf feats t' = Ok (Some name) ->
      exists name', check_face_similarity kf feats t = Ok (Some name') /\
                    In name' (dict_keys kf)) /\
  (forall name,
      check_face_similarity kf feats c0_85 = Ok (Some name) ->
      exists name', check_face_similarity kf feats c0_80 = Ok (Some name') /\
                    In name' (dict_keys kf)).
Proof.
  intros Hlen.
  assert (Hgen : forall t t' name,
             ltb t t' = true ->
             check_face_similarity kf feats t' = Ok (Some name) ->
             exists name', check_face_similarity kf feats t = Ok (Some name') /\
                           In name' (dict_keys kf)).
  { intros t t' name Hlt Hres.
    apply check_face_similarity_some; [exact Hlen|].
    destruct (check_face_similarity_inv feats t' kf Hlen)
      as [[Hnone _] | [pre [n [fd [post [Heq [_ [Hsim _]]]]]]]];
      [congruence|].
    apply Exists_exists. exists (n, fd). split.
    - subst kf. apply in_or_app. right. left. reflexivity.
    - apply (record_similar_lower feats t t'); [|exact Hlt | exact Hsim].
      apply (proj1 (Forall_forall _ kf) Hlen (n, fd)).
      subst kf. apply in_or_app. right. left. reflexivity. }
  split; [exact Hgen|].
  intros name. apply Hgen. exact c0_80_lt_c0_85.
Qed.

Lemma check_face_similarity_lower_threshold_witness :
  store_lengths (length (Demo.vec (F := float) 3 4)) (Demo.store_ann_bob (F := float)) /\
  exists name',
    check_face_similarity (Demo.store_ann_bob (F := float)) (Demo.vec 3 4) c0_80
    = Ok (Some name').
Proof.
  assert (Hlen : store_lengths (length (Demo.vec (F := float) 3 4))
                               (Demo.store_ann_bob (F := float))).
  { repeat constructor; intros l Hl; injection Hl as <-; repeat constructor. }
  split; [exact Hlen|].
  destruct (proj2 (check_face_similarity_lower_threshold
                     Demo.store_ann_bob (Demo.vec (F := float) 3 4) Hlen) "bob")
    as [name' [Hres _]].
  - vm_compute. reflexivity.
  - exists name'. exact Hres.
Defined.

Section PreviewFacts.
Context {F : Type} {SF : Scalar F} {image : Type}.
Variable extract_face_features : image -> face_coords -> list F.
Variable kf : dict (face_data F).
Variable img : image.

(** What the preview records for one face. *)
Let previewed (c : face_coords) (f : preview_face) : Prop :=
  p_coordinates f = c /\
  check_face_similarity kf (extract_face_features img c) c0_80
  = Ok (p_duplicate_name f) /\
  p_is_duplicate f
  = match p_duplicate_name f with Some _ => true | None => false end.

Lemma preview_faces_ok (faces : list face_coords) :
  (forall c, In c faces ->
             store_lengths (length (extract_face_features img c)) kf) ->
  exists face_results,
    preview_faces extract_face_features kf img faces = Ok face_results /\
    Forall2 previewed faces face_results.
Proof.
  induction faces as [|c faces IH]; intros Hlen.
  - exists []. split; [reflexivity | constructor].
  - destruct IH as [rs [Hrs Hall]].
    { intros c' Hc'. apply Hlen. right. exact Hc'. }
    assert (Hret : exists r,
               check_face_similarity kf (extract_face_features img c) c0_80
               = Ok r).
    { destruct (check_face_similarity_inv (extract_face_features img c) c0_80 kf
                  (Hlen c (or_introl eq_refl)))
        as [[Hnone _] | [pre [name [fd [post [_ [_ [_ Hres]]]]]]]];
        eexists; eassumption. }
    destruct Hret as [r Hr].
    eexists. cbn [preview_faces]. rewrite Hr. cbn [bind]. rewrite Hrs.
    cbn [bind]. split; [reflexivity|].
    constructor; [|exact Hall]. repeat split. exact Hr.
Qed.

Lemma previewed_flags (faces : list face_coords)
      (face_results : list preview_face) :
  Forall2 previewed faces face_results ->
  (forall c, In c faces ->
             store_lengths (length (extract_face_features img c)) kf) ->
  map p_coordinates face_results = faces /\
  (existsb p_is_duplicate face_results = false <->
   forall c, In c faces ->
             Forall (fun kv => ~ record_similar (extract_face_features img c)
                                                c0_80 (snd kv)) kf) /\
  Forall (fun n => In n (dict_keys kf)) (duplicate_names_of face_results).
Proof.
  induction 1 as [|c f faces rs [Hc [Hchk Hflag]] _ IH]; intros Hlen.
  - split; [reflexivity|]. split; [|constructor].
    split; [intros _ c []| reflexivity].
  - destruct IH as [Hcoords [Hiff Hnames]].
    { intros c' Hc'. apply Hlen. right. exact Hc'. }
    pose proof (Hlen c (or_introl eq_refl)) as Hlc.
    pose proof (check_face_similarity_none_iff
                  (extract_face_features img c) c0_80 kf Hlc) as Hnone.
    split; [simpl; congruence|]. split.
    + cbn [existsb]. rewrite orb_false_iff, Hiff, Hflag. split.
      * intros [Hf Hrest] c' [<- | Hc']; [|exact (Hrest c' Hc')].
        apply Hnone. rewrite Hchk.
        destruct (p_duplicate_name f); [discriminate | reflexivity].
      * intros Hall. split; [|intros c' Hc'; apply Hall; right; exact Hc'].
        pose proof (proj2 Hnone (Hall c (or_introl eq_refl))) as Hn.
        rewrite Hchk in Hn. injection Hn as ->. reflexivity.
    + unfold duplicate_names_of in *. cbn [filter]. rewrite Hflag.
      destruct (p_duplicate_name f) as [n|] eqn:Hn; [|exact Hnames].
      cbn [map]. rewrite Hn. constructor; [|exact Hnames].
      destruct (check_face_similarity_inv (extract_face_features img c) c0_80 kf Hlc)
        as [[Hnone' _] | [pre [name [fd [post [Heq [_ [_ Hres]]]]]]]];
        [congruence|].
      assert (name = n) by congruence. subst name kf. unfold dict_keys.
      rewrite map_app. apply in_or_app. right. left. reflexivity.
Qed.

End PreviewFacts.

(** X13: the live preview [detect_faces_endpoint], given a decodable
    image and a store of the descriptors' length, lists one entry per
    detected face in the detector's order, and answers success exactly when
    no record is similar at 0.80 to any of the faces; then it counts the
    faces, so an image without any face is answered with success and
    'Detected 0 face(s) - ready for registration'. Otherwise it answers
    failure with ['duplicate_detected'] set, and every name it lists is a
    name of the mapping. *)
Theorem detect_faces_endpoint_spec
        {F : Type} {SF : Scalar F} {image : Type}
        (detect_faces : image -> list face_coords)
        (extract_face_features : image -> face_coords -> list F)
        (decode_image : string -> result (option image))
        (image_data payload : string) (img : image) (w : world F) :
  image_data <> "" ->
  py_index (split_comma image_data) 1 = Ok payload ->
  decode_image payload = Ok (Some img) ->
  (forall c, In c (detect_faces img) ->
             store_lengths (length (extract_face_features img c))
                           (known_faces w)) ->
  map p_coordinates
      (pv_faces (detect_faces_endpoint detect_faces extract_face_features
                   decode_image (Some image_data) w))
  = detect_faces img /\
  (pv_success (detect_faces_endpoint detect_faces extract_face_features
                 decode_image (Some image_data) w) = true <->
   forall c, In c (detect_faces img) ->
             Forall (fun kv => ~ record_similar (extract_face_features img c)
                                                c0_80 (snd kv))
                    (known_faces w)) /\
  (pv_success (detect_faces_endpoint detect_faces extract_face_features
                 decode_image (Some image_data) w) = true ->
   pv_message (detect_faces_endpoint detect_faces extract_face_features
                 decode_image (Some image_data) w)
   = msg_detected (length (detect_faces img)) /\
   pv_duplicate_detected (detect_faces_endpoint detect_faces
                            extract_face_features decode_image
                            (Some image_data) w) = Some false) /\
  (pv_success (detect_faces_endpoint detect_faces extract_face_features
                 decode_image (Some image_data) w) = false ->
   pv_duplicate_detected (detect_faces_endpoint detect_faces
                            extract_face_features decode_image
                            (Some image_data) w) = Some true /\
   Forall (fun n => In n (list_names w))
          (duplicate_names_of
             (pv_faces (detect_faces_endpoint detect_faces
                          extract_face_features decode_image
                          (Some image_data) w)))) /\
  (detect_faces img = [] ->
   detect_faces_endpoint detect_faces extract_face_features decode_image
                         (Some image_data) w
   = {| pv_success := true;
        pv_message := "Detected 0 face(s) - ready for registration";
        pv_faces := [];
        pv_duplicate_detected := Some false |}).
Proof.
  intros Hne Hidx Hdec Hlen. unfold detect_faces_endpoint.
  destruct image_data as [|a rest]; [contradiction|].
  rewrite Hidx. cbn [bind]. rewrite Hdec.
  destruct (preview_faces_ok extract_face_features
              (known_faces w) img (detect_faces img) Hlen) as [rs [Hrs Hall]].
  rewrite Hrs.
  destruct (previewed_flags extract_face_features (known_faces w)
              img (detect_faces img) rs Hall Hlen) as [Hcoords [Hiff Hnames]].
  split; [|split; [|split; [|split]]].
  - destruct (existsb p_is_duplicate rs); exact Hcoords.
  - rewrite <- Hiff. destruct (existsb p_is_duplicate rs); simpl;
      split; congruence.
  - destruct (existsb p_is_duplicate rs); simpl; [discriminate|].
    intros _. split; reflexivity.
  - destruct (existsb p_is_duplicate rs); simpl; [|discriminate].
    intros _. split; [reflexivity | exact Hnames].
  - intros Hnone. rewrite Hnone in Hrs. cbn [preview_faces] in Hrs.
    injection Hrs as <-. rewrite Hnone. reflexivity.
Qed.

Lemma detect_faces_endpoint_spec_witness :
  detect_faces_endpoint TestImage.detect_faces TestImage.extract_face_features
    (TestImage.decode_image [("AAAA", Demo.no_face)])
    (Some "data:image/jpeg;base64,AAAA")
    (Demo.world_of (F := float) Demo.store_bob)
  = {| pv_success := true;
       pv_message := "Detected 0 face(s) - ready for registration";
       pv_faces := [];
       pv_duplicate_detected := Some false |}.
Proof.
  refine (proj2 (proj2 (proj2 (proj2
            (detect_faces_endpoint_spec
               TestImage.detect_faces TestImage.extract_face_features
               (TestImage.decode_image [("AAAA", Demo.no_face)])
               "data:image/jpeg;base64,AAAA" "AAAA" Demo.no_face
               (Demo.world_of (F := float) Demo.store_bob) _ eq_refl eq_refl _))))
            eq_refl).
  - discriminate.
  - intros c [].
Defined.

(* ================================================================== *)
(** ** After an enrolment *)
(* ================================================================== *)

Section AfterEnrolment.
Context {F : Type} {SF : Scalar F} {SS : ScalarStrict F} {TO : ThresholdOrder F}.
Context {image : Type}.
Variable detect_faces : image -> list face_coords.
Variable extract_face_features : image -> face_coords -> list F.

Lemma shown_among (images : list image) (ds : list (list F)) (img : image) :
  Forall2 (shows detect_faces extract_face_features) images ds ->
  In img images ->
  exists coords, detect_faces img = [coords] /\
                 In (extract_face_features img coords) ds.
Proof.
  induction 1 as [|i d imgs ds' [c [Hdet Hd]] _ IH]; intros Hin;
    [contradiction|].
  destruct Hin as [-> | Hin].
  - exists c. split; [exact Hdet | left; symmetry; exact Hd].
  - destruct (IH Hin) as [c' [Hdet' Hin']]. exists c'.
    split; [exact Hdet' | right; exact Hin'].
Qed.

(** A successful enrolment leaves, for each of its images, a record with
    the image's descriptor among its samples. *)
Lemma enrolled_sample (now_isoformat : string) (images : list image)
      (name msg : string) (w w' : world F) (img : image) :
  register_face detect_faces extract_face_features now_isoformat images name w
  = (Ok (true, msg), w') ->
  In img images ->
  exists coords fd,
    detect_faces img = [coords] /\
    In (name, fd) (known_faces w') /\
    In (extract_face_features img coords) (samples fd).
Proof.
  intros Hok Hin.
  destruct (register_face_success _ _ _ _ _ _ _ _ Hok)
    as [_ [d1 [d2 [d3 [Hshow [_ [Hkf _]]]]]]].
  pose proof (shown_among images [d1; d2; d3] img Hshow Hin) as Hd.
  destruct Hd as [coords [Hdet Hmem]].
  eexists coords, _. split; [exact Hdet|]. split.
  - rewrite Hkf. apply in_or_app. right. left. reflexivity.
  - exact Hmem.
Qed.

(** The score of a record that holds the query among its samples, when
    the query scores above 0.75 against itself and none of the record's
    similarities is nan: the record matches, above 0.75. *)
Lemma compare_record_own_sample (d : list F) (fd : face_data F) :
  record_lengths (length d) fd ->
  In d (samples fd) ->
  comparable (cosine d (features fd)) ->
  Forall (fun x => comparable (cosine d x)) (samples fd) ->
  ltb c0_75 (cosine d d) = true ->
  exists s, compare_record d fd = Ok (true, s) /\ ltb c0_75 s = true.
Proof.
  intros Hfd Hin Hcp Hcs Hself. destruct Hfd as [Hprim Hsamp].
  unfold samples in Hin, Hcs.
  destruct (all_features fd) as [l|] eqn:Hall; [|contradiction].
  destruct (ltb (cosine d (features fd)) c0_8) eqn:Hlt.
  - destruct (compare_record_refined d fd l Hprim Hall (Hsamp l eq_refl) Hlt)
      as [s [Hs [Hmem Hmax]]].
    assert (Hcmp : comparable s).
    { destruct Hmem as [<- | Hmem]; [exact Hcp|].
      apply in_map_iff in Hmem. destruct Hmem as [x [<- Hx]].
      exact (proj1 (Forall_forall _ l) Hcs x Hx). }
    assert (Hge : ltb s (cosine d d) = false).
    { apply Hmax. right. apply in_map. exact Hin. }
    assert (Habove : ltb c0_75 s = true).
    { destruct (Hcmp _ _ Hself) as [Ha | Hb]; [exact Ha|].
      rewrite Hb in Hge. discriminate. }
    exists s. rewrite Hs, Habove. split; reflexivity.
  - rewrite (compare_record_primary d fd Hprim (or_intror Hlt)).
    assert (Habove : ltb c0_75 (cosine d (features fd)) = true).
    { destruct (Hcp _ _ c0_75_lt_c0_8) as [Ha | Hb]; [exact Ha|].
      rewrite Hb in Hlt. discriminate. }
    exists (cosine d (features fd)).
    rewrite (ltb_trans _ _ _ c0_6_lt_c0_75 Habove). split; [reflexivity|].
    exact Habove.
Qed.

(** Such a record is similar to the query at every threshold below the
    similarity of the query with itself. *)
Lemma record_similar_own_sample (d : list F) (t : F) (fd : face_data F) :
  In d (samples fd) ->
  ltb t (cosine d d) = true ->
  record_similar d t fd.
Proof.
  intros Hin Ht. right. exists d. split; [exact Hin|].
  apply (similar_iff d d t eq_refl). exact Ht.
Qed.

(** An enrolled photo, shown again in first place under a new name, is
    turned away as a duplicate. *)
Lemma enrolled_again (now_isoformat : string) (images : list image)
      (name msg : string) (w w' : world F) (L : nat) (img : image) :
  register_face detect_faces extract_face_features now_isoformat images name w
  = (Ok (true, msg), w') ->
  store_lengths L (known_faces w') ->
  Forall enrolled_shape (known_faces w') ->
  In img images ->
  (forall c, In c (detect_faces img) ->
             ltb c0_85 (cosine (extract_face_features img c)
                               (extract_face_features img c)) = true) ->
  forall (later name' : string) (rest : list image),
    length rest = 2 ->
    ~ In name' (list_names w') ->
    exists n,
      In n (list_names w') /\
      register_face detect_faces extract_face_features later
                    (img :: rest) name' w'
      = (Ok (false, msg_face_registered n), w').
Proof.
  intros Hok Hlen Hshape Hin Hself later name' rest Hrest Hfresh.
  destruct (enrolled_sample _ _ _ _ _ _ _ Hok Hin)
    as [coords [fd [Hdet [Hrec Hsample]]]].
  specialize (Hself coords). rewrite Hdet in Hself.
  specialize (Hself (or_introl eq_refl)).
  set (d := extract_face_features img coords) in *.
  pose proof (proj1 (Forall_forall _ _) Hlen _ Hrec) as Hfd. simpl in Hfd.
  assert (Hd : length d = L).
  { destruct Hfd as [_ Hs]. unfold samples in Hsample.
    destruct (all_features fd) as [l|]; [|contradiction].
    exact (proj1 (Forall_forall _ l) (Hs l eq_refl) d Hsample). }
  rewrite <- Hd in Hlen.
  pose proof (record_similar_own_sample d c0_85 fd Hsample Hself) as Hsim.
  destruct (check_face_similarity_some d c0_85 (known_faces w') Hlen)
    as [n [Hchk Hn]].
  { apply Exists_exists. exists (name, fd). split; assumption. }
  exists n. split; [exact Hn|].
  assert (Hne : n <> "").
  { unfold dict_keys in Hn. apply in_map_iff in Hn.
    destruct Hn as [kv [<- Hkv]].
    exact (proj1 (proj1 (Forall_forall _ _) Hshape kv Hkv)). }
  unfold register_face. cbn [length]. rewrite Hrest. cbn [Nat.eqb negb].
  apply dict_contains_not_In in Hfresh. rewrite Hfresh.
  cbn [register_loop]. rewrite Hdet. fold d. rewrite Hchk. cbn [bind truthy].
  apply String.eqb_neq in Hne. rewrite Hne. reflexivity.
Qed.

(** An enrolled photo, shown to [recognize_face], is given the name of a
    record that matches it. *)
Lemma enrolled_recognised (now_isoformat : string) (images : list image)
      (name msg : string) (w w' : world F) (L : nat)
      (img : image) (c : face_coords) :
  register_face detect_faces extract_face_features now_isoformat images name w
  = (Ok (true, msg), w') ->
  store_lengths L (known_faces w') ->
  Forall enrolled_shape (known_faces w') ->
  In img images ->
  In c (detect_faces img) ->
  cosines_comparable (extract_face_features img c) (known_faces w') ->
  ltb c0_75 (cosine (extract_face_features img c)
                    (extract_face_features img c)) = true ->
  exists r s,
    recognize_one extract_face_features (known_faces w') img c = Ok r /\
    r_coordinates r = c /\
    In (r_name r) (list_names w') /\
    scored (known_faces w') (extract_face_features img c) (r_name r) true s /\
    r_confidence r = PyFloat (round2 (mul s (of_Z 100))) /\
    ltb c0_75 s = true.
Proof.
  intros Hok Hlen Hshape Hin Hc Hcmp Hself.
  destruct (enrolled_sample _ _ _ _ _ _ _ Hok Hin)
    as [coords [fd [Hdet [Hrec Hsample]]]].
  rewrite Hdet in Hc. destruct Hc as [<- | []].
  set (d := extract_face_features img coords) in *.
  pose proof (proj1 (Forall_forall _ _) Hlen _ Hrec) as Hfd. simpl in Hfd.
  assert (Hd : length d = L).
  { destruct Hfd as [_ Hs]. unfold samples in Hsample.
    destruct (all_features fd) as [l|]; [|contradiction].
    exact (proj1 (Forall_forall _ l) (Hs l eq_refl) d Hsample). }
  rewrite <- Hd in Hlen, Hfd.
  pose proof (proj1 (Forall_forall _ _) Hcmp _ Hrec) as [Hcp Hcs].
  simpl in Hcp, Hcs.
  destruct (compare_record_own_sample d fd Hfd Hsample Hcp Hcs Hself)
    as [se [Hse _]].
  destruct (recognize_one_best d extract_face_features (known_faces w') img
              coords eq_refl Hlen Hshape Hcmp)
    as [r [Hr [Hcoords [best [Hconf [_ [_ [_ [_ Hmatch]]]]]]]]].
  destruct Hmatch as [s [Hscored ->]].
  { exists name, se, fd. split; assumption. }
  exists r, s. split; [exact Hr|]. split; [exact Hcoords|].
  destruct Hscored as [fd' [Hin' Hs']].
  split.
  { unfold list_names, dict_keys. apply in_map_iff.
    exists (r_name r, fd'). split; [reflexivity | exact Hin']. }
  split; [exists fd'; split; assumption|].
  split; [exact Hconf|].
  pose proof (proj1 (Forall_forall _ _) Hlen _ Hin') as Hfd'.
  pose proof (proj1 (Forall_forall _ _) Hshape _ Hin') as [_ Hsome'].
  pose proof (proj1 (Forall_forall _ _) Hcmp _ Hin') as [Hcp' Hcs'].
  simpl in Hfd', Hsome', Hcp', Hcs'.
  destruct (compare_record_verdict d fd' Hfd' Hsome' Hcp' Hcs')
    as [s' [Hv _]].
  rewrite Hs' in Hv. injection Hv as Hm <-. symmetry. exact Hm.
Qed.

End AfterEnrolment.

(** X14: an enrolled photo cannot be enrolled again under another name:
    after a successful [register_face], on a store of one descriptor
    length and of non-empty names, every later submission of three images
    under a new name whose first image is one of the enrolled ones is
    answered with 'This face appears to be already registered' under a name
    of the mapping, and changes nothing, provided the photo's descriptor
    scores above 0.85 against itself. (This leaves out the descriptors on
    which the arithmetic fails, see [self_similarity_can_fail]: the
    all-zero one scores nan, one whose squares overflow scores 0.) *)
Theorem enrolled_face_is_duplicate
        {F : Type} `{ScalarStrict F} {image : Type}
        (detect_faces : image -> list face_coords)
        (extract_face_features : image -> face_coords -> list F)
        (now_isoformat : string) (images : list image)
        (name msg : string) (w w' : world F) (L : nat) :
  register_face detect_faces extract_face_features now_isoformat images name w
  = (Ok (true, msg), w') ->
  store_lengths L (known_faces w') ->
  Forall enrolled_shape (known_faces w') ->
  forall img,
    In img images ->
    (forall c, In c (detect_faces img) ->
               ltb c0_85 (cosine (extract_face_features img c)
                                 (extract_face_features img c)) = true) ->
    forall (later name' : string) (rest : list image),
      length rest = 2 ->
      ~ In name' (list_names w') ->
      exists n,
        In n (list_names w') /\
        register_face detect_faces extract_face_features later
                      (img :: rest) name' w'
        = (Ok (false, msg_face_registered n), w').
Proof.
  intros Hok Hlen Hshape img Hin Hself.
  exact (enrolled_again detect_faces extract_face_features now_isoformat
           images name msg w w' L img Hok Hlen Hshape Hin Hself).
Qed.

Lemma enrolled_face_is_duplicate_witness :
  exists w' n,
    register_face TestImage.detect_faces TestImage.extract_face_features
      Demo.clock [Demo.face 3 4; Demo.face 3 4; Demo.face 3 4] "ann"
      (Demo.world_of (F := float) [])
    = (Ok (true, msg_registered 3), w') /\
    register_face TestImage.detect_faces TestImage.extract_face_features
      Demo.clock [Demo.face 3 4; Demo.no_face; Demo.no_face] "eve" w'
    = (Ok (false, msg_face_registered n), w').
Proof.
  set (run := register_face TestImage.detect_faces
                TestImage.extract_face_features Demo.clock
                [Demo.face 3 4; Demo.face 3 4; Demo.face 3 4] "ann"
                (Demo.world_of (F := float) [])).
  assert (Hrun : run = (Ok (true, msg_registered 3), snd run))
    by (vm_compute; reflexivity).
  assert (Hlen : store_lengths 2 (known_faces (snd run))).
  { repeat constructor. intros l Hl. injection Hl as <-. repeat constructor. }
  assert (Hshape : Forall enrolled_shape (known_faces (snd run))).
  { repeat constructor; discriminate. }
  destruct (enrolled_face_is_duplicate _ _ _ _ _ _ _ _ 2 Hrun Hlen Hshape
              (Demo.face 3 4) (or_introl eq_refl))
    with (later := Demo.clock) (name' := "eve")
         (rest := [Demo.no_face (F := float); Demo.no_face])
    as [n [_ Hn]].
  - intros c [<- | []]. vm_compute. reflexivity.
  - reflexivity.
  - intros [Habs | []]. discriminate.
  - exists (snd run), n. split; [exact Hrun | exact Hn].
Defined.

(** The descriptors that do not score above 0.85 against themselves at
    float64: the norm of the all-zero descriptor is 0 and 0/0 is nan; the
    squares of [2^600] overflow, the norm is infinite and every normalised
    entry is 0. *)
Remark self_similarity_can_fail :
  cosine (F := float) (Demo.vec 0 0) (Demo.vec 0 0) = nan /\
  cosine (F := float) [0x1p+600%float; 0x1p+600%float]
         [0x1p+600%float; 0x1p+600%float] = 0%float /\
  ltb (F := float) c0_85 nan = false /\
  ltb (F := float) c0_85 0%float = false.
Proof. repeat split; vm_compute; reflexivity. Qed.

(** X15: an enrolled photo is recognised: after a successful
    [register_face], on a store of one descriptor length and of enrolled
    records, [recognize_face]'s loop reports for the face of each enrolled
    image the name of a record of the mapping that matches it, with the
    confidence [round(s * 100, 2)] of a similarity [s] above 0.75, provided
    none of the similarities of the face with the store is nan and the
    face's descriptor scores above 0.75 against itself. *)
Theorem enrolled_face_is_recognised
        {F : Type} {SF : Scalar F} {SS : ScalarStrict F}
        {TO : ThresholdOrder F} {image : Type}
        (detect_faces : image -> list face_coords)
        (extract_face_features : image -> face_coords -> list F)
        (now_isoformat : string) (images : list image)
        (name msg : string) (w w' : world F) (L : nat) :
  register_face detect_faces extract_face_features now_isoformat images name w
  = (Ok (true, msg), w') ->
  store_lengths L (known_faces w') ->
  Forall enrolled_shape (known_faces w') ->
  forall img c,
    In img images ->
    In c (detect_faces img) ->
    cosines_comparable (extract_face_features img c) (known_faces w') ->
    ltb c0_75 (cosine (extract_face_features img c)
                      (extract_face_features img c)) = true ->
    exists r s,
      recognize_one extract_face_features (known_faces w') img c = Ok r /\
      r_coordinates r = c /\
      In (r_name r) (list_names w') /\
      scored (known_faces w') (extract_face_features img c) (r_name r) true s /\
      r_confidence r = PyFloat (round2 (mul s (of_Z 100))) /\
      ltb c0_75 s = true.
Proof.
  intros Hok Hlen Hshape img c.
  exact (enrolled_recognised detect_faces extract_face_features now_isoformat
           images name msg w w' L img c Hok Hlen Hshape).
Qed.

Lemma enrolled_face_is_recognised_witness :
  exists w' r s,
    register_face TestImage.detect_faces TestImage.extract_face_features
      Demo.clock [Demo.face 3 4; Demo.face 3 4; Demo.face 3 4] "bob"
      (Demo.world_of (F := float) [("ann", Demo.ann)])
    = (Ok (true, msg_registered 3), w') /\
    recognize_one TestImage.extract_face_features (known_faces w')
                  (Demo.face 3 4) (0, 0, 100, 100)%Z = Ok r /\
    In (r_name r) (list_names w') /\
    r_confidence r = PyFloat (round2 (mul s (of_Z 100))) /\
    ltb c0_75 s = true.
Proof.
  set (run := register_face TestImage.detect_faces
                TestImage.extract_face_features Demo.clock
                [Demo.face 3 4; Demo.face 3 4; Demo.face 3 4] "bob"
                (Demo.world_of (F := float) [("ann", Demo.ann)])).
  assert (Hrun : run = (Ok (true, msg_registered 3), snd run))
    by (vm_compute; reflexivity).
  assert (Hlen : store_lengths 2 (known_faces (snd run))).
  { repeat constructor; intros l Hl; injection Hl as <-; repeat constructor. }
  assert (Hshape : Forall enrolled_shape (known_faces (snd run))).
  { repeat constructor; discriminate. }
  destruct (enrolled_face_is_recognised _ _ _ _ _ _ _ _ 2 Hrun Hlen Hshape
              (Demo.face 3 4) (0, 0, 100, 100)%Z (or_introl eq_refl)
              (or_introl eq_refl))
    as [r [s [Hr [_ [Hname [_ [Hconf Hs]]]]]]].
  - let kf := eval vm_compute in (known_faces (snd run)) in
    change (known_faces (snd run)) with kf.
    unfold cosines_comparable.
    repeat match goal with
           | |- Forall _ [] => apply Forall_nil
           | |- Forall _ (_ :: _) => apply Forall_cons
           | |- _ /\ _ => split
           | |- comparable _ =>
               apply OrderFacts.float_comparable; vm_compute; reflexivity
           | |- _ => progress cbv beta
           | |- _ => progress cbn [samples all_features snd]
           end.
  - vm_compute. reflexivity.
  - exists (snd run), r, s. repeat split; assumption.
Defined.

(* ================================================================== *)
(** ** Recognition: which record wins a tie *)
(* ================================================================== *)

Section FirstBest.
Context {F : Type} {SF : Scalar F} {SS : ScalarStrict F} {TO : ThresholdOrder F}.
Variable feats : list F.

Lemma first_best_start : first_best feats [] None (PyInt 0).
Proof.
  unfold first_best. simpl. split; [exact zero_comparable|].
  split; [intros name m s [fd [[] _]]|].
  split; [reflexivity|].
  intros Habs. rewrite c0_75_not_below_zero in Habs. discriminate.
Qed.

Lemma first_best_step (seen : dict (face_data F)) (n : string)
      (fd : face_data F) (best_match : option string) (best : number F) (s : F) :
  compare_record feats fd = Ok (ltb c0_75 s, s) ->
  comparable s ->
  first_best feats seen best_match best ->
  first_best feats (seen ++ [(n, fd)])
    (if ltb (to_float best) s
     then (if ltb c0_75 s then Some n else best_match) else best_match)
    (if ltb (to_float best) s then PyFloat s else best).
Proof.
  intros Hscore Hcs [Hcb [Hbound [Hnone Hsome]]].
  destruct (ltb (to_float best) s) eqn:Hlt; unfold first_best; simpl.
  - split; [exact Hcs|]. split; [|split].
    + intros name m x Hx. apply scored_snoc in Hx.
      destruct Hx as [Hx | [_ Hx]].
      * destruct (Hbound name m x Hx) as [Hcx Hbx]. split; [exact Hcx|].
        destruct (ltb s x) eqn:Hsx; [|reflexivity].
        rewrite (ltb_trans _ _ _ Hlt Hsx) in Hbx. discriminate.
      * rewrite Hscore in Hx. injection Hx as _ <-.
        split; [exact Hcs | apply ltb_irrefl].
    + intros Hlow. rewrite Hlow. apply Hnone.
      destruct (ltb c0_75 (to_float best)) eqn:Hb; [|reflexivity].
      rewrite (ltb_trans _ _ _ Hb Hlt) in Hlow. discriminate.
    + intros Hhigh. rewrite Hhigh.
      exists seen, n, fd, [], s. rewrite Hhigh in Hscore.
      repeat split; try assumption.
      * intros n' m' s' Hx. destruct (Hbound n' m' s' Hx) as [Hcx Hbx].
        destruct (Hcx _ _ Hlt) as [Hb | Hb]; [|exact Hb].
        rewrite Hb in Hbx. discriminate.
      * intros n' m' s' [fd' [[] _]].
  - split; [exact Hcb|]. split; [|split].
    + intros name m x Hx. apply scored_snoc in Hx.
      destruct Hx as [Hx | [_ Hx]]; [exact (Hbound name m x Hx)|].
      rewrite Hscore in Hx. injection Hx as _ <-. split; assumption.
    + exact Hnone.
    + intros Hhigh.
      destruct (Hsome Hhigh)
        as [pre [name [fdw [post [x [-> [Hbm [Hw [-> [Hpre Hpost]]]]]]]]]].
      exists pre, name, fdw, (post ++ [(n, fd)]), x.
      rewrite <- app_assoc. repeat split; try assumption.
      intros n' m' s' Hx. apply scored_snoc in Hx.
      destruct Hx as [Hx | [_ Hx]]; [exact (Hpost n' m' s' Hx)|].
      rewrite Hscore in Hx. injection Hx as _ <-. exact Hlt.
Qed.

Lemma best_over_first (rest : dict (face_data F)) :
  forall (seen : dict (face_data F)) (best_match : option string)
         (best : number F),
    store_lengths (length feats) rest ->
    Forall enrolled_shape rest ->
    cosines_comparable feats rest ->
    first_best feats seen best_match best ->
    exists best_match' best',
      best_over rest feats best_match best = Ok (best_match', best') /\
      first_best feats (seen ++ rest) best_match' best'.
Proof.
  induction rest as [|[n fd] rest IH];
    intros seen best_match best Hlen Hshape Hcmp Hinv.
  - exists best_match, best. rewrite app_nil_r. split; [reflexivity | exact Hinv].
  - pose proof (Forall_inv Hlen) as Hfd. pose proof (Forall_inv_tail Hlen) as Hlen'.
    pose proof (Forall_inv Hshape) as [_ Hall].
    pose proof (Forall_inv_tail Hshape) as Hshape'.
    pose proof (Forall_inv Hcmp) as [Hcp Hcs].
    pose proof (Forall_inv_tail Hcmp) as Hcmp'.
    simpl in Hfd, Hall, Hcp, Hcs.
    destruct (compare_record_verdict feats fd Hfd Hall Hcp Hcs)
      as [s [Hscore Hs]].
    pose proof (first_best_step seen n fd best_match best s Hscore Hs Hinv)
      as Hstep.
    cbn [best_over]. rewrite Hscore. cbn [bind].
    destruct (ltb (to_float best) s);
      (edestruct (IH (seen ++ [(n, fd)])) as [bm' [b' [Hrun Hend]]];
       [exact Hlen' | exact Hshape' | exact Hcmp' | exact Hstep |]);
      exists bm', b'; rewrite <- app_assoc in Hend; simpl in Hend; auto.
Qed.

End FirstBest.

(** X16: a tie goes to the record enrolled first. On a store of enrolled
    records of one descriptor length, with no nan similarity, when the loop
    of [recognize_face] ends with a name, the mapping splits around a record
    under that name that matches with the reported similarity: every record
    before it scores strictly below it, and no record after it scores
    above it. *)
Theorem best_over_first_wins
        {F : Type} {SF : Scalar F} {SS : ScalarStrict F} {TO : ThresholdOrder F}
        (kf : dict (face_data F)) (feats : list F)
        (name : string) (best : number F) :
  store_lengths (length feats) kf ->
  Forall enrolled_shape kf ->
  cosines_comparable feats kf ->
  best_over kf feats None (PyInt 0) = Ok (Some name, best) ->
  exists pre fd post s,
    kf = pre ++ (name, fd) :: post /\
    compare_record feats fd = Ok (true, s) /\
    best = PyFloat s /\
    (forall n' m' s', scored pre feats n' m' s' -> ltb s' s = true) /\
    (forall n' m' s', scored post feats n' m' s' -> ltb s s' = false).
Proof.
  intros Hlen Hshape Hcmp Hrun.
  destruct (best_over_first feats kf [] None (PyInt 0) Hlen Hshape Hcmp
              (first_best_start feats))
    as [bm [b [Hrun' [_ [_ [Hnone Hsome]]]]]].
  rewrite Hrun in Hrun'. injection Hrun' as <- <-. simpl in Hsome.
  destruct (ltb c0_75 (to_float best)) eqn:Hhigh.
  - destruct (Hsome eq_refl)
      as [pre [n [fd [post [s [Hkf [Hbm [Hw [Hb [Hpre Hpost]]]]]]]]]].
    injection Hbm as <-. exists pre, fd, post, s. auto.
  - specialize (Hnone eq_refl). discriminate.
Qed.

Lemma best_over_first_wins_witness :
  exists pre fd post s,
    [("ann", Demo.ann); ("twin", Demo.ann); ("bob", Demo.bob)]
    = pre ++ ("ann", fd) :: post /\
    compare_record (Demo.vec (F := float) 1 0) fd = Ok (true, s) /\
    (forall n' m' s', scored post (Demo.vec 1 0) n' m' s' -> ltb s s' = false).
Proof.
  destruct (best_over_first_wins
              [("ann", Demo.ann); ("twin", Demo.ann); ("bob", Demo.bob)]
              (Demo.vec (F := float) 1 0) "ann" (PyFloat 1%float))
    as [pre [fd [post [s [Hkf [Hw [_ [_ Hpost]]]]]]]].
  - repeat constructor; intros l Hl; injection Hl as <-; repeat constructor.
  - repeat constructor; discriminate.
  - cbv [cosines_comparable Demo.ann Demo.bob Demo.record samples
           all_features features snd].
    repeat match goal with
           | |- Forall _ [] => apply Forall_nil
           | |- Forall _ (_ :: _) => apply Forall_cons
           | |- _ /\ _ => split
           | |- comparable _ =>
               apply OrderFacts.float_comparable; vm_compute; reflexivity
           end.
  - vm_compute. reflexivity.
  - exists pre, fd, post, s. auto.
Defined.

(* ================================================================== *)
(** ** The enrolment route: photos first *)
(* ================================================================== *)

Section RoutePhotos.
Context {F : Type} `{Scalar F} {image : Type}.
Variable detect_faces : image -> list face_coords.
Variable extract_face_features : image -> face_coords -> list F.
Variable now_isoformat : string.
Variable decode_image : string -> result (option image).

(** The photos that pass leave the loop where it was, one index further
    each, with their images collected. *)
Lemma process_images_passes (pre : list string) :
  forall (imgs : list image) (rest : list string) (i : nat) (acc : list image),
    Forall2 (photo_ok detect_faces decode_image) pre imgs ->
    process_images detect_faces decode_image (pre ++ rest) i acc
    = process_images detect_faces decode_image rest (i + length pre)
                     (acc ++ imgs).
Proof.
  induction pre as [|d pre IH]; intros imgs rest i acc Hok.
  - inversion Hok; subst. simpl. rewrite Nat.add_0_r, app_nil_r. reflexivity.
  - inversion Hok as [|? img ? imgs' [payload [Hidx [Hdec Hone]]] Hrest]; subst.
    cbn [app process_images]. rewrite Hidx. cbn [bind]. rewrite Hdec, Hone.
    cbn [Nat.eqb negb]. rewrite (IH imgs' rest (i + 1) (acc ++ [img]) Hrest).
    rewrite <- app_assoc. f_equal. simpl. lia.
Qed.

(** On images that each show one face the method's loop can only stop at
    a duplicate. *)
Lemma register_loop_one_face (kf : dict (face_data F)) (imgs : list image) :
  forall (i : nat) (acc : list (list F)) (m : string),
    Forall (fun img => length (detect_faces img) = 1) imgs ->
    register_loop detect_faces extract_face_features kf imgs i acc
    = Ok (inl m) ->
    exists n, m = msg_face_registered n.
Proof.
  induction imgs as [|img imgs IH]; intros i acc m Hone; simpl; [discriminate|].
  inversion Hone as [|? ? H1 Hrest]; subst.
  destruct (detect_faces img) as [|c [|c2 more]]; try discriminate.
  destruct (check_face_similarity kf (extract_face_features img c) c0_85)
    as [dup|e]; [|discriminate].
  simpl. destruct (truthy dup).
  - intros Hm. injection Hm as <-. eexists. reflexivity.
  - apply IH. exact Hrest.
Qed.

End RoutePhotos.

(** X17: [register_multiple] looks at the photos before the name and the
    faces: with a non-empty name and three entries, the first entry that
    fails to decode, decodes to no image, or shows another number of faces
    than one decides the answer ('Error processing photo i', 'Invalid image
    format in photo i', 'Photo i must contain exactly one face'), whether or
    not the name is enrolled or an earlier photo shows an enrolled face; and
    the store is unchanged. *)
Theorem register_multiple_photos_first
        {F : Type} `{Scalar F} {image : Type}
        (detect_faces : image -> list face_coords)
        (extract_face_features : image -> face_coords -> list F)
        (now_isoformat : string)
        (decode_image : string -> result (option image))
        (name_field : string) (images_data : list string) (w : world F)
        (pre : list string) (imgs : list image) (image_data : string)
        (post : list string) :
  py_strip name_field <> "" ->
  length images_data = 3 ->
  images_data = pre ++ image_data :: post ->
  Forall2 (photo_ok detect_faces decode_image) pre imgs ->
  (forall e,
      (payload <- py_index (split_comma image_data) 1 ;; decode_image payload)
      = Raise e ->
      register_multiple detect_faces extract_face_features now_isoformat
                        decode_image name_field images_data w
      = ({| success := false; message := msg_error_photo (length pre) e |}, w))
  /\
  ((payload <- py_index (split_comma image_data) 1 ;; decode_image payload)
   = Ok None ->
   register_multiple detect_faces extract_face_features now_isoformat
                     decode_image name_field images_data w
   = ({| success := false; message := msg_invalid_photo (length pre) |}, w))
  /\
  (forall img,
      (payload <- py_index (split_comma image_data) 1 ;; decode_image payload)
      = Ok (Some img) ->
      length (detect_faces img) <> 1 ->
      register_multiple detect_faces extract_face_features now_isoformat
                        decode_image name_field images_data w
      = ({| success := false; message := msg_one_face_photo (length pre) |}, w)).
Proof.
  intros Hname Hlen Hsplit Hpre. unfold register_multiple.
  apply String.eqb_neq in Hname. rewrite Hname, Hlen. cbn [Nat.eqb negb].
  rewrite Hsplit, (process_images_passes detect_faces decode_image pre imgs
                     (image_data :: post) 0 [] Hpre).
  cbn [process_images Nat.add]. split; [|split].
  - intros e He. rewrite He. reflexivity.
  - intros He. rewrite He. reflexivity.
  - intros img He Hfaces. rewrite He.
    apply Nat.eqb_neq in Hfaces. rewrite Hfaces. reflexivity.
Qed.

Lemma register_multiple_photos_first_witness :
  register_multiple TestImage.detect_faces TestImage.extract_face_features
    Demo.clock
    (TestImage.decode_image [("one", Demo.face 3 4); ("none", Demo.no_face)])
    " bob " ["data:,one"; "data:,none"; "data:,one"]
    (Demo.world_of (F := float) Demo.store_bob)
  = ({| success := false; message := "Photo 2 must contain exactly one face" |},
     Demo.world_of Demo.store_bob).
Proof.
  refine (proj2 (proj2 (register_multiple_photos_first
            TestImage.detect_faces TestImage.extract_face_features Demo.clock
            (TestImage.decode_image [("one", Demo.face 3 4); ("none", Demo.no_face)])
            " bob " ["data:,one"; "data:,none"; "data:,one"]
            (Demo.world_of (F := float) Demo.store_bob)
            ["data:,one"] [Demo.face 3 4] "data:,none" ["data:,one"]
            _ eq_refl eq_refl _)) Demo.no_face eq_refl _).
  - discriminate.
  - constructor; [|constructor]. exists "one". repeat split.
  - discriminate.
Defined.

(** X18: behind the route two answers of [register_face] cannot occur:
    [register_multiple] never answers 'No face detected in image i' nor
    'Multiple faces detected in image i', because every image it hands over
    has passed its own one-face check (the detector being a function of the
    image). *)
Theorem register_multiple_never_reports_faces
        {F : Type} `{Scalar F} {image : Type}
        (detect_faces : image -> list face_coords)
        (extract_face_features : image -> face_coords -> list F)
        (now_isoformat : string)
        (decode_image : string -> result (option image))
        (name_field : string) (images_data : list string) (w : world F)
        (i : nat) :
  message (fst (register_multiple detect_faces extract_face_features
                  now_isoformat decode_image name_field images_data w))
  <> msg_no_face i /\
  message (fst (register_multiple detect_faces extract_face_features
                  now_isoformat decode_image name_field images_data w))
  <> msg_multiple_faces i.
Proof.
  unfold register_multiple.
  destruct (String.eqb (py_strip name_field) ""); [split; discriminate|].
  destruct (negb (Nat.eqb (length images_data) 3)); [split; discriminate|].
  destruct (process_images _ _ _ _ _) as [resp | processed] eqn:Hproc.
  - assert (Hmsg : exists j, (exists e, message resp = msg_error_photo j e) \/
                             message resp = msg_invalid_photo j \/
                             message resp = msg_one_face_photo j).
    { revert Hproc. generalize 0 at 1. generalize (@nil image).
      induction images_data as [|d ds IH]; intros acc j; simpl; [discriminate|].
      destruct (bind _ _) as [[img|] | e].
      - destruct (negb (Nat.eqb (length (detect_faces img)) 1)).
        + intros Hr. injection Hr as <-. exists j. right. right. reflexivity.
        + apply IH.
      - intros Hr. injection Hr as <-. exists j. right. left. reflexivity.
      - intros Hr. injection Hr as <-. exists j. left. exists e. reflexivity. }
    simpl. destruct Hmsg as [j [[e ->] | [-> | ->]]]; split; discriminate.
  - apply process_images_inr in Hproc. destruct Hproc as [imgs [-> [_ Hone]]].
    simpl app. unfold register_face.
    destruct (negb (Nat.eqb (length imgs) 3)); [split; discriminate|].
    destruct (dict_contains (known_faces w) (py_strip name_field));
      [split; discriminate|].
    destruct (register_loop _ _ _ _ _ _) as [[m | all_feats] | e] eqn:Hloop.
    + destruct (register_loop_one_face detect_faces extract_face_features
                  _ _ _ _ _ Hone Hloop) as [n ->].
      split; discriminate.
    + destruct (np_mean_axis0 all_feats); split; discriminate.
    + split; discriminate.
Qed.

(* ================================================================== *)
(** ** Requests without a data-URL prefix *)
(* ================================================================== *)

Lemma split_comma_no_comma (s : string) :
  has_comma s = false -> split_comma s = [s].
Proof.
  induction s as [|c s IH]; [reflexivity|].
  simpl. intros Hc. apply orb_false_iff in Hc. destruct Hc as [Hc Hs].
  rewrite Hc, (IH Hs). reflexivity.
Qed.

(** X19: an image string without a comma (no [data:...;base64,] prefix)
    has no element 1 after [split(',')]: the three routes answer with the
    text of the IndexError and touch nothing. [/recognize] and
    [/detect_faces] answer 'Error: list index out of range';
    [/register_multiple] answers 'Error processing photo i: list index out
    of range' for the first such photo after photos that pass. *)
Theorem routes_without_comma
        {F : Type} `{Scalar F} {image : Type}
        (detect_faces : image -> list face_coords)
        (extract_face_features : image -> face_coords -> list F)
        (now_isoformat : string)
        (decode_image : string -> result (option image))
        (image_data : string) (w : world F) :
  image_data <> "" ->
  has_comma image_data = false ->
  recognize_face_route detect_faces extract_face_features decode_image
                       (Some image_data) w
  = {| rc_success := false; rc_message := "Error: list index out of range";
       rc_faces := [] |} /\
  detect_faces_endpoint detect_faces extract_face_features decode_image
                        (Some image_data) w
  = {| pv_success := false; pv_message := "Error: list index out of range";
       pv_faces := []; pv_duplicate_detected := None |} /\
  (forall name_field pre imgs post,
      py_strip name_field <> "" ->
      length (pre ++ image_data :: post) = 3 ->
      Forall2 (photo_ok detect_faces decode_image) pre imgs ->
      register_multiple detect_faces extract_face_features now_isoformat
                        decode_image name_field (pre ++ image_data :: post) w
      = ({| success := false;
            message := ("Error processing photo " ++ str_nat (length pre + 1)
                        ++ ": list index out of range")%string |}, w)).
Proof.
  intros Hne Hcomma.
  assert (Hidx : py_index (split_comma image_data) 1
                 = Raise (IndexError "list index out of range")).
  { rewrite (split_comma_no_comma image_data Hcomma). reflexivity. }
  split; [|split].
  - unfold recognize_face_route. destruct image_data; [contradiction|].
    rewrite Hidx. reflexivity.
  - unfold detect_faces_endpoint. destruct image_data; [contradiction|].
    rewrite Hidx. reflexivity.
  - intros name_field pre imgs post Hname Hlen Hpre. unfold register_multiple.
    apply String.eqb_neq in Hname. rewrite Hname, Hlen. cbn [Nat.eqb negb].
    rewrite (process_images_passes detect_faces decode_image pre imgs
               (image_data :: post) 0 [] Hpre).
    cbn [process_images Nat.add]. rewrite Hidx. reflexivity.
Qed.

Lemma routes_without_comma_witness :
  recognize_face_route TestImage.detect_faces TestImage.extract_face_features
    (TestImage.decode_image [("one", Demo.face 1 0)]) (Some "AAAA")
    (Demo.world_of (F := float) Demo.store_bob)
  = {| rc_success := false; rc_message := "Error: list index out of range";
       rc_faces := [] |} /\
  register_multiple TestImage.detect_faces TestImage.extract_face_features
    Demo.clock (TestImage.decode_image [("one", Demo.face 1 0)])
    Demo.padded_zoe ["data:,one"; "AAAA"; "data:,one"]
    (Demo.world_of (F := float) Demo.store_bob)
  = ({| success := false;
        message := "Error processing photo 2: list index out of range" |},
     Demo.world_of Demo.store_bob).
Proof.
  assert (Hne : "AAAA" <> "") by discriminate.
  destruct (routes_without_comma
              TestImage.detect_faces TestImage.extract_face_features
              Demo.clock (TestImage.decode_image [("one", Demo.face 1 0)])
              "AAAA" (Demo.world_of (F := float) Demo.store_bob) Hne eq_refl)
    as [Hrec [_ Hreg]].
  split; [exact Hrec|].
  assert (Hname : py_strip Demo.padded_zoe <> "")
    by (vm_compute; discriminate).
  assert (Hpre : Forall2 (photo_ok TestImage.detect_faces
                            (TestImage.decode_image
                               [("one", Demo.face (F := float) 1 0)]))
                         ["data:,one"] [Demo.face 1 0]).
  { constructor; [|constructor]. exists "one". repeat split. }
  exact (Hreg Demo.padded_zoe ["data:,one"] [Demo.face 1 0] ["data:,one"]
              Hname eq_refl Hpre).
Defined.

(* ================================================================== *)
(** ** A descriptor of another length in the store *)
(* ================================================================== *)

(** X20: one record whose primary descriptor has another length than the
    query, at the head of the mapping, makes every call that compares
    raise numpy's shape error: the Duplicate Guard at any threshold, the
    loop of [recognize_face], and [register_face] for a new name whose first
    image shows one face, which leaves the world unchanged. *)
Theorem mismatched_record_raises
        {F : Type} `{Scalar F} {image : Type}
        (detect_faces : image -> list face_coords)
        (extract_face_features : image -> face_coords -> list F)
        (now_isoformat : string)
        (first : string) (fd : face_data F) (others : dict (face_data F))
        (file : file_state F) (feats : list F) :
  length feats <> length (features fd) ->
  (forall t,
      check_face_similarity ((first, fd) :: others) feats t
      = Raise (shapes_not_aligned (length feats) (length (features fd)))) /\
  (forall best_match best,
      best_over ((first, fd) :: others) feats best_match best
      = Raise (shapes_not_aligned (length feats) (length (features fd)))) /\
  (forall img coords rest name,
      detect_faces img = [coords] ->
      extract_face_features img coords = feats ->
      length rest = 2 ->
      ~ In name (dict_keys ((first, fd) :: others)) ->
      register_face detect_faces extract_face_features now_isoformat
                    (img :: rest) name
                    {| known_faces := (first, fd) :: others;
                       face_data_file := file |}
      = (Raise (shapes_not_aligned (length feats) (length (features fd))),
         {| known_faces := (first, fd) :: others; face_data_file := file |})).
Proof.
  intros Hlen.
  assert (Hguard : forall t,
             check_face_similarity ((first, fd) :: others) feats t
             = Raise (shapes_not_aligned (length feats) (length (features fd)))).
  { intros t. cbn [check_face_similarity].
    rewrite (compare_faces_raise feats (features fd) t Hlen). reflexivity. }
  split; [exact Hguard|]. split.
  - intros best_match best. cbn [best_over]. unfold compare_record.
    rewrite (compare_faces_raise feats (features fd) c0_6 Hlen). reflexivity.
  - intros img coords rest name Hdet Hfeats Hrest Hname.
    unfold register_face. cbn [length]. rewrite Hrest. cbn [Nat.eqb negb].
    cbn [known_faces]. apply dict_contains_not_In in Hname. rewrite Hname.
    cbn [register_loop]. rewrite Hdet, Hfeats, Hguard. reflexivity.
Qed.

Lemma mismatched_record_raises_witness :
  check_face_similarity
    (("old", Demo.legacy_record [of_Z 1; of_Z 2; of_Z 3]) :: Demo.store_bob)
    (Demo.vec (F := float) 3 4) c0_85
  = Raise (ValueError "shapes (2,) and (3,) not aligned: 2 (dim 0) != 3 (dim 0)").
Proof.
  refine (proj1 (mismatched_record_raises
                   (TestImage.detect_faces (F := float))
                   TestImage.extract_face_features Demo.clock
                   "old" (Demo.legacy_record [of_Z 1; of_Z 2; of_Z 3])
                   Demo.store_bob FileAbsent (Demo.vec 3 4) _) c0_85).
  discriminate.
Defined.

(* ================================================================== *)
(** ** Only names of the mapping are reported *)
(* ================================================================== *)

Lemma best_over_reports_key {F : Type} `{Scalar F}
      (kf : dict (face_data F)) (feats : list F) :
  forall (best_match best_match' : option string) (best best' : number F),
    best_over kf feats best_match best = Ok (best_match', best') ->
    best_match' = best_match \/
    exists name, best_match' = Some name /\ In name (dict_keys kf).
Proof.
  induction kf as [|[n fd] kf IH]; intros bm bm' b b'; cbn [best_over].
  - intros Hrun. injection Hrun as <- <-. left. reflexivity.
  - destruct (compare_record feats fd) as [[m s] | e]; [|discriminate].
    cbn [bind].
    destruct (ltb (to_float b) s).
    + intros Hrun. apply IH in Hrun.
      destruct Hrun as [-> | [name [-> Hin]]].
      * destruct m; [|left; reflexivity].
        right. exists n. split; [reflexivity | left; reflexivity].
      * right. exists name. split; [reflexivity | right; exact Hin].
    + intros Hrun. apply IH in Hrun.
      destruct Hrun as [-> | [name [-> Hin]]]; [left; reflexivity|].
      right. exists name. split; [reflexivity | right; exact Hin].
Qed.

(** X21: recognition only reports names of the mapping: whatever the
    store and the face, a name [recognize_face]'s loop ends with is a key of
    the mapping; so once [delete_face] has answered success for a name, no
    face is reported under it until it is enrolled again. *)
Theorem recognition_reports_keys
        {F : Type} `{Scalar F}
        (w : world F) (feats : list F) :
  (forall name best,
      best_over (known_faces w) feats None (PyInt 0) = Ok (Some name, best) ->
      In name (list_names w)) /\
  (forall deleted name best,
      best_over (known_faces (snd (delete_face deleted w))) feats None (PyInt 0)
      = Ok (Some name, best) ->
      success (fst (delete_face deleted w)) = true ->
      name <> deleted).
Proof.
  split.
  - intros name best Hrun. apply best_over_reports_key in Hrun.
    destruct Hrun as [Habs | [n [Hn Hin]]]; [discriminate|].
    injection Hn as ->. exact Hin.
  - intros deleted name best Hrun Hok Heq. subst name.
    apply best_over_reports_key in Hrun.
    destruct Hrun as [Habs | [n [Hn Hin]]]; [discriminate|].
    injection Hn as <-. revert Hin Hok. unfold delete_face.
    destruct (dict_contains (known_faces w) deleted); [|discriminate].
    cbn [snd save_known_faces known_faces]. intros Hin _.
    exact (dict_del_keys _ _ _ Hin).
Qed.

Lemma recognition_reports_keys_witness :
  best_over (Demo.store_carol_dave (F := float)) (Demo.vec 0 1) None (PyInt 0)
  = Ok (Some "dave", PyFloat 1%float) /\
  In "dave" (list_names (Demo.world_of (F := float) Demo.store_carol_dave)).
Proof.
  assert (Hrun : best_over (known_faces
                              (Demo.world_of (F := float) Demo.store_carol_dave))
                           (Demo.vec 0 1) None (PyInt 0)
                 = Ok (Some "dave", PyFloat 1%float))
    by (vm_compute; reflexivity).
  split; [exact Hrun|].
  exact (proj1 (recognition_reports_keys
                  (Demo.world_of (F := float) Demo.store_carol_dave)
                  (Demo.vec 0 1)) "dave" (PyFloat 1%float) Hrun).
Defined.

(* ================================================================== *)
(** ** The recognition route *)
(* ================================================================== *)

(** X22: [/recognize] does not fail on a decodable image: without a face
    it answers success with an empty list and 'No face detected', whatever
    the store holds; with faces, on a store of enrolled records of the
    descriptors' length and no nan similarity, it answers success with
    'Recognition completed' and one result per face in the detector's
    order. *)
Theorem recognize_face_route_total
        {F : Type} {SF : Scalar F} {SS : ScalarStrict F} {TO : ThresholdOrder F}
        {image : Type}
        (detect_faces : image -> list face_coords)
        (extract_face_features : image -> face_coords -> list F)
        (decode_image : string -> result (option image))
        (image_data payload : string) (img : image) (w : world F) :
  image_data <> "" ->
  py_index (split_comma image_data) 1 = Ok payload ->
  decode_image payload = Ok (Some img) ->
  (detect_faces img = [] ->
   recognize_face_route detect_faces extract_face_features decode_image
                        (Some image_data) w
   = {| rc_success := true; rc_message := "No face detected";
        rc_faces := [] |}) /\
  (detect_faces img <> [] ->
   Forall enrolled_shape (known_faces w) ->
   (forall c, In c (detect_faces img) ->
              store_lengths (length (extract_face_features img c))
                            (known_faces w) /\
              cosines_comparable (extract_face_features img c) (known_faces w)) ->
   exists results,
     recognize_face_route detect_faces extract_face_features decode_image
                          (Some image_data) w
     = {| rc_success := true; rc_message := "Recognition completed";
          rc_faces := results |} /\
     map r_coordinates results = detect_faces img).
Proof.
  intros Hne Hidx Hdec. unfold recognize_face_route.
  destruct image_data as [|a rest]; [contradiction|].
  rewrite Hidx. cbn [bind]. rewrite Hdec. unfold recognize_face. split.
  - intros Hnone. rewrite Hnone. reflexivity.
  - intros Hfaces Hshape Hstore.
    destruct (recognize_all_best extract_face_features (known_faces w) img
                (detect_faces img) Hshape Hstore) as [results [Hrun [Hc _]]].
    exists results. rewrite Hrun.
    destruct (detect_faces img); [contradiction|]. split; [reflexivity | exact Hc].
Qed.

Lemma recognize_face_route_total_witness :
  recognize_face_route TestImage.detect_faces TestImage.extract_face_features
    (TestImage.decode_image [("empty", Demo.no_face)]) (Some "data:,empty")
    (Demo.world_of (F := float) Demo.store_bob)
  = {| rc_success := true; rc_message := "No face detected"; rc_faces := [] |}.
Proof.
  refine (proj1 (recognize_face_route_total
                   TestImage.detect_faces TestImage.extract_face_features
                   (TestImage.decode_image [("empty", Demo.no_face)])
                   "data:,empty" "empty" Demo.no_face
                   (Demo.world_of (F := float) Demo.store_bob)
                   _ eq_refl eq_refl) eq_refl).
  discriminate.
Defined.
